(** * STIGsScanner: the scan / plan / remediate engine of the Ubuntu agent

    A shallow embedding of [ubuntu_stig_agent/remediation.py], of the
    plan and history tables of [ubuntu_stig_agent/database.py] and of
    [ubuntu_stig_agent/scanners/security_config_scanner.py], together
    with the properties of the engine that the design document states.

    Python dictionaries with a fixed key set become records; optional
    keys become [option] fields; [None] is [None].  Strings are Python
    [str] values whose characters are code points below 256.  Host
    effects (files, subprocesses, the clock, the SQLite tables) are
    threaded through a state-and-exception monad. *)

From Stdlib Require Import String Ascii.
From stdpp Require Import gmap strings list pretty.

Local Open Scope string_scope.
Local Open Scope list_scope.

(** ** Python [str] operations used by the agent *)

Module PyStr.

Definition nl : ascii := ascii_of_nat 10.
Definition cr : ascii := ascii_of_nat 13.
Definition NL : string := String nl "".

(** [needle in hay] *)
Fixpoint contains (needle hay : string) : bool :=
  match hay with
  | EmptyString => String.prefix needle ""
  | String _ rest => String.prefix needle hay || contains needle rest
  end.

(** [c in s] for a single character *)
Fixpoint has_char (c : ascii) (s : string) : bool :=
  match s with
  | EmptyString => false
  | String d rest => Ascii.eqb d c || has_char c rest
  end.

(** [s.split(sep)] for a one-character separator: never empty *)
Fixpoint split (sep : ascii) (s : string) : list string :=
  match s with
  | EmptyString => [""]
  | String c rest =>
      if Ascii.eqb c sep then "" :: split sep rest
      else match split sep rest with
           | [] => [String c ""]
           | l :: ls => String c l :: ls
           end
  end.

(** [sep.join(parts)] *)
Definition join (sep : string) (parts : list string) : string :=
  String.concat sep parts.

(** [str.isspace] on one character (code points below 256) *)
Definition is_space (c : ascii) : bool :=
  let n := nat_of_ascii c in
  (Nat.leb 9 n && Nat.leb n 13) || (Nat.leb 28 n && Nat.leb n 32)
  || Nat.eqb n 133 || Nat.eqb n 160.

Fixpoint lstrip (s : string) : string :=
  match s with
  | EmptyString => ""
  | String c rest => if is_space c then lstrip rest else s
  end.

Fixpoint rstrip (s : string) : string :=
  match s with
  | EmptyString => ""
  | String c rest =>
      let r := rstrip rest in
      if String.eqb r "" && is_space c then "" else String c r
  end.

(** [s.strip()] *)
Definition strip (s : string) : string := rstrip (lstrip s).

(** Text-mode reading with universal newlines: CR LF and a lone CR
    both arrive as LF. *)
Fixpoint universal_newlines (s : string) : string :=
  match s with
  | EmptyString => ""
  | String c rest =>
      if Ascii.eqb c cr then
        match rest with
        | String d rest' =>
            if Ascii.eqb d nl then String nl (universal_newlines rest')
            else String nl (universal_newlines rest)
        | EmptyString => NL
        end
      else String c (universal_newlines rest)
  end.

(** [f.readlines()] on text already read: lines keep their newline *)
Fixpoint readlines (s : string) : list string :=
  match s with
  | EmptyString => []
  | String c rest =>
      if Ascii.eqb c nl then String c "" :: readlines rest
      else match readlines rest with
           | [] => [String c ""]
           | l :: ls => String c l :: ls
           end
  end.

(** [os.path.basename] *)
Definition basename (p : string) : string :=
  List.last (split "/"%char p) "".

End PyStr.

(** ** Regular expressions of the catalog

    Every pattern of the remediation catalog has the shape [^LIT.*]
    and is compiled with [re.MULTILINE]; [LIT] has no metacharacter
    and no newline, and the replacement has no backslash.  [LinePrefix
    LIT] stands for that pattern. *)

Inductive Regex : Type :=
  | LinePrefix (lit : string).

Definition pattern_text (r : Regex) : string :=
  match r with LinePrefix lit => "^" +:+ lit +:+ ".*" end.

(** [re.compile(r, re.MULTILINE).sub(repl, content)].  With MULTILINE
    the anchor holds at the start of every line, [.*] runs to the end
    of that line, and [sub] without [count] rewrites every match. *)
Definition re_sub (r : Regex) (repl content : string) : string :=
  match r with
  | LinePrefix lit =>
      PyStr.join PyStr.NL
        (List.map (fun line => if String.prefix lit line then repl else line)
                  (PyStr.split PyStr.nl content))
  end.

(** ** Data model *)

Record Finding : Type := mkFinding {
  f_severity : string;
  f_rule_id : string;
  f_title : string;
  f_status : string;
  f_description : string;
  f_fix : string;
  f_check_type : string
}.

(** One entry of a ["changes"] list: a dict that may carry ["regex"]
    with ["replacement"], and may carry ["append_if_not_found"]. *)
Record Change : Type := mkChange {
  c_regex : option Regex;
  c_replacement : option string;
  c_append_if_not_found : option string
}.

(** A catalog entry.  Only ["type"] is present in every entry. *)
Record Remediation : Type := mkRemediation {
  r_type : string;
  r_package : option string;
  r_config_file : option string;
  r_file : option string;
  r_settings : option (list (string * string));
  r_changes : option (list Change);
  r_service_restart : option string;
  r_service : option string;
  r_backup_required : option bool
}.

Record PlanItem : Type := mkPlanItem {
  i_finding_id : string;
  i_title : string;
  i_severity : string;
  i_remediation : Remediation;
  i_backup_required : bool
}.

Record ScanResults : Type := mkScanResults {
  sr_scan_id : option string;
  sr_findings : list Finding
}.

Record Plan : Type := mkPlan {
  p_scan_id : option string;
  p_items : list PlanItem;
  p_created_at : string;
  p_plan_id : string
}.

Record ExecutionResult : Type := mkExecutionResult {
  er_finding_id : string;
  er_title : string;
  er_status : string;
  er_changes_made : list string;
  er_backup_path : option string;
  er_error : option string
}.

Record Execution : Type := mkExecution {
  e_plan_id : string;
  e_timestamp : string;
  e_items : list ExecutionResult;
  e_status : string;
  e_error : option string
}.

(** ** The remediation catalog: [_get_remediation_steps] *)

Definition no_remediation (type : string) : Remediation :=
  mkRemediation type None None None None None None None None.

Definition remediation_V_72427 : Remediation :=
  {| r_type := "package_install";
     r_package := Some "libpam-pwquality";
     r_config_file := Some "/etc/security/pwquality.conf";
     r_file := None;
     r_settings := Some [("minlen", "14"); ("dcredit", "-1"); ("ucredit", "-1");
                         ("lcredit", "-1"); ("ocredit", "-1")];
     r_changes := None;
     r_service_restart := None;
     r_service := None;
     r_backup_required := Some true |}.

Definition remediation_V_72433 : Remediation :=
  {| r_type := "file_edit";
     r_package := None;
     r_config_file := None;
     r_file := Some "/etc/ssh/sshd_config";
     r_settings := None;
     r_changes := Some [ mkChange (Some (LinePrefix "Protocol")) (Some "Protocol 2") None;
                         mkChange None None (Some "Protocol 2") ];
     r_service_restart := Some "ssh";
     r_service := None;
     r_backup_required := Some true |}.

Definition remediation_V_72435 : Remediation :=
  {| r_type := "service_config";
     r_package := None;
     r_config_file := Some "/etc/ssh/sshd_config";
     r_file := None;
     r_settings := None;
     r_changes := Some [ mkChange (Some (LinePrefix "PermitRootLogin"))
                                  (Some "PermitRootLogin no") None;
                         mkChange None None (Some "PermitRootLogin no") ];
     r_service_restart := None;
     r_service := Some "ssh";
     r_backup_required := Some true |}.

Definition remediation_map : gmap string Remediation :=
  <["V-72427" := remediation_V_72427]>
  (<["V-72433" := remediation_V_72433]>
  (<["V-72435" := remediation_V_72435]> ∅)).

Definition _get_remediation_steps (finding : Finding) : option Remediation :=
  remediation_map !! f_rule_id finding.

(** ** The planner loop of [create_plan] *)

Definition plan_item_of (finding : Finding) (remediation : Remediation) : PlanItem :=
  {| i_finding_id := f_rule_id finding;
     i_title := f_title finding;
     i_severity := f_severity finding;
     i_remediation := remediation;
     i_backup_required := default true (r_backup_required remediation) |}.

(** One turn of [for finding in findings]. *)
Definition plan_step (plan_items : list PlanItem) (finding : Finding) : list PlanItem :=
  if String.eqb (f_status finding) "failed" then
    match _get_remediation_steps finding with
    | Some remediation => plan_items ++ [plan_item_of finding remediation]
    | None => plan_items
    end
  else plan_items.

Definition plan_items_of (findings : list Finding) : list PlanItem :=
  fold_left plan_step findings [].

(** ** Exceptions and the state-and-exception monad *)

Inductive PyExn : Type :=
  | KeyError (key : string)
  | FileNotFoundError (path : string)
  | PermissionError (path : string)
  | SameFileError (src dst : string)
  | ValueError (msg : string)
  | IntegrityError (msg : string)
  | Exception (msg : string).

(** [str(e)] *)
Definition str_exn (e : PyExn) : string :=
  match e with
  | KeyError key => "'" +:+ key +:+ "'"
  | FileNotFoundError path => "[Errno 2] No such file or directory: '" +:+ path +:+ "'"
  | PermissionError path => "[Errno 13] Permission denied: '" +:+ path +:+ "'"
  | SameFileError src dst => "'" +:+ src +:+ "' and '" +:+ dst +:+ "' are the same file"
  | ValueError msg => msg
  | IntegrityError msg => msg
  | Exception msg => msg
  end.

Inductive Res (A : Type) : Type :=
  | Ok (a : A)
  | Raise (e : PyExn).
Arguments Ok {A} a.
Arguments Raise {A} e.

(** A computation over a state [S]: the state survives an exception,
    as the effects of a Python call do. *)
Definition M (S A : Type) : Type := S -> Res A * S.

Definition ret {S A} (a : A) : M S A := fun s => (Ok a, s).
Definition raise {S A} (e : PyExn) : M S A := fun s => (Raise e, s).
Definition bind {S A B} (m : M S A) (k : A -> M S B) : M S B :=
  fun s => match m s with
           | (Ok a, s') => k a s'
           | (Raise e, s') => (Raise e, s')
           end.
Definition modify {S} (f : S -> S) : M S unit := fun s => (Ok tt, f s).
Definition of_res {S A} (r : Res A) : M S A := fun s => (r, s).

Notation "'let*' x ':=' m 'in' k" := (bind m (fun x => k))
  (at level 10, x pattern, m at level 100, k at level 200).
Notation "m ';;;' k" := (bind m (fun _ => k))
  (at level 100, k at level 200, right associativity).

(** [d[key]] on an optional key *)
Definition require {S A} (key : string) (o : option A) : M S A :=
  match o with
  | Some a => ret a
  | None => raise (KeyError key)
  end.

(** ** The host and the store *)

(** Ghost record of the effects performed, oldest first. *)
Inductive Event : Type :=
  | EvCopy (src dst : string)
  | EvWrite (path : string)
  | EvSpawn (argv : list string).

(** The part of the machine the engine touches.  [files] holds the
    regular files by path (paths are compared as written);
    [unwritable] the paths that cannot be opened for writing;
    [no_exec] the programs that cannot be started; [apt_stderr] the
    packages whose installation exits non-zero, with what it prints on
    stderr; [packages] the packages installed so far. *)
Record Host : Type := mkHost {
  files : gmap string string;
  unwritable : gset string;
  no_exec : gset string;
  apt_stderr : gmap string string;
  packages : gset string;
  events : list Event
}.

(** A row of [remediation_plans], keyed by [plan_id]. *)
Record PlanRow : Type := mkPlanRow {
  pr_scan_id : string;
  pr_timestamp : string;
  pr_items : list PlanItem;
  pr_status : string
}.

(** A row of [remediation_history], keyed by [execution_id]. *)
Record HistoryRow : Type := mkHistoryRow {
  hr_plan_id : string;
  hr_timestamp : string;
  hr_items : list ExecutionResult;
  hr_status : string;
  hr_result : string
}.

(** The two tables, and a ghost log of every value written to the
    [status] column of [remediation_plans], oldest first. *)
Record Db : Type := mkDb {
  remediation_plans : gmap string PlanRow;
  remediation_history : gmap string HistoryRow;
  status_writes : list (string * string)
}.

(** [ticks] counts the readings of the clock taken so far. *)
Record World : Type := mkWorld {
  host : Host;
  db : Db;
  ticks : nat
}.

Definition set_host (f : Host -> Host) (w : World) : World :=
  mkWorld (f (host w)) (db w) (ticks w).
Definition set_db (f : Db -> Db) (w : World) : World :=
  mkWorld (host w) (f (db w)) (ticks w).

Definition put_file (path content : string) (ev : Event) (h : Host) : Host :=
  mkHost (<[path := content]> (files h)) (unwritable h) (no_exec h)
         (apt_stderr h) (packages h) (events h ++ [ev]).
Definition log_event (ev : Event) (h : Host) : Host :=
  mkHost (files h) (unwritable h) (no_exec h) (apt_stderr h) (packages h)
         (events h ++ [ev]).
Definition add_package (pkg : string) (h : Host) : Host :=
  mkHost (files h) (unwritable h) (no_exec h) (apt_stderr h)
         ({[pkg]} ∪ packages h) (events h).

(** [os.path.exists] *)
Definition path_exists (path : string) : M World bool :=
  fun w => (Ok (bool_decide (is_Some (files (host w) !! path))), w).

(** [open(path, 'r').read()] *)
Definition open_read (path : string) : M World string :=
  fun w => match files (host w) !! path with
           | Some content => (Ok (PyStr.universal_newlines content), w)
           | None => (Raise (FileNotFoundError path), w)
           end.

(** [open(path, 'w').write(content)] *)
Definition open_write (path content : string) : M World unit :=
  fun w => if decide (path ∈ unwritable (host w))
           then (Raise (PermissionError path), w)
           else (Ok tt, set_host (put_file path content (EvWrite path)) w).

(** [shutil.copy2(src, dst)] *)
Definition copy2 (src dst : string) : M World unit :=
  fun w => if decide (src = dst) then (Raise (SameFileError src dst), w)
           else match files (host w) !! src with
                | None => (Raise (FileNotFoundError src), w)
                | Some content =>
                    if decide (dst ∈ unwritable (host w))
                    then (Raise (PermissionError dst), w)
                    else (Ok tt, set_host (put_file dst content (EvCopy src dst)) w)
                end.

(** [asyncio.create_subprocess_exec(program, *args)] followed by
    [communicate()]: starting the program is what can raise. *)
Definition subprocess_exec (program : string) (args : list string) : M World unit :=
  fun w => if decide (program ∈ no_exec (host w))
           then (Raise (FileNotFoundError program), w)
           else (Ok tt, set_host (log_event (EvSpawn (program :: args))) w).

(** [apt-get install -y package]: whether the return code is
    non-zero, and stderr. *)
Definition apt_get_install (package : string) : M World (bool * string) :=
  subprocess_exec "apt-get" ["install"; "-y"; package] ;;;
  fun w => match apt_stderr (host w) !! package with
           | Some err => (Ok (true, err), w)
           | None => (Ok (false, ""), set_host (add_package package) w)
           end.

(** ** The remediation engine *)

(** A Python dict with string keys and values, in insertion order. *)
Fixpoint dict_get (key : string) (d : list (string * string)) : option string :=
  match d with
  | [] => None
  | (k, v) :: rest => if String.eqb k key then Some v else dict_get key rest
  end.

(** The loop state of [_update_config_file]: [updated_lines],
    [settings_found] and the entries appended to
    [result["changes_made"]]. *)
Record ConfigLoop : Type := mkConfigLoop {
  updated_lines : list string;
  settings_found : gset string;
  changes_logged : list string
}.

(** One turn of [for line in lines]. *)
Definition config_line_step (file_path : string) (settings : list (string * string))
    (st : ConfigLoop) (line : string) : ConfigLoop :=
  let line := PyStr.strip line in
  if PyStr.has_char "="%char line then
    let key := PyStr.strip (List.hd "" (PyStr.split "="%char line)) in
    match dict_get key settings with
    | Some value =>
        mkConfigLoop (updated_lines st ++ [key +:+ " = " +:+ value])
                     ({[key]} ∪ settings_found st)
                     (changes_logged st ++ ["Updated " +:+ key +:+ " in " +:+ file_path])
    | None =>
        mkConfigLoop (updated_lines st ++ [line]) (settings_found st) (changes_logged st)
    end
  else mkConfigLoop (updated_lines st ++ [line]) (settings_found st) (changes_logged st).

(** One turn of [for key, value in settings.items()]. *)
Definition config_missing_step (file_path : string) (st : ConfigLoop)
    (kv : string * string) : ConfigLoop :=
  let '(key, value) := kv in
  if decide (key ∈ settings_found st) then st
  else mkConfigLoop (updated_lines st ++ [key +:+ " = " +:+ value])
                    (settings_found st)
                    (changes_logged st ++ ["Added " +:+ key +:+ " to " +:+ file_path]).

Definition config_loops (file_path : string) (settings : list (string * string))
    (lines : list string) : ConfigLoop :=
  fold_left (config_missing_step file_path) settings
    (fold_left (config_line_step file_path settings) lines (mkConfigLoop [] ∅ [])).

(** One turn of [for change in remediation["changes"]]. *)
Definition apply_change (change : Change) (new_content : string) : Res string :=
  let after_regex :=
    match c_regex change with
    | Some pattern =>
        match c_replacement change with
        | Some replacement => Ok (re_sub pattern replacement new_content)
        | None => Raise (KeyError "replacement")
        end
    | None => Ok new_content
    end in
  match after_regex with
  | Raise e => Raise e
  | Ok new_content =>
      match c_append_if_not_found change with
      | Some marker =>
          if PyStr.contains marker new_content then Ok new_content
          else Ok (new_content +:+ PyStr.NL +:+ marker)
      | None => Ok new_content
      end
  end.

Fixpoint apply_changes (changes : list Change) (new_content : string) : Res string :=
  match changes with
  | [] => Ok new_content
  | change :: rest =>
      match apply_change change new_content with
      | Ok new_content => apply_changes rest new_content
      | Raise e => Raise e
      end
  end.

Definition backup_dir : string := "/var/lib/stig-agent/backups".

Definition backup_path_for (source timestamp : string) : string :=
  backup_dir +:+ "/" +:+ PyStr.basename source +:+ "." +:+ timestamp +:+ ".bak".

(** The handlers share the [result] dict with their caller: it is
    part of their state and keeps its entries when they raise. *)
Definition Handler (A : Type) : Type := M (World * ExecutionResult) A.

Definition liftW {A R} (m : M World A) : M (World * R) A :=
  fun s => let '(a, w) := m (fst s) in (a, (w, snd s)).

Definition set_result (f : ExecutionResult -> ExecutionResult) : Handler unit :=
  modify (fun s => (fst s, f (snd s))).

Definition changes_append (entries : list string) (r : ExecutionResult) : ExecutionResult :=
  mkExecutionResult (er_finding_id r) (er_title r) (er_status r)
    (er_changes_made r ++ entries) (er_backup_path r) (er_error r).
Definition with_backup_path (p : option string) (r : ExecutionResult) : ExecutionResult :=
  mkExecutionResult (er_finding_id r) (er_title r) (er_status r)
    (er_changes_made r) p (er_error r).
Definition with_status (st : string) (r : ExecutionResult) : ExecutionResult :=
  mkExecutionResult (er_finding_id r) (er_title r) st
    (er_changes_made r) (er_backup_path r) (er_error r).
Definition with_error (msg : string) (r : ExecutionResult) : ExecutionResult :=
  mkExecutionResult (er_finding_id r) (er_title r) (er_status r)
    (er_changes_made r) (er_backup_path r) (Some msg).

Definition record_change (entry : string) : Handler unit :=
  set_result (changes_append [entry]).

Section Engine.

(** The clock: what [datetime.now()] shows at its n-th reading, as
    [strftime("%Y%m%d_%H%M%S")] and as [isoformat()]. *)
Variable strftime : nat -> string.
Variable isoformat : nat -> string.

Definition advance (w : World) : World := mkWorld (host w) (db w) (S (ticks w)).
Definition now_strftime : M World string :=
  fun w => (Ok (strftime (ticks w)), advance w).
Definition now_isoformat : M World string :=
  fun w => (Ok (isoformat (ticks w)), advance w).

Definition _restart_service (service : string) : M World unit :=
  subprocess_exec "systemctl" ["restart"; service].

Definition _enable_service (service : string) : M World unit :=
  subprocess_exec "systemctl" ["enable"; service].

Definition _create_backup (remediation : Remediation) : M World (option string) :=
  let from source :=
    let* present := path_exists source in
    if negb present then ret None
    else
      let* timestamp := now_strftime in
      let backup_path := backup_path_for source timestamp in
      copy2 source backup_path ;;;
      ret (Some backup_path) in
  match r_config_file remediation with
  | Some source => from source
  | None =>
      match r_file remediation with
      | Some source => from source
      | None => ret None
      end
  end.

(** [remediation.get("config_file") or remediation.get("file")] *)
Definition restore_target (remediation : Remediation) : option string :=
  match r_config_file remediation with
  | Some (String c rest) => Some (String c rest)
  | _ => r_file remediation
  end.

Definition _restore_from_backup (backup_path : string) (remediation : Remediation)
    : M World unit :=
  let* present := path_exists backup_path in
  if String.eqb backup_path "" || negb present then ret tt
  else
    match restore_target remediation with
    | Some (String c rest) => copy2 backup_path (String c rest)
    | _ => ret tt
    end.

Definition _update_config_file (file_path : string) (settings : list (string * string))
    : Handler unit :=
  let* content := liftW (open_read file_path) in
  let st := config_loops file_path settings (PyStr.readlines content) in
  set_result (changes_append (changes_logged st)) ;;;
  liftW (open_write file_path (PyStr.join PyStr.NL (updated_lines st))).

Definition _handle_package_installation (remediation : Remediation) : Handler unit :=
  let* package := require "package" (r_package remediation) in
  let* outcome := liftW (apt_get_install package) in
  if fst outcome
  then raise (Exception ("Failed to install package " +:+ package +:+ ": " +:+ snd outcome))
  else
    record_change ("Installed package " +:+ package) ;;;
    match r_config_file remediation, r_settings remediation with
    | Some config_file, Some settings => _update_config_file config_file settings
    | _, _ => ret tt
    end.

Definition _handle_file_edit (remediation : Remediation) : Handler unit :=
  let* file_path := require "file" (r_file remediation) in
  let* content := liftW (open_read file_path) in
  let* changes := require "changes" (r_changes remediation) in
  let* new_content := of_res (apply_changes changes content) in
  (if String.eqb new_content content then ret tt
   else liftW (open_write file_path new_content) ;;;
        record_change ("Updated " +:+ file_path)) ;;;
  match r_service_restart remediation with
  | Some service =>
      liftW (_restart_service service) ;;;
      record_change ("Restarted service " +:+ service)
  | None => ret tt
  end.

Definition _handle_service_config (remediation : Remediation) : Handler unit :=
  _handle_file_edit remediation ;;;
  let* service := require "service" (r_service remediation) in
  liftW (_enable_service service) ;;;
  record_change ("Enabled service " +:+ service).

(** The [if] / [elif] chain on [remediation["type"]]. *)
Definition apply_remediation (remediation : Remediation) : Handler unit :=
  if String.eqb (r_type remediation) "package_install"
  then _handle_package_installation remediation
  else if String.eqb (r_type remediation) "file_edit"
  then _handle_file_edit remediation
  else if String.eqb (r_type remediation) "service_config"
  then _handle_service_config remediation
  else ret tt.

(** The [try] block of [_execute_remediation_item]. *)
Definition item_try (remediation : Remediation) : Handler unit :=
  (match r_backup_required remediation with
   | Some true =>
       let* backup_path := liftW (_create_backup remediation) in
       set_result (with_backup_path backup_path)
   | _ => ret tt
   end) ;;;
  apply_remediation remediation ;;;
  set_result (with_status "success").

Definition initial_result (item : PlanItem) : ExecutionResult :=
  {| er_finding_id := i_finding_id item;
     er_title := i_title item;
     er_status := "failed";
     er_changes_made := [];
     er_backup_path := None;
     er_error := None |}.

Definition _execute_remediation_item (item : PlanItem) : M World ExecutionResult :=
  fun w =>
    let remediation := i_remediation item in
    match item_try remediation (w, initial_result item) with
    | (Ok _, (w', result)) => (Ok result, w')
    | (Raise e, (w', result)) =>
        let result := with_error (str_exn e) result in
        match er_backup_path result with
        | Some (String c rest) =>
            match _restore_from_backup (String c rest) remediation w' with
            | (Ok _, w'') => (Ok result, w'')
            | (Raise e', w'') => (Raise e', w'')
            end
        | _ => (Ok result, w')
        end
    end.

(** *** The store: [DatabaseManager] *)

Definition insert_plan (plan_id : string) (row : PlanRow) (d : Db) : Db :=
  mkDb (<[plan_id := row]> (remediation_plans d)) (remediation_history d)
       (status_writes d ++ [(plan_id, pr_status row)]).

Definition insert_history (execution_id : string) (row : HistoryRow) (d : Db) : Db :=
  mkDb (remediation_plans d) (<[execution_id := row]> (remediation_history d))
       (status_writes d).

Definition with_pr_status (status : string) (row : PlanRow) : PlanRow :=
  mkPlanRow (pr_scan_id row) (pr_timestamp row) (pr_items row) status.

(** [UPDATE remediation_plans SET status = ? WHERE plan_id = ?] *)
Definition update_plan_row (plan_id status : string) (d : Db) : Db :=
  match remediation_plans d !! plan_id with
  | Some row =>
      mkDb (<[plan_id := with_pr_status status row]> (remediation_plans d))
           (remediation_history d)
           (status_writes d ++ [(plan_id, status)])
  | None => d
  end.

(** [store_remediation_plan(plan)]: reads [plan["scan_id"]] and
    [plan["items"]].  [scan_id] is declared NOT NULL and [plan_id]
    is the primary key. *)
Definition store_remediation_plan (scan_id : option string) (items : list PlanItem)
    : M World string :=
  let* stamp := now_strftime in
  let plan_id := "plan_" +:+ stamp +:+ "_" +:+ default "None" scan_id in
  let* timestamp := now_isoformat in
  fun w =>
    match scan_id with
    | None =>
        (Raise (IntegrityError "NOT NULL constraint failed: remediation_plans.scan_id"), w)
    | Some scan_id =>
        match remediation_plans (db w) !! plan_id with
        | Some _ =>
            (Raise (IntegrityError "UNIQUE constraint failed: remediation_plans.plan_id"), w)
        | None =>
            (Ok plan_id,
             set_db (insert_plan plan_id (mkPlanRow scan_id timestamp items "pending")) w)
        end
    end.

Definition update_remediation_status (plan_id status : string) : M World unit :=
  modify (set_db (update_plan_row plan_id status)).

Definition store_remediation_execution (execution : Execution) : M World string :=
  let* stamp := now_strftime in
  let execution_id := "exec_" +:+ stamp +:+ "_" +:+ e_plan_id execution in
  let* timestamp := now_isoformat in
  fun w =>
    match remediation_history (db w) !! execution_id with
    | Some _ =>
        (Raise (IntegrityError "UNIQUE constraint failed: remediation_history.execution_id"),
         w)
    | None =>
        (Ok execution_id,
         set_db (insert_history execution_id
                   (mkHistoryRow (e_plan_id execution) timestamp (e_items execution)
                                 (e_status execution) "{}")) w)
    end.

(** Modelled from the spec: [get_remediation_plan], which
    [_get_plan] calls and [DatabaseManager] does not define.  The
    spec gives the store the contract [get_plan(plan_id) -> Plan |
    NotFound]: the plan stored under [plan_id], or nothing. *)
Definition get_remediation_plan (plan_id : string) : M World (option Plan) :=
  fun w =>
    (Ok (match remediation_plans (db w) !! plan_id with
         | Some row => Some (mkPlan (Some (pr_scan_id row)) (pr_items row)
                                    (pr_timestamp row) plan_id)
         | None => None
         end), w).

Definition _get_plan (plan_id : string) : M World (option Plan) :=
  get_remediation_plan plan_id.

(** *** [create_plan] and [execute_plan] *)

Definition create_plan (scan_results : ScanResults) : M World Plan :=
  let plan_items := plan_items_of (sr_findings scan_results) in
  let* created_at := now_isoformat in
  let* plan_id := store_remediation_plan (sr_scan_id scan_results) plan_items in
  ret (mkPlan (sr_scan_id scan_results) plan_items created_at plan_id).

Definition items_append (result : ExecutionResult) (e : Execution) : Execution :=
  mkExecution (e_plan_id e) (e_timestamp e) (e_items e ++ [result]) (e_status e) (e_error e).
Definition with_e_status (status : string) (e : Execution) : Execution :=
  mkExecution (e_plan_id e) (e_timestamp e) (e_items e) status (e_error e).
Definition with_e_error (msg : string) (e : Execution) : Execution :=
  mkExecution (e_plan_id e) (e_timestamp e) (e_items e) (e_status e) (Some msg).

(** [for item in plan["items"]]: the loop appends to
    [execution_results["items"]], which keeps what it has when an
    item raises. *)
Fixpoint execute_items (items : list PlanItem) (approved_items : list string)
    : M (World * Execution) unit :=
  match items with
  | [] => ret tt
  | item :: rest =>
      (if bool_decide (i_finding_id item ∈ approved_items) then
         let* result := liftW (_execute_remediation_item item) in
         modify (fun s => (fst s, items_append result (snd s)))
       else ret tt) ;;;
      execute_items rest approved_items
  end.

(** The end of the [try] of [execute_plan] and its [except]. *)
Definition close_execution (outcome : Res unit) (execution_results : Execution)
    : Execution :=
  match outcome with
  | Ok _ => with_e_status "completed" execution_results
  | Raise e => with_e_error (str_exn e) (with_e_status "failed" execution_results)
  end.

Definition execute_plan (plan_id : string) (approved_items : list string)
    : M World Execution :=
  let* plan := _get_plan plan_id in
  match plan with
  | None => raise (ValueError ("Plan " +:+ plan_id +:+ " not found"))
  | Some plan =>
      let* timestamp := now_isoformat in
      let execution_results := mkExecution plan_id timestamp [] "in_progress" None in
      fun w =>
        let '(outcome, (w', execution_results)) :=
          execute_items (p_items plan) approved_items (w, execution_results) in
        let execution_results := close_execution outcome execution_results in
        (store_remediation_execution execution_results ;;;
         update_remediation_status plan_id (e_status execution_results) ;;;
         ret execution_results) w'
  end.

End Engine.

(** ** [SecurityConfigScanner] *)

Definition try_except {S A} (body : M S A) (handler : PyExn -> M S A) : M S A :=
  fun s => match body s with
           | (Ok a, s') => (Ok a, s')
           | (Raise e, s') => handler e s'
           end.

Module SecurityConfigScanner.

(** The double-quote character of the fix texts. *)
Definition dq : string := String (ascii_of_nat 34) "".

Definition _check_password_policy : M World (list Finding) :=
  try_except
    (let* pam_config := open_read "/etc/pam.d/common-password" in
     ret (if PyStr.contains "pam_pwquality.so" pam_config then []
          else [ {| f_severity := "high";
                    f_rule_id := "V-72427";
                    f_title := "Password Quality Requirements";
                    f_status := "failed";
                    f_description :=
                      "Password quality requirements are not properly configured.";
                    f_fix := "Install and configure pam_pwquality module.";
                    f_check_type := "password_policy" |} ]))
    (fun e =>
       ret [ {| f_severity := "error";
                f_rule_id := "CHECK-ERROR";
                f_title := "Password Policy Check Error";
                f_status := "error";
                f_description := "Error checking password policy: " +:+ str_exn e;
                f_fix := "Ensure proper permissions to read PAM configuration.";
                f_check_type := "password_policy" |} ]).

Definition _check_ssh_config : M World (list Finding) :=
  try_except
    (let* ssh_config := open_read "/etc/ssh/sshd_config" in
     ret (List.app
          (if PyStr.contains "Protocol 2" ssh_config then []
           else [ {| f_severity := "high";
                     f_rule_id := "V-72433";
                     f_title := "SSH Protocol Version";
                     f_status := "failed";
                     f_description :=
                       "SSH must be configured to use Protocol version 2.";
                     f_fix := "Set " +:+ dq +:+ "Protocol 2" +:+ dq +:+ " in /etc/ssh/sshd_config";
                     f_check_type := "ssh_config" |} ])
          (if PyStr.contains "PermitRootLogin yes" ssh_config
           then [ {| f_severity := "high";
                     f_rule_id := "V-72435";
                     f_title := "SSH Root Login";
                     f_status := "failed";
                     f_description := "Direct root login via SSH must be disabled.";
                     f_fix := "Set " +:+ dq +:+ "PermitRootLogin no" +:+ dq
                              +:+ " in /etc/ssh/sshd_config";
                     f_check_type := "ssh_config" |} ]
           else [])))
    (fun e =>
       ret [ {| f_severity := "error";
                f_rule_id := "CHECK-ERROR";
                f_title := "SSH Configuration Check Error";
                f_status := "error";
                f_description := "Error checking SSH configuration: " +:+ str_exn e;
                f_fix := "Ensure proper permissions to read SSH configuration.";
                f_check_type := "ssh_config" |} ]).

Definition _check_system_security : M World (list Finding) :=
  try_except
    (let* limits_config := open_read "/etc/security/limits.conf" in
     ret (if PyStr.contains "*     hard    core    0" limits_config then []
          else [ {| f_severity := "medium";
                    f_rule_id := "V-72439";
                    f_title := "Core Dumps";
                    f_status := "failed";
                    f_description := "Core dumps must be disabled for all users.";
                    f_fix := "Add " +:+ dq +:+ "*     hard    core    0" +:+ dq
                             +:+ " to /etc/security/limits.conf";
                    f_check_type := "system_security" |} ]))
    (fun e =>
       ret [ {| f_severity := "error";
                f_rule_id := "CHECK-ERROR";
                f_title := "System Security Check Error";
                f_status := "error";
                f_description :=
                  "Error checking system security settings: " +:+ str_exn e;
                f_fix := "Ensure proper permissions to read system configuration files.";
                f_check_type := "system_security" |} ]).

Definition scan : M World (list Finding) :=
  let* password := _check_password_policy in
  let* ssh := _check_ssh_config in
  let* system := _check_system_security in
  ret (List.app (List.app (List.app [] password) ssh) system).

End SecurityConfigScanner.

(** * Properties of the engine *)

(** ** What a computation leaves in place *)

Section Frames.
Context {S : Type} (R : relation S) `{!Reflexive R} `{!Transitive R}.

(** [m] moves every state to one related to it by [R], whether it
    returns or raises. *)
Definition pres {A} (m : M S A) : Prop := ∀ s, R s (snd (m s)).

Lemma pres_ret {A} (a : A) : pres (ret a).
Proof. intros s. simpl. reflexivity. Qed.

Lemma pres_raise {A} e : pres (@raise S A e).
Proof. intros s. simpl. reflexivity. Qed.

Lemma pres_of_res {A} (r : Res A) : pres (of_res r).
Proof. intros s. simpl. reflexivity. Qed.

Lemma pres_require {A} key (o : option A) : pres (require key o).
Proof. destruct o; [apply pres_ret | apply pres_raise]. Qed.

Lemma pres_bind {A B} (m : M S A) (k : A → M S B) :
  pres m → (∀ a, pres (k a)) → pres (bind m k).
Proof.
  intros Hm Hk s. unfold bind. specialize (Hm s).
  destruct (m s) as [[a | e] s']; simpl in *; [| exact Hm].
  etransitivity; [exact Hm | apply Hk].
Qed.

Lemma pres_bind_ret {A B} (a : A) (k : A → M S B) :
  pres (k a) → pres (bind (ret a) k).
Proof. intros Hk s. apply Hk. Qed.

Lemma pres_bind_raise {A B} e (k : A → M S B) : pres (bind (raise e) k).
Proof. intros s. simpl. reflexivity. Qed.

Lemma pres_try_except {A} (body : M S A) handler :
  pres body → (∀ e, pres (handler e)) → pres (try_except body handler).
Proof.
  intros Hb Hh s. unfold try_except. specialize (Hb s).
  destruct (body s) as [[a | e] s']; simpl in *; [exact Hb |].
  etransitivity; [exact Hb | apply Hh].
Qed.

Lemma pres_modify (f : S → S) : (∀ s, R s (f s)) → pres (modify f).
Proof. intros Hf s. apply Hf. Qed.
End Frames.

(** [evolves touch w w']: from [w] to [w'] the store, the
    permissions and the package oracle are the same, the clock has
    not gone back, the effect log has only grown, and every file
    outside [touch] is as it was. *)
Record evolves (touch : string → Prop) (w w' : World) : Prop := mkEvolves {
  ev_db : db w' = db w;
  ev_unwritable : unwritable (host w') = unwritable (host w);
  ev_no_exec : no_exec (host w') = no_exec (host w);
  ev_apt : apt_stderr (host w') = apt_stderr (host w);
  ev_ticks : (ticks w ≤ ticks w')%nat;
  ev_events : ∃ evs, events (host w') = events (host w) ++ evs;
  ev_files : ∀ p, ¬ touch p → files (host w') !! p = files (host w) !! p
}.

#[global] Instance evolves_refl touch : Reflexive (evolves touch).
Proof.
  intros w. split; try done. exists []. by rewrite app_nil_r.
Qed.

#[global] Instance evolves_trans touch : Transitive (evolves touch).
Proof.
  intros w1 w2 w3 [] []. split; try congruence.
  - lia.
  - destruct ev_events0 as [e1 H1], ev_events1 as [e2 H2].
    exists (e1 ++ e2). by rewrite H2, H1, app_assoc.
  - intros p Hp. rewrite ev_files1, ev_files0; auto.
Qed.

Lemma evolves_weaken (touch touch' : string → Prop) w w' :
  (∀ p, touch p → touch' p) → evolves touch w w' → evolves touch' w w'.
Proof. intros Hsub []. split; auto. Qed.

(** The same on the state of a handler, whose second component (the
    result or the execution record) is unconstrained. *)
Definition on_world {X} (R : relation World) : relation (World * X) :=
  λ s s', R (fst s) (fst s').

#[global] Instance on_world_refl {X} R `{!Reflexive R} : Reflexive (@on_world X R).
Proof. intros s. unfold on_world. reflexivity. Qed.

#[global] Instance on_world_trans {X} R `{!Transitive R} : Transitive (@on_world X R).
Proof. intros a b c. unfold on_world. intros. etransitivity; eauto. Qed.

Lemma pres_liftW {X A} (R : relation World) (m : M World A) :
  pres R m → pres (@on_world X R) (liftW m).
Proof.
  intros Hm [w x]. unfold liftW, on_world. simpl. specialize (Hm w).
  by destruct (m w).
Qed.

Lemma pres_set_result R `{!Reflexive R} f : pres (on_world R) (set_result f).
Proof. intros s. unfold on_world. simpl. reflexivity. Qed.

(** *** The primitive effects *)

Lemma path_exists_evolves touch path : pres (evolves touch) (path_exists path).
Proof. intros w. simpl. reflexivity. Qed.

Lemma open_read_evolves touch path : pres (evolves touch) (open_read path).
Proof. intros w. unfold open_read. destruct (_ !! _); simpl; reflexivity. Qed.

Lemma open_write_evolves (touch : string → Prop) path content :
  touch path → pres (evolves touch) (open_write path content).
Proof.
  intros Ht w. unfold open_write. case_decide; simpl; [reflexivity |].
  split; simpl; try done; [eauto |].
  intros p Hp. apply lookup_insert_ne. by intros ->.
Qed.

Lemma copy2_evolves (touch : string → Prop) src dst :
  touch dst → pres (evolves touch) (copy2 src dst).
Proof.
  intros Ht w. unfold copy2. case_decide; simpl; [reflexivity |].
  destruct (_ !! _); simpl; [| reflexivity].
  case_decide; simpl; [reflexivity |].
  split; simpl; try done; [eauto |].
  intros p Hp. apply lookup_insert_ne. by intros ->.
Qed.

Lemma subprocess_exec_evolves touch program args :
  pres (evolves touch) (subprocess_exec program args).
Proof.
  intros w. unfold subprocess_exec. case_decide; simpl; [reflexivity |].
  split; simpl; try done. eauto.
Qed.

Lemma apt_get_install_evolves touch package :
  pres (evolves touch) (apt_get_install package).
Proof.
  unfold apt_get_install. apply pres_bind; [apply _ | apply subprocess_exec_evolves |].
  intros _ w. destruct (_ !! _); simpl; [reflexivity |].
  split; simpl; try done. exists []. by rewrite app_nil_r.
Qed.


(** *** The handlers *)

(** [steady touch s s']: the world has evolved, and of the shared
    [result] dict only [changes_made] may differ, by entries added at
    its end. *)
Record steady (touch : string → Prop) (s s' : World * ExecutionResult) : Prop :=
  mkSteady {
  st_world : evolves touch (fst s) (fst s');
  st_finding_id : er_finding_id (snd s') = er_finding_id (snd s);
  st_title : er_title (snd s') = er_title (snd s);
  st_status : er_status (snd s') = er_status (snd s);
  st_backup_path : er_backup_path (snd s') = er_backup_path (snd s);
  st_error : er_error (snd s') = er_error (snd s);
  st_changes : ∃ more, er_changes_made (snd s') = er_changes_made (snd s) ++ more
}.

#[global] Instance steady_refl touch : Reflexive (steady touch).
Proof.
  intros s. split; try done; try reflexivity. exists []. by rewrite app_nil_r.
Qed.

#[global] Instance steady_trans touch : Transitive (steady touch).
Proof.
  intros s1 s2 s3 [] []. split; try congruence.
  - etransitivity; eauto.
  - destruct st_changes0 as [e1 H1], st_changes1 as [e2 H2].
    exists (e1 ++ e2). by rewrite H2, H1, app_assoc.
Qed.

Lemma steady_liftW {A} touch (m : M World A) :
  pres (evolves touch) m → pres (steady touch) (liftW m).
Proof.
  intros Hm [w r]. unfold liftW. simpl. specialize (Hm w).
  destruct (m w) as [a w']. simpl in *.
  split; simpl; try done. exists []. by rewrite app_nil_r.
Qed.

Lemma steady_changes_append touch entries :
  pres (steady touch) (set_result (changes_append entries)).
Proof.
  intros [w r]. split; simpl; try done; try reflexivity. eauto.
Qed.

Ltac evolve_prim :=
  first [ apply open_read_evolves | apply path_exists_evolves
        | apply subprocess_exec_evolves | apply apt_get_install_evolves
        | apply open_write_evolves | apply copy2_evolves ].

(** Walks a handler along its binds and branches. *)
Ltac steady_auto :=
  lazy beta iota;
  lazymatch goal with
  | |- pres _ (bind (ret _) _) => apply pres_bind_ret; steady_auto
  | |- pres _ (bind (raise _) _) => apply pres_bind_raise; apply _
  | |- pres _ (bind (require _ ?o) _) =>
      let E := fresh "E" in destruct o eqn:E; unfold require at 1; steady_auto
  | |- pres _ (bind _ _) =>
      apply pres_bind; [apply _ | steady_auto | intros ?; steady_auto]
  | |- pres _ (ret _) => apply pres_ret; apply _
  | |- pres _ (raise _) => apply pres_raise; apply _
  | |- pres _ (of_res _) => apply pres_of_res; apply _
  | |- pres _ (require _ _) => apply pres_require; apply _
  | |- pres _ (set_result (changes_append _)) => apply steady_changes_append
  | |- pres _ (record_change _) => apply steady_changes_append
  | |- pres _ (liftW _) => apply steady_liftW; evolve_prim
  | |- pres _ (if ?b then _ else _) => destruct b; steady_auto
  | |- pres _ (match ?x with _ => _ end) =>
      let E := fresh "E" in destruct x eqn:E; steady_auto
  | _ => idtac
  end.

Section HandlerFrames.
Variable touch : string → Prop.

Lemma _update_config_file_steady file_path settings :
  touch file_path → pres (steady touch) (_update_config_file file_path settings).
Proof. intros Ht. unfold _update_config_file. steady_auto. exact Ht. Qed.

Lemma _handle_package_installation_steady remediation :
  (∀ p, r_config_file remediation = Some p → touch p) →
  pres (steady touch) (_handle_package_installation remediation).
Proof.
  intros Ht. unfold _handle_package_installation. steady_auto.
  apply _update_config_file_steady. by apply Ht.
Qed.

Lemma _handle_file_edit_steady remediation :
  (∀ p, r_file remediation = Some p → touch p) →
  pres (steady touch) (_handle_file_edit remediation).
Proof.
  intros Ht. unfold _handle_file_edit, _restart_service. steady_auto.
  by apply Ht.
Qed.

Lemma _handle_service_config_steady remediation :
  (∀ p, r_file remediation = Some p → touch p) →
  pres (steady touch) (_handle_service_config remediation).
Proof.
  intros Ht. unfold _handle_service_config, _enable_service. steady_auto.
  by apply _handle_file_edit_steady.
Qed.
End HandlerFrames.

(** The file a remediation of the given type edits. *)
Definition edit_target (remediation : Remediation) : option string :=
  if String.eqb (r_type remediation) "package_install" then r_config_file remediation
  else if String.eqb (r_type remediation) "file_edit" then r_file remediation
  else if String.eqb (r_type remediation) "service_config" then r_file remediation
  else None.

Lemma apply_remediation_steady remediation :
  pres (steady (λ p, edit_target remediation = Some p)) (apply_remediation remediation).
Proof.
  unfold apply_remediation, edit_target.
  destruct (String.eqb _ "package_install").
  { by apply _handle_package_installation_steady. }
  destruct (String.eqb _ "file_edit").
  { by apply _handle_file_edit_steady. }
  destruct (String.eqb _ "service_config").
  { by apply _handle_service_config_steady. }
  apply pres_ret. apply _.
Qed.

(** *** Items and plans *)

Definition anywhere : string → Prop := λ _, True.

Lemma now_strftime_evolves touch strftime : pres (evolves touch) (now_strftime strftime).
Proof.
  intros w. split; simpl; try done; [lia |]. exists []. by rewrite app_nil_r.
Qed.

Lemma now_isoformat_evolves touch isoformat :
  pres (evolves touch) (now_isoformat isoformat).
Proof.
  intros w. split; simpl; try done; [lia |]. exists []. by rewrite app_nil_r.
Qed.

Ltac evolve_auto :=
  lazy beta iota;
  lazymatch goal with
  | |- pres _ (bind _ _) =>
      apply pres_bind; [apply _ | evolve_auto | intros ?; evolve_auto]
  | |- pres _ (ret _) => apply pres_ret; apply _
  | |- pres _ (raise _) => apply pres_raise; apply _
  | |- pres _ (now_strftime _) => apply now_strftime_evolves
  | |- pres _ (now_isoformat _) => apply now_isoformat_evolves
  | |- pres _ (if ?b then _ else _) => destruct b; evolve_auto
  | |- pres _ (match ?x with _ => _ end) =>
      let E := fresh "E" in destruct x eqn:E; evolve_auto
  | _ => first [ evolve_prim | idtac ]
  end.

Lemma _create_backup_evolves strftime remediation :
  pres (evolves anywhere) (_create_backup strftime remediation).
Proof. unfold _create_backup. evolve_auto; done. Qed.

Lemma _restore_from_backup_evolves backup_path remediation :
  pres (evolves anywhere) (_restore_from_backup backup_path remediation).
Proof. unfold _restore_from_backup. evolve_auto; done. Qed.

Lemma steady_on_world {A} touch (m : Handler A) :
  pres (steady touch) m → pres (on_world (evolves anywhere)) m.
Proof.
  intros Hm s. destruct (Hm s) as [Hw _ _ _ _ _ _].
  unfold on_world. by eapply evolves_weaken; [| exact Hw].
Qed.

Lemma item_try_evolves strftime remediation :
  pres (on_world (evolves anywhere)) (item_try strftime remediation).
Proof.
  unfold item_try.
  apply pres_bind; [apply _ | | intros _].
  - destruct (r_backup_required remediation) as [[|] |];
      try (apply pres_ret; apply _).
    apply pres_bind; [apply _ | | intros ?].
    + apply pres_liftW, _create_backup_evolves.
    + apply pres_set_result, _.
  - apply pres_bind; [apply _ | | intros _].
    + eapply steady_on_world, apply_remediation_steady.
    + apply pres_set_result, _.
Qed.

Lemma _execute_remediation_item_evolves strftime item :
  pres (evolves anywhere) (_execute_remediation_item strftime item).
Proof.
  intros w. unfold _execute_remediation_item.
  pose proof (item_try_evolves strftime (i_remediation item) (w, initial_result item))
    as Htry.
  destruct (item_try _ _ _) as [[[] | e] [w1 r1]]; unfold on_world in Htry;
    simpl in *; [exact Htry |].
  destruct (er_backup_path r1) as [[| c rest] |]; simpl; try exact Htry.
  pose proof (_restore_from_backup_evolves (String c rest) (i_remediation item) w1)
    as Hrestore.
  destruct (_restore_from_backup _ _ _) as [[[] | e'] w2]; simpl in *;
    by etransitivity.
Qed.

Lemma execute_items_evolves strftime items approved :
  pres (on_world (evolves anywhere)) (execute_items strftime items approved).
Proof.
  induction items as [| item items IH]; simpl.
  - apply pres_ret, _.
  - apply pres_bind; [apply _ | | intros _; exact IH].
    case_bool_decide; [| apply pres_ret, _].
    apply pres_bind; [apply _ | | intros result].
    + apply pres_liftW, _execute_remediation_item_evolves.
    + apply pres_modify. intros s. unfold on_world. simpl. reflexivity.
Qed.

(** The approved items of a plan, in plan order. *)
Definition approved_of (approved_items : list string) (items : list PlanItem)
    : list PlanItem :=
  filter (λ item, i_finding_id item ∈ approved_items) items.

(** What the loop of [execute_plan] does to the execution record: it
    only appends results, one per approved item when no exception
    leaves an item, fewer when one does. *)
Lemma execute_items_outcome strftime approved items : ∀ w ex,
  ∃ outcome w' results,
    execute_items strftime items approved (w, ex)
    = (outcome, (w', mkExecution (e_plan_id ex) (e_timestamp ex)
                       (e_items ex ++ results) (e_status ex) (e_error ex)))
    ∧ match outcome with
      | Ok _ => length results = length (approved_of approved items)
      | Raise _ => length results < length (approved_of approved items)
      end.
Proof.
  induction items as [| item items IH]; intros w ex.
  - exists (Ok tt), w, []. rewrite app_nil_r. by destruct ex.
  - simpl. unfold approved_of. unfold bind at 1.
    destruct (decide (i_finding_id item ∈ approved)) as [Hin | Hout].
    + rewrite bool_decide_eq_true_2 by done.
      rewrite filter_cons_True by done.
      unfold bind at 1, liftW, modify. simpl.
      destruct (_execute_remediation_item strftime item w) as [[result | e] w1].
      * destruct (IH w1 (items_append result ex)) as (outcome & w' & results & Heq & Hlen).
        cbn [fst snd]. rewrite Heq. exists outcome, w', (result :: results).
        simpl. rewrite <- app_assoc. split; [done |].
        fold (approved_of approved items). destruct outcome; simpl; lia.
      * exists (Raise e), w1, []. rewrite app_nil_r. simpl.
        split; [by destruct ex | lia].
    + rewrite bool_decide_eq_false_2 by done.
      rewrite filter_cons_False by done. simpl.
      apply IH.
Qed.

(** [execute_plan] on a stored plan, step by step: the loop runs on
    the untouched store; then the history row is inserted, unless its
    key is taken, and the plan row is updated. *)
Lemma execute_plan_outcome strftime isoformat plan_id approved w row :
  remediation_plans (db w) !! plan_id = Some row →
  ∃ outcome w1 results,
    let exec := close_execution outcome
                  (mkExecution plan_id (isoformat (ticks w)) results "in_progress" None) in
    let execution_id := "exec_" +:+ strftime (ticks w1) +:+ "_" +:+ plan_id in
    evolves anywhere w w1
    ∧ match outcome with
      | Ok _ => length results = length (approved_of approved (pr_items row))
      | Raise _ => length results < length (approved_of approved (pr_items row))
      end
    ∧ execute_plan strftime isoformat plan_id approved w
      = match remediation_history (db w) !! execution_id with
        | Some _ =>
            (Raise (IntegrityError
                      "UNIQUE constraint failed: remediation_history.execution_id"),
             advance (advance w1))
        | None =>
            (Ok exec,
             set_db (update_plan_row plan_id (e_status exec))
               (set_db (insert_history execution_id
                          (mkHistoryRow plan_id (isoformat (S (ticks w1))) results
                                        (e_status exec) "{}"))
                  (advance (advance w1))))
        end.
Proof.
  intros Hrow.
  pose (ex0 := mkExecution plan_id (isoformat (ticks w)) [] "in_progress" None).
  destruct (execute_items_outcome strftime approved (pr_items row) (advance w) ex0)
    as (outcome & w1 & results & Hloop & Hlen).
  pose proof (execute_items_evolves strftime (pr_items row) approved (advance w, ex0))
    as Hev.
  rewrite Hloop in Hev. unfold on_world in Hev. simpl in Hev.
  exists outcome, w1, results. simpl. split; [| split; [exact Hlen |]].
  - etransitivity; [| exact Hev]. exact (now_isoformat_evolves anywhere isoformat w).
  - unfold execute_plan, _get_plan, get_remediation_plan, bind at 1.
    rewrite Hrow. simpl. unfold bind at 1, now_isoformat. simpl.
    fold ex0. rewrite Hloop. simpl.
    destruct Hev as [Hdb _ _ _ _ _ _]. simpl in Hdb.
    unfold store_remediation_execution, bind, now_strftime, now_isoformat,
      update_remediation_status, modify, ret. simpl.
    assert (He : e_plan_id (close_execution outcome
                   (mkExecution plan_id (isoformat (ticks w)) results "in_progress" None))
                 = plan_id) by (by destruct outcome).
    rewrite He, Hdb.
    destruct (remediation_history (db w) !! _); [reflexivity |].
    do 3 f_equal. by destruct outcome.
Qed.

(** ** The planner *)

(** A finding the planner turns into an item: it failed and the
    catalog knows its rule. *)
Definition Remediable (f : Finding) : Prop :=
  f_status f = "failed" ∧ is_Some (remediation_map !! f_rule_id f).

#[global] Instance Remediable_dec f : Decision (Remediable f).
Proof. unfold Remediable. apply _. Defined.

(** The item carries the finding's identity and the catalog's entry. *)
Definition item_matches (f : Finding) (it : PlanItem) : Prop :=
  i_finding_id it = f_rule_id f ∧ i_title it = f_title f ∧
  i_severity it = f_severity f ∧
  remediation_map !! f_rule_id f = Some (i_remediation it).

Lemma plan_step_skip acc f :
  f_status f ≠ "failed" ∨ remediation_map !! f_rule_id f = None →
  plan_step acc f = acc.
Proof.
  unfold plan_step, _get_remediation_steps. intros [Hs | Hc].
  - destruct (String.eqb_spec (f_status f) "failed"); [contradiction | reflexivity].
  - rewrite Hc. by destruct (String.eqb _ _).
Qed.

Lemma plan_step_take acc f r :
  f_status f = "failed" → remediation_map !! f_rule_id f = Some r →
  plan_step acc f = acc ++ [plan_item_of f r].
Proof.
  unfold plan_step, _get_remediation_steps. intros -> ->.
  reflexivity.
Qed.

Lemma plan_items_fold findings : ∀ acc,
  ∃ new, fold_left plan_step findings acc = acc ++ new
         ∧ Forall2 item_matches (filter Remediable findings) new.
Proof.
  induction findings as [| f findings IH]; intros acc; simpl.
  - exists []. split; [by rewrite app_nil_r | constructor].
  - destruct (decide (Remediable f)) as [[Hs [r Hr]] | Hn].
    + rewrite (plan_step_take acc f r Hs Hr).
      destruct (IH (acc ++ [plan_item_of f r])) as (new & -> & Hall).
      exists (plan_item_of f r :: new). split; [by rewrite <- app_assoc |].
      rewrite filter_cons_True by (split; eauto).
      constructor; [| exact Hall]. by repeat split.
    + rewrite plan_step_skip.
      * destruct (IH acc) as (new & -> & Hall). exists new.
        split; [done |]. by rewrite filter_cons_False.
      * destruct (decide (f_status f = "failed")) as [Hs |]; [| by left].
        right. destruct (remediation_map !! f_rule_id f) eqn:E; [| done].
        exfalso. apply Hn. split; eauto.
Qed.

(** C3. For every scan result the planner loop yields exactly one
    item for each finding that failed and whose rule the catalog
    knows, in the order of the findings, carrying that finding's
    rule, title and severity and the catalog's entry; a finding that
    did not fail, or whose rule is unknown, leaves the list as it is;
    [create_plan] returns a plan with exactly these items, and it does
    return one whenever the store takes the row. *)
Theorem create_plan_one_item_per_remediable_finding
    (strftime isoformat : nat → string) (sr : ScanResults) (w : World) :
  Forall2 item_matches (filter Remediable (sr_findings sr))
          (plan_items_of (sr_findings sr))
  ∧ (∀ acc f, f_status f ≠ "failed" ∨ remediation_map !! f_rule_id f = None →
              plan_step acc f = acc)
  ∧ (∀ plan w', create_plan strftime isoformat sr w = (Ok plan, w') →
                p_items plan = plan_items_of (sr_findings sr))
  ∧ (∀ scan_id, sr_scan_id sr = Some scan_id →
       remediation_plans (db w)
         !! ("plan_" +:+ strftime (S (ticks w)) +:+ "_" +:+ scan_id) = None →
       ∃ plan w', create_plan strftime isoformat sr w = (Ok plan, w')).
Proof.
  repeat split.
  - destruct (plan_items_fold (sr_findings sr) []) as (new & Hfold & Hall).
    unfold plan_items_of. by rewrite Hfold.
  - intros acc f. apply plan_step_skip.
  - intros plan w'. unfold create_plan, store_remediation_plan, bind, ret,
      now_isoformat, now_strftime. simpl.
    destruct (sr_scan_id sr); [| discriminate].
    destruct (remediation_plans (db w) !! _); [discriminate |].
    intros [= <- _]. reflexivity.
  - intros scan_id Hid Hfresh.
    unfold create_plan, store_remediation_plan, bind, ret,
      now_isoformat, now_strftime. simpl.
    rewrite Hid. simpl. rewrite Hfresh. eauto.
Qed.

Lemma execute_plan_unfold strftime isoformat plan_id approved w row :
  remediation_plans (db w) !! plan_id = Some row →
  execute_plan strftime isoformat plan_id approved w
  = (let '(outcome, (w1, ex)) :=
       execute_items strftime (pr_items row) approved
         (advance w, mkExecution plan_id (isoformat (ticks w)) [] "in_progress" None) in
     let ex := close_execution outcome ex in
     (store_remediation_execution strftime isoformat ex ;;;
      update_remediation_status plan_id (e_status ex) ;;;
      ret ex) w1).
Proof.
  intros Hrow. unfold execute_plan, _get_plan, get_remediation_plan, bind at 1.
  rewrite Hrow. reflexivity.
Qed.

(** The loop of [execute_plan] run on a list of items in two parts:
    the second part runs in the state the first left, unless an
    exception left the first. *)
Lemma execute_items_app strftime approved before after : ∀ s,
  execute_items strftime (before ++ after) approved s
  = match execute_items strftime before approved s with
    | (Ok _, s') => execute_items strftime after approved s'
    | (Raise e, s') => (Raise e, s')
    end.
Proof.
  induction before as [| item before IH]; intros s; [reflexivity |].
  cbn [app execute_items]. unfold bind at 1 3.
  destruct (if bool_decide _ then _ else _) as [[[] | e] s1]; [apply IH | done].
Qed.

(** An approved item that raises ends the loop: the record keeps the
    results it has, gets none for the item, and the items after it
    are not run. *)
Lemma execute_items_raised strftime approved item rest w ex e w' :
  i_finding_id item ∈ approved →
  _execute_remediation_item strftime item w = (Raise e, w') →
  execute_items strftime (item :: rest) approved (w, ex) = (Raise e, (w', ex)).
Proof.
  intros Hin Hitem. cbn [execute_items]. unfold bind at 1.
  rewrite bool_decide_eq_true_2 by done.
  unfold bind at 1, liftW. cbn [fst snd]. by rewrite Hitem.
Qed.

(** ** Runs of the engine *)

(** What the callers of [RemediationManager] can do to the store, and
    what the environment can do to the host in between. *)
Inductive EngineOp : Type :=
  | OpCreatePlan (scan_results : ScanResults)
  | OpExecutePlan (plan_id : string) (approved_items : list string)
  | OpEnvironment (h : Host).

Definition run_op (strftime isoformat : nat → string) (w : World) (op : EngineOp)
    : World :=
  match op with
  | OpCreatePlan scan_results => snd (create_plan strftime isoformat scan_results w)
  | OpExecutePlan plan_id approved_items =>
      snd (execute_plan strftime isoformat plan_id approved_items w)
  | OpEnvironment h => mkWorld h (db w) (ticks w)
  end.

Definition run_ops (strftime isoformat : nat → string) (ops : list EngineOp) (w : World)
    : World :=
  fold_left (run_op strftime isoformat) ops w.

(** The values the [status] column of one plan has held, oldest first. *)
Definition persisted_statuses (plan_id : string) (d : Db) : list string :=
  snd <$> filter (λ e, fst e = plan_id) (status_writes d).

(** The overall status the design document asks for: completed iff
    every processed item succeeded. *)
Definition claimed_overall_status (results : list ExecutionResult) : string :=
  if forallb (λ r, String.eqb (er_status r) "success") results
  then "completed" else "failed".

(** The status sequences the design document allows for a plan. *)
Definition claimed_status_sequence (statuses : list string) : Prop :=
  statuses `prefix_of` ["pending"; "in_progress"; "completed"]
  ∨ statuses `prefix_of` ["pending"; "in_progress"; "failed"].

(** *** Sample hosts, clock and scan *)

Definition digit (n : nat) : string := String (ascii_of_nat (48 + n)) "".
Definition sample_strftime (n : nat) : string := "20240101_12000" +:+ digit n.
Definition sample_isoformat (n : nat) : string := "2024-01-01T12:00:0" +:+ digit n.

(** A clock that shows the same second at every reading. *)
Definition stopped_clock (n : nat) : string := "20240101_120000".

Definition sshd_config : string := "/etc/ssh/sshd_config".

Definition host_of (fs : gmap string string) (ro : gset string) : Host :=
  mkHost fs ro ∅ ∅ ∅ [].
Definition fresh_world (h : Host) : World := mkWorld h (mkDb ∅ ∅ []) 0.

Definition finding_V_72433 : Finding :=
  mkFinding "high" "V-72433" "SSH Protocol Version" "failed"
    "SSH must be configured to use Protocol version 2."
    "Set Protocol 2 in /etc/ssh/sshd_config" "ssh_config".
Definition finding_V_72435 : Finding :=
  mkFinding "high" "V-72435" "SSH Root Login" "failed"
    "Direct root login via SSH must be disabled."
    "Set PermitRootLogin no in /etc/ssh/sshd_config" "ssh_config".

Definition sample_scan (findings : list Finding) : ScanResults :=
  mkScanResults (Some "scan_1") findings.

(** The plan id the store gives the first plan of [sample_scan]. *)
Definition sample_plan_id : string := "plan_20240101_120001_scan_1".

(** A world in which the plan for [findings] has just been stored. *)
Definition planned_world (h : Host) (findings : list Finding) : World :=
  snd (create_plan sample_strftime sample_isoformat (sample_scan findings)
         (fresh_world h)).

(** The value a computation returned, if it did. *)
Definition returned {A} (r : Res A) : option A :=
  match r with Ok a => Some a | Raise _ => None end.

(** A host without [/etc/ssh/sshd_config]. *)
Definition host_absent : Host := host_of ∅ ∅.

(** A host whose [/etc/ssh/sshd_config] cannot be opened for writing. *)
Definition host_readonly : Host :=
  host_of {[ sshd_config := "Protocol 1" ]} {[ sshd_config ]}.

(** A host whose [/etc/ssh/sshd_config] permits root logins. *)
Definition host_root_login : Host :=
  host_of {[ sshd_config := "PermitRootLogin yes" ]} ∅.

(** The approved item fails for want of its file. *)
Definition run_absent : Res Execution * World :=
  execute_plan sample_strftime sample_isoformat sample_plan_id ["V-72433"]
    (planned_world host_absent [finding_V_72433]).

(** A plan is stored, run with its item approved on a read-only file,
    then run again with nothing approved. *)
Definition world_rerun : World :=
  run_ops sample_strftime sample_isoformat
    [ OpCreatePlan (sample_scan [finding_V_72433]);
      OpExecutePlan sample_plan_id ["V-72433"];
      OpExecutePlan sample_plan_id [] ]
    (fresh_world host_readonly).

(** A plan is stored and run with its item approved on the read-only
    file, all within one second of the clock. *)
Definition stopped_plan_id : string := "plan_20240101_120000_scan_1".
Definition world_same_second : World :=
  run_ops stopped_clock sample_isoformat
    [ OpCreatePlan (sample_scan [finding_V_72433]);
      OpExecutePlan stopped_plan_id ["V-72433"] ]
    (fresh_world host_readonly).

(** ** [execute_plan] *)

Lemma execute_items_none strftime approved items s :
  approved_of approved items = [] →
  execute_items strftime items approved s = (Ok tt, s).
Proof.
  induction items as [| item items IH]; intros Hnone; [done |].
  unfold approved_of in Hnone. simpl.
  destruct (decide (i_finding_id item ∈ approved)) as [Hin | Hout].
  - by rewrite filter_cons_True in Hnone.
  - rewrite filter_cons_False in Hnone by done.
    rewrite bool_decide_eq_false_2 by done.
    unfold bind, ret. simpl. by apply IH.
Qed.

Lemma update_plan_row_status plan_id status d row :
  remediation_plans d !! plan_id = Some row →
  pr_status <$> remediation_plans (update_plan_row plan_id status d) !! plan_id
  = Some status.
Proof.
  intros Hrow. unfold update_plan_row. rewrite Hrow. simpl.
  by rewrite lookup_insert_eq.
Qed.

(** [execute_plan] with nothing approved: the loop does nothing, and
    the outcome depends only on whether the history key is free. *)
Lemma execute_plan_none_run strftime isoformat plan_id approved w row :
  remediation_plans (db w) !! plan_id = Some row →
  approved_of approved (pr_items row) = [] →
  let execution_id := "exec_" +:+ strftime (S (ticks w)) +:+ "_" +:+ plan_id in
  let exec := mkExecution plan_id (isoformat (ticks w)) [] "completed" None in
  execute_plan strftime isoformat plan_id approved w
  = match remediation_history (db w) !! execution_id with
    | Some _ =>
        (Raise (IntegrityError
                  "UNIQUE constraint failed: remediation_history.execution_id"),
         advance (advance (advance w)))
    | None =>
        (Ok exec,
         set_db (update_plan_row plan_id "completed")
           (set_db (insert_history execution_id
                      (mkHistoryRow plan_id (isoformat (S (S (ticks w)))) []
                                    "completed" "{}"))
              (advance (advance (advance w)))))
    end.
Proof.
  intros Hrow Hnone.
  unfold execute_plan, _get_plan, get_remediation_plan, bind at 1.
  rewrite Hrow. simpl. unfold bind at 1, now_isoformat. simpl.
  rewrite execute_items_none by done. simpl.
  unfold store_remediation_execution, bind, now_strftime, now_isoformat,
    update_remediation_status, modify, ret. simpl.
  by destruct (remediation_history (db w) !! _).
Qed.

(** C10, amended. On a stored plan, with a list of approved ids that
    matches none of its items, [execute_plan] leaves the host as it
    was.  When the key of the history row is free it returns an
    Execution with no item result and status completed, and the plan
    row then reads completed.  When that key is taken, as it is for a
    second run of the plan within the same second, it raises the
    IntegrityError of the store instead and leaves the store, and so
    the status of the plan, as it was. *)
Theorem execute_plan_nothing_approved_completes
    (strftime isoformat : nat → string) (plan_id : string) (approved : list string)
    (w : World) (row : PlanRow) :
  remediation_plans (db w) !! plan_id = Some row →
  approved_of approved (pr_items row) = [] →
  host (snd (execute_plan strftime isoformat plan_id approved w)) = host w
  ∧ (remediation_history (db w)
       !! ("exec_" +:+ strftime (S (ticks w)) +:+ "_" +:+ plan_id) = None →
     ∃ exec w', execute_plan strftime isoformat plan_id approved w = (Ok exec, w'))
  ∧ (∀ exec w',
       execute_plan strftime isoformat plan_id approved w = (Ok exec, w') →
       e_items exec = [] ∧ e_status exec = "completed"
       ∧ pr_status <$> remediation_plans (db w') !! plan_id = Some "completed")
  ∧ (is_Some (remediation_history (db w)
                !! ("exec_" +:+ strftime (S (ticks w)) +:+ "_" +:+ plan_id)) →
     ∃ w', execute_plan strftime isoformat plan_id approved w
           = (Raise (IntegrityError
                       "UNIQUE constraint failed: remediation_history.execution_id"),
              w')
           ∧ db w' = db w).
Proof.
  intros Hrow Hnone.
  rewrite (execute_plan_none_run strftime isoformat _ _ _ _ Hrow Hnone). cbv zeta.
  destruct (remediation_history (db w) !! _) eqn:Hkey.
  - split_and!; [done | done | intros ? ? [=] |]. intros _. by eexists.
  - split_and!; [done | eauto | |].
    + intros exec w' [= <- <-]. split_and!; try done.
      by eapply update_plan_row_status.
    + intros [? [=]].
Qed.

Lemma execute_plan_nothing_approved_completes_witness :
  host (snd (execute_plan sample_strftime sample_isoformat sample_plan_id ["V-00000"]
               (planned_world host_root_login [finding_V_72435; finding_V_72433])))
  = host_root_login
  ∧ ∃ exec w',
      execute_plan sample_strftime sample_isoformat sample_plan_id ["V-00000"]
        (planned_world host_root_login [finding_V_72435; finding_V_72433])
      = (Ok exec, w')
      ∧ e_items exec = [] ∧ e_status exec = "completed"
      ∧ pr_status <$> remediation_plans (db w') !! sample_plan_id = Some "completed".
Proof.
  destruct (execute_plan_nothing_approved_completes sample_strftime sample_isoformat
              sample_plan_id ["V-00000"]
              (planned_world host_root_login [finding_V_72435; finding_V_72433])
              (mkPlanRow "scan_1" (sample_isoformat 2)
                 (plan_items_of [finding_V_72435; finding_V_72433]) "pending"))
    as (Hhost & Hreturns & Hresult & _).
  - by vm_compute.
  - by vm_compute.
  - split; [exact Hhost |].
    destruct Hreturns as (exec & w' & Hrun); [by vm_compute |].
    exists exec, w'. split; [exact Hrun |]. by apply Hresult.
Defined.

(** C10 as stated fails: the stored plan was run within the second
    and reads failed; the run with nothing approved, in that same
    second, returns no Execution but raises, and the plan still reads
    failed, not completed. *)
Lemma nothing_approved_in_the_same_second_raises :
  pr_status <$> remediation_plans (db world_same_second) !! stopped_plan_id
  = Some "failed"
  ∧ fst (execute_plan stopped_clock sample_isoformat stopped_plan_id []
           world_same_second)
    = Raise (IntegrityError "UNIQUE constraint failed: remediation_history.execution_id")
  ∧ pr_status
      <$> remediation_plans
            (db (snd (execute_plan stopped_clock sample_isoformat stopped_plan_id []
                        world_same_second))) !! stopped_plan_id
    = Some "failed".
Proof. by vm_compute. Qed.

(** C1, amended. When [execute_plan] returns, the overall status is
    completed exactly when every approved item was processed to a
    result, whatever the status of each result, and failed exactly
    when an exception left an item, which is also when the record
    carries an error; the plan row then holds that same status.  It
    does return when the plan is stored and the history is empty. *)
Theorem execute_plan_status_ignores_item_status
    (strftime isoformat : nat → string) (plan_id : string) (approved : list string)
    (w : World) (row : PlanRow) :
  remediation_plans (db w) !! plan_id = Some row →
  (remediation_history (db w) = ∅ →
   ∃ exec w', execute_plan strftime isoformat plan_id approved w = (Ok exec, w'))
  ∧ ∀ exec w',
      execute_plan strftime isoformat plan_id approved w = (Ok exec, w') →
      (e_status exec = "completed" ∨ e_status exec = "failed")
      ∧ (e_status exec = "completed"
         ↔ length (e_items exec) = length (approved_of approved (pr_items row)))
      ∧ (e_status exec = "failed" ↔ is_Some (e_error exec))
      ∧ pr_status <$> remediation_plans (db w') !! plan_id = Some (e_status exec).
Proof.
  intros Hrow.
  destruct (execute_plan_outcome strftime isoformat plan_id approved w row Hrow)
    as (outcome & w1 & results & Hev & Hlen & Hrun).
  split.
  - intros Hempty. rewrite Hrun, Hempty, lookup_empty. eauto.
  - intros exec w'. rewrite Hrun.
    destruct (remediation_history (db w) !! _); [discriminate |].
    intros [= <- <-]. destruct Hev as [Hdb _ _ _ _ _ _].
    repeat split.
    + destruct outcome; simpl; auto.
    + destruct outcome; simpl; [done | discriminate].
    + destruct outcome; simpl; [done | lia].
    + destruct outcome; simpl; [discriminate | eauto].
    + destruct outcome; simpl; [by intros [? ?] | done].
    + simpl. eapply update_plan_row_status. simpl. by rewrite Hdb.
Qed.

Lemma execute_plan_status_ignores_item_status_witness :
  ∃ exec w',
    run_absent = (Ok exec, w')
    ∧ (e_status exec = "completed" ∨ e_status exec = "failed")
    ∧ (e_status exec = "completed"
       ↔ length (e_items exec)
         = length (approved_of ["V-72433"] (plan_items_of [finding_V_72433])))
    ∧ (e_status exec = "failed" ↔ is_Some (e_error exec))
    ∧ pr_status <$> remediation_plans (db w') !! sample_plan_id
      = Some (e_status exec).
Proof.
  destruct run_absent as [r w'] eqn:Hrun.
  assert (Hok : returned r ≠ None).
  { replace r with (fst run_absent) by (by rewrite Hrun). by vm_compute. }
  destruct r as [exec | e]; [| done].
  exists exec, w'. split; [reflexivity |].
  eapply (execute_plan_status_ignores_item_status sample_strftime sample_isoformat
            sample_plan_id ["V-72433"] (planned_world host_absent [finding_V_72433])
            (mkPlanRow "scan_1" (sample_isoformat 2)
                       (plan_items_of [finding_V_72433]) "pending")).
  - vm_compute. reflexivity.
  - exact Hrun.
Defined.

(** C1 as stated fails: the approved item fails for want of its file,
    no backup is taken, and yet the Execution and the plan row end
    completed, not failed. *)
Lemma execute_plan_completed_with_failed_item :
  (λ e, er_status <$> e_items e) <$> returned (fst run_absent) = Some ["failed"]
  ∧ (λ e, er_backup_path <$> e_items e) <$> returned (fst run_absent) = Some [None]
  ∧ e_status <$> returned (fst run_absent) = Some "completed"
  ∧ e_status <$> returned (fst run_absent)
    ≠ (claimed_overall_status ∘ e_items) <$> returned (fst run_absent)
  ∧ pr_status <$> remediation_plans (db (snd run_absent)) !! sample_plan_id
    = Some "completed"
  ∧ files (host (snd run_absent)) = ∅.
Proof. vm_compute. repeat split; discriminate. Qed.

(** ** The persisted status of a plan *)

(** What one call of the engine can do to the store. *)
Inductive db_step (d : Db) : Db → Prop :=
  | db_stay : db_step d d
  | db_new_plan plan_id row :
      remediation_plans d !! plan_id = None →
      pr_status row = "pending" →
      db_step d (insert_plan plan_id row d)
  | db_finish plan_id status execution_id hrow row :
      remediation_plans d !! plan_id = Some row →
      status = "completed" ∨ status = "failed" →
      db_step d (update_plan_row plan_id status (insert_history execution_id hrow d)).

Lemma create_plan_db_step strftime isoformat scan_results w :
  db_step (db w) (db (snd (create_plan strftime isoformat scan_results w))).
Proof.
  unfold create_plan, store_remediation_plan, bind, ret, now_isoformat, now_strftime.
  simpl. destruct (sr_scan_id scan_results) as [scan_id |]; simpl; [| constructor].
  destruct (remediation_plans (db w) !! _) eqn:E; simpl; [constructor |].
  by apply db_new_plan.
Qed.

Lemma execute_plan_db_step strftime isoformat plan_id approved w :
  db_step (db w) (db (snd (execute_plan strftime isoformat plan_id approved w))).
Proof.
  destruct (remediation_plans (db w) !! plan_id) as [row |] eqn:Hrow.
  - destruct (execute_plan_outcome strftime isoformat plan_id approved w row Hrow)
      as (outcome & w1 & results & Hev & _ & Hrun).
    rewrite Hrun. destruct Hev as [Hdb _ _ _ _ _ _].
    destruct (remediation_history (db w) !! _); simpl.
    + rewrite Hdb. constructor.
    + rewrite Hdb. eapply db_finish; [exact Hrow |].
      destruct outcome; simpl; auto.
  - unfold execute_plan, _get_plan, get_remediation_plan, bind, raise.
    rewrite Hrow. simpl. constructor.
Qed.

Lemma run_op_db_step strftime isoformat w op :
  db_step (db w) (db (run_op strftime isoformat w op)).
Proof.
  destruct op; simpl.
  - apply create_plan_db_step.
  - apply execute_plan_db_step.
  - constructor.
Qed.

(** The history of a plan's status: nothing before the plan is
    stored, then pending, then one terminal status for every run of
    [execute_plan] that got to its end; the row holds the last. *)
Definition terminal (status : string) : Prop :=
  status = "completed" ∨ status = "failed".

Definition status_history_ok (d : Db) : Prop :=
  ∀ plan_id,
    match remediation_plans d !! plan_id with
    | None => persisted_statuses plan_id d = []
    | Some row =>
        ∃ rest, persisted_statuses plan_id d = "pending" :: rest
                ∧ Forall terminal rest
                ∧ pr_status row = List.last rest "pending"
    end.

Lemma persisted_statuses_snoc plan_id d plans history key status :
  persisted_statuses plan_id (mkDb plans history (status_writes d ++ [(key, status)]))
  = persisted_statuses plan_id d ++ (if decide (key = plan_id) then [status] else []).
Proof.
  unfold persisted_statuses. simpl. rewrite filter_app, fmap_app. f_equal.
  rewrite filter_cons. simpl. by destruct (decide (key = plan_id)).
Qed.

Lemma status_history_ok_step d d' :
  db_step d d' → status_history_ok d → status_history_ok d'.
Proof.
  intros Hstep Hok. destruct Hstep as [| key row Hnew Hpending | key status eid hrow row Hrow Hterm].
  - exact Hok.
  - intros plan_id. specialize (Hok plan_id). unfold insert_plan. simpl.
    rewrite persisted_statuses_snoc.
    destruct (decide (key = plan_id)) as [-> | Hne].
    + rewrite lookup_insert_eq. rewrite Hnew in Hok. rewrite Hok, Hpending.
      exists []. by repeat split.
    + rewrite lookup_insert_ne by done. rewrite app_nil_r.
      destruct (remediation_plans d !! plan_id); exact Hok.
  - intros plan_id. specialize (Hok plan_id).
    unfold update_plan_row, insert_history. simpl. rewrite Hrow. simpl.
    rewrite persisted_statuses_snoc.
    destruct (decide (key = plan_id)) as [-> | Hne].
    + rewrite lookup_insert_eq. rewrite Hrow in Hok.
      destruct Hok as (rest & -> & Hall & _).
      exists (rest ++ [status]). repeat split.
      * apply Forall_app. split; [done |]. by constructor.
      * simpl. by rewrite last_last.
    + rewrite lookup_insert_ne by done. rewrite app_nil_r.
      destruct (remediation_plans d !! plan_id); exact Hok.
Qed.

Lemma run_ops_status_history_ok strftime isoformat ops : ∀ w,
  status_history_ok (db w) → status_history_ok (db (run_ops strftime isoformat ops w)).
Proof.
  induction ops as [| op ops IH]; intros w Hok; [exact Hok |].
  simpl. apply IH. eapply status_history_ok_step; [| exact Hok].
  apply run_op_db_step.
Qed.

(** What one call writes to the status column: a [create_plan] that
    returns writes pending for the plan it returns, an [execute_plan]
    that returns writes the status of the Execution it returns, and a
    call that raises writes nothing. *)
Definition op_writes (strftime isoformat : nat → string) (w : World) (op : EngineOp)
    : list (string * string) :=
  match op with
  | OpCreatePlan scan_results =>
      match fst (create_plan strftime isoformat scan_results w) with
      | Ok plan => [(p_plan_id plan, "pending")]
      | Raise _ => []
      end
  | OpExecutePlan plan_id approved_items =>
      match fst (execute_plan strftime isoformat plan_id approved_items w) with
      | Ok execution => [(plan_id, e_status execution)]
      | Raise _ => []
      end
  | OpEnvironment _ => []
  end.

Lemma create_plan_writes strftime isoformat scan_results w :
  status_writes (db (snd (create_plan strftime isoformat scan_results w)))
  = status_writes (db w) ++ op_writes strftime isoformat w (OpCreatePlan scan_results).
Proof.
  unfold op_writes, create_plan, store_remediation_plan, bind, ret, now_isoformat,
    now_strftime.
  simpl. destruct (sr_scan_id scan_results) as [scan_id |]; simpl;
    [| by rewrite app_nil_r].
  destruct (remediation_plans (db w) !! _) eqn:E; simpl; [by rewrite app_nil_r |].
  reflexivity.
Qed.

(** What a call of [execute_plan] leaves in the store: when it
    returns, the status of the Execution returned, which is completed
    or failed, is in the row of the plan and is the one value written;
    when it raises, the store is as it was. *)
Lemma execute_plan_writes strftime isoformat plan_id approved w :
  match execute_plan strftime isoformat plan_id approved w with
  | (Ok execution, w') =>
      terminal (e_status execution)
      ∧ pr_status <$> remediation_plans (db w') !! plan_id = Some (e_status execution)
      ∧ status_writes (db w') = status_writes (db w) ++ [(plan_id, e_status execution)]
  | (Raise _, w') => db w' = db w
  end.
Proof.
  destruct (remediation_plans (db w) !! plan_id) as [row |] eqn:Hrow.
  - destruct (execute_plan_outcome strftime isoformat plan_id approved w row Hrow)
      as (outcome & w1 & results & Hev & _ & Hrun).
    rewrite Hrun. destruct Hev as [Hdb _ _ _ _ _ _].
    destruct (remediation_history (db w) !! _); [exact Hdb |].
    split_and!.
    + destruct outcome; [by left | by right].
    + eapply update_plan_row_status. cbn. by rewrite Hdb.
    + unfold update_plan_row. cbn. rewrite Hdb, Hrow. reflexivity.
  - unfold execute_plan, _get_plan, get_remediation_plan, bind, raise.
    rewrite Hrow. reflexivity.
Qed.

Lemma run_op_writes strftime isoformat w op :
  status_writes (db (run_op strftime isoformat w op))
  = status_writes (db w) ++ op_writes strftime isoformat w op.
Proof.
  destruct op as [scan_results | plan_id approved | h].
  - apply create_plan_writes.
  - cbn [run_op op_writes].
    pose proof (execute_plan_writes strftime isoformat plan_id approved w) as Hrun.
    destruct (execute_plan strftime isoformat plan_id approved w)
      as [[execution | e] w'].
    + cbn [fst snd]. by destruct Hrun as (_ & _ & ->).
    + cbn [fst snd]. by rewrite Hrun, app_nil_r.
  - cbn. by rewrite app_nil_r.
Qed.

(** C9, amended. Starting from an empty store, whatever calls of
    [create_plan] and [execute_plan] are made and whatever happens to
    the host in between, the values the status of a plan has held are:
    none while the plan is not stored; then pending, followed by
    completed or failed values only, the row holding the last of
    them.  in_progress is never among them, and the loop over the
    items leaves the store as it found it, so the row still reads its
    old status while items run.  Every call writes exactly this: a
    [create_plan] that returns writes pending, once, for its plan; an
    [execute_plan] that returns writes the status of the Execution it
    returns, once, which is completed or failed and is then the status
    of the row; a call that raises writes nothing. *)
Theorem persisted_status_is_pending_then_terminal
    (strftime isoformat : nat → string) (ops : list EngineOp) (h : Host) (t : nat) :
  status_history_ok (db (run_ops strftime isoformat ops (mkWorld h (mkDb ∅ ∅ []) t)))
  ∧ (∀ plan_id,
       "in_progress" ∉ persisted_statuses plan_id
         (db (run_ops strftime isoformat ops (mkWorld h (mkDb ∅ ∅ []) t))))
  ∧ (∀ items approved w ex,
       db (fst (snd (execute_items strftime items approved (w, ex)))) = db w)
  ∧ (∀ w op,
       status_writes (db (run_op strftime isoformat w op))
       = status_writes (db w) ++ op_writes strftime isoformat w op)
  ∧ (∀ plan_id approved w,
       match execute_plan strftime isoformat plan_id approved w with
       | (Ok execution, w') =>
           terminal (e_status execution)
           ∧ pr_status <$> remediation_plans (db w') !! plan_id
             = Some (e_status execution)
           ∧ status_writes (db w')
             = status_writes (db w) ++ [(plan_id, e_status execution)]
       | (Raise _, w') => db w' = db w
       end).
Proof.
  assert (Hok : status_history_ok
                  (db (run_ops strftime isoformat ops (mkWorld h (mkDb ∅ ∅ []) t)))).
  { apply run_ops_status_history_ok. intros plan_id. simpl.
    by rewrite lookup_empty. }
  split; [exact Hok | split_and!].
  - intros plan_id Hin. specialize (Hok plan_id).
    destruct (remediation_plans _ !! plan_id).
    + destruct Hok as (rest & Heq & Hall & _). rewrite Heq in Hin.
      apply elem_of_cons in Hin as [Hin | Hin]; [discriminate |].
      rewrite Forall_forall in Hall. destruct (Hall _ Hin); discriminate.
    + rewrite Hok in Hin. by apply not_elem_of_nil in Hin.
  - intros items approved w ex.
    by destruct (execute_items_evolves strftime items approved (w, ex)).
  - intros w op. apply run_op_writes.
  - intros plan_id approved w. apply execute_plan_writes.
Qed.

(** C9 as stated fails: the statuses persisted for the plan are
    pending, failed, completed; in_progress is never stored, and the
    second run replaces a terminal status by the other one. *)
Lemma persisted_status_skips_in_progress_and_reruns :
  persisted_statuses sample_plan_id (db world_rerun) = ["pending"; "failed"; "completed"]
  ∧ ¬ claimed_status_sequence (persisted_statuses sample_plan_id (db world_rerun)).
Proof.
  assert (Hlog : persisted_statuses sample_plan_id (db world_rerun)
                 = ["pending"; "failed"; "completed"]) by (by vm_compute).
  split; [exact Hlog |]. rewrite Hlog.
  intros [[k Hk] | [k Hk]]; discriminate.
Qed.

(** ** [SecurityConfigScanner.scan] *)

(** What the three [except] branches of the scanner build. *)
Definition is_check_error (f : Finding) : Prop := f_rule_id f = "CHECK-ERROR".

Definition password_policy_error (e : PyExn) : Finding :=
  {| f_severity := "error";
     f_rule_id := "CHECK-ERROR";
     f_title := "Password Policy Check Error";
     f_status := "error";
     f_description := "Error checking password policy: " +:+ str_exn e;
     f_fix := "Ensure proper permissions to read PAM configuration.";
     f_check_type := "password_policy" |}.

Lemma check_outcome (path : string) (good : string → list Finding)
    (bad : PyExn → list Finding) (w : World) :
  try_except (let* content := open_read path in ret (good content))
             (λ e, ret (bad e)) w
  = (Ok (match files (host w) !! path with
         | Some content => good (PyStr.universal_newlines content)
         | None => bad (FileNotFoundError path)
         end), w).
Proof.
  unfold try_except, bind, ret, open_read.
  by destruct (files (host w) !! path).
Qed.

(** C2 on the code. [scan] of the security configuration scanner
    never raises and leaves the host as it is, and a check whose file
    cannot be read yields a CHECK-ERROR finding with status error that
    carries the failure; but every CHECK-ERROR finding it yields has
    severity error, never info. *)
Theorem security_config_scan_check_error_severity (w : World) :
  ∃ findings,
    SecurityConfigScanner.scan w = (Ok findings, w)
    ∧ Forall (λ f, is_check_error f →
                   f_severity f = "error" ∧ f_severity f ≠ "info"
                   ∧ f_status f = "error") findings
    ∧ (files (host w) !! "/etc/pam.d/common-password" = None →
       password_policy_error (FileNotFoundError "/etc/pam.d/common-password")
       ∈ findings).
Proof.
  unfold SecurityConfigScanner.scan, SecurityConfigScanner._check_password_policy,
    SecurityConfigScanner._check_ssh_config,
    SecurityConfigScanner._check_system_security.
  unfold bind at 1. rewrite check_outcome.
  unfold bind at 1. rewrite check_outcome.
  unfold bind at 1. rewrite check_outcome.
  eexists. split; [reflexivity |]. split.
  - rewrite !Forall_app. repeat split.
    + constructor.
    + destruct (files (host w) !! "/etc/pam.d/common-password");
        [destruct (PyStr.contains _ _) |];
        repeat constructor; unfold is_check_error; simpl; done.
    + destruct (files (host w) !! "/etc/ssh/sshd_config");
        [destruct (PyStr.contains "Protocol 2" _), (PyStr.contains _ _) |];
        repeat constructor; unfold is_check_error; simpl; done.
    + destruct (files (host w) !! "/etc/security/limits.conf");
        [destruct (PyStr.contains _ _) |];
        repeat constructor; unfold is_check_error; simpl; done.
  - intros ->. simpl. apply list_elem_of_here.
Qed.

(** The same at one host: without the PAM file the scan reports the
    failed check with severity error. *)
Lemma security_config_scan_without_pam_file :
  (λ fs : list Finding, (f_rule_id <$> fs, f_severity <$> fs, f_status <$> fs))
    <$> returned (fst (SecurityConfigScanner.scan (fresh_world host_root_login)))
  = Some (["CHECK-ERROR"; "V-72433"; "V-72435"; "CHECK-ERROR"],
          ["error"; "high"; "high"; "error"],
          ["error"; "failed"; "failed"; "error"]).
Proof. by vm_compute. Qed.

(** ** The V-72435 entry *)

(** The V-72435 changes under the key [_handle_file_edit] reads. *)
Definition V_72435_with_file_key : Remediation :=
  {| r_type := "file_edit";
     r_package := None;
     r_config_file := None;
     r_file := Some sshd_config;
     r_settings := None;
     r_changes := r_changes remediation_V_72435;
     r_service_restart := None;
     r_service := None;
     r_backup_required := Some true |}.

(** The approved V-72435 item on a host that permits root logins. *)
Definition run_V_72435 : Res ExecutionResult * World :=
  _execute_remediation_item sample_strftime
    (plan_item_of finding_V_72435 remediation_V_72435) (fresh_world host_root_login).

(** C4 on the code. The V-72435 entry names its file [config_file],
    and [_handle_file_edit] reads [file]: in every state the apply
    step raises KeyError before it reads or writes anything.  On a
    host whose sshd_config permits root logins the item ends failed
    with that error, no change entry, no write of the edit, and the
    file as it was. *)
Theorem V_72435_edit_raises_key_error :
  (∀ s, apply_remediation remediation_V_72435 s = (Raise (KeyError "file"), s))
  ∧ returned (fst run_V_72435)
    = Some {| er_finding_id := "V-72435";
              er_title := "SSH Root Login";
              er_status := "failed";
              er_changes_made := [];
              er_backup_path :=
                Some "/var/lib/stig-agent/backups/sshd_config.20240101_120000.bak";
              er_error := Some "'file'" |}
  ∧ files (host (snd run_V_72435)) !! sshd_config = Some "PermitRootLogin yes"
  ∧ EvWrite sshd_config ∉ events (host (snd run_V_72435)).
Proof.
  split; [reflexivity |]. vm_compute. repeat split.
  intros Hin. repeat (apply elem_of_cons in Hin as [Hin | Hin]; [discriminate |]).
  by apply not_elem_of_nil in Hin.
Qed.

(** With the key it reads, the step does what the design document
    says: one write and one change entry, then nothing. *)
Lemma V_72435_changes_under_file_key :
  let once := _handle_file_edit V_72435_with_file_key
                (fresh_world host_root_login,
                 initial_result (plan_item_of finding_V_72435 V_72435_with_file_key)) in
  let twice := _handle_file_edit V_72435_with_file_key (snd once) in
  files (host (fst (snd once))) !! sshd_config = Some "PermitRootLogin no"
  ∧ events (host (fst (snd once))) = [EvWrite sshd_config]
  ∧ er_changes_made (snd (snd once)) = ["Updated /etc/ssh/sshd_config"]
  ∧ events (host (fst (snd twice))) = [EvWrite sshd_config]
  ∧ er_changes_made (snd (snd twice)) = ["Updated /etc/ssh/sshd_config"].
Proof. by vm_compute. Qed.

(** ** Strings: splitting, joining and searching *)

Lemma append_cons c (s t : string) : String c s +:+ t = String c (s +:+ t).
Proof. reflexivity. Qed.

Lemma append_nil (t : string) : "" +:+ t = t.
Proof. reflexivity. Qed.

Lemma append_empty_r (s : string) : s +:+ "" = s.
Proof.
  induction s as [| c s IH]; [done |]. by rewrite append_cons, IH.
Qed.

Lemma append_assoc (a b c : string) : (a +:+ b) +:+ c = a +:+ b +:+ c.
Proof.
  induction a as [| x a IH]; [done |]. by rewrite !append_cons, IH.
Qed.

Lemma split_nonempty sep s : PyStr.split sep s ≠ [].
Proof.
  destruct s as [| c s]; simpl; [done |].
  destruct (Ascii.eqb c sep); [done |]. by destruct (PyStr.split sep s).
Qed.

(** No piece of a split holds the separator. *)
Lemma split_pieces_clean sep s :
  Forall (λ piece, PyStr.has_char sep piece = false) (PyStr.split sep s).
Proof.
  induction s as [| c s IH]; simpl; [by repeat constructor |].
  destruct (Ascii.eqb c sep) eqn:Hc; [by constructor |].
  destruct (PyStr.split sep s) as [| piece pieces].
  { constructor; [simpl; by rewrite Hc | constructor]. }
  inversion IH as [| ? ? Hpiece Hpieces]; subst.
  constructor; [| done]. simpl. by rewrite Hc.
Qed.

(** Joining what was split gives the string back. *)
Lemma join_split sep s : PyStr.join (String sep "") (PyStr.split sep s) = s.
Proof.
  induction s as [| c s IH]; [done |]. simpl.
  destruct (Ascii.eqb_spec c sep) as [-> | Hne].
  - pose proof (split_nonempty sep s) as Hne.
    unfold PyStr.join in *. simpl.
    destruct (PyStr.split sep s) as [| piece pieces]; [done |].
    simpl. by rewrite <- IH.
  - unfold PyStr.join in *.
    destruct (PyStr.split sep s) as [| piece pieces]; [by rewrite <- IH |].
    rewrite <- IH. simpl. by destruct pieces.
Qed.

Lemma split_clean sep s : PyStr.has_char sep s = false → PyStr.split sep s = [s].
Proof.
  induction s as [| c s IH]; [done |]. simpl.
  destruct (Ascii.eqb c sep); [done |]. simpl.
  intros Hs. by rewrite (IH Hs).
Qed.

Lemma split_app_sep sep piece rest :
  PyStr.has_char sep piece = false →
  PyStr.split sep (piece +:+ String sep rest) = piece :: PyStr.split sep rest.
Proof.
  induction piece as [| c piece IH].
  - rewrite append_nil. simpl. by rewrite Ascii.eqb_refl.
  - rewrite append_cons. simpl. destruct (Ascii.eqb c sep); [done |]. simpl.
    intros Hp. by rewrite (IH Hp).
Qed.

(** Splitting what was joined gives the pieces back, when no piece
    holds the separator. *)
Lemma split_join sep pieces :
  pieces ≠ [] →
  Forall (λ piece, PyStr.has_char sep piece = false) pieces →
  PyStr.split sep (PyStr.join (String sep "") pieces) = pieces.
Proof.
  induction pieces as [| piece pieces IH]; [done |].
  intros _ Hclean. inversion Hclean as [| ? ? Hpiece Hpieces]; subst.
  unfold PyStr.join in *. destruct pieces as [| piece' pieces].
  - simpl. by apply split_clean.
  - change (String.concat (String sep "") (piece :: piece' :: pieces))
      with (piece +:+ String sep "" +:+ String.concat (String sep "") (piece' :: pieces)).
    rewrite append_cons, append_nil.
    rewrite split_app_sep by done. f_equal. by apply IH.
Qed.

Lemma prefix_empty (s : string) : String.prefix "" s = true.
Proof. by destruct s. Qed.

Lemma prefix_app (m rest : string) : String.prefix m (m +:+ rest) = true.
Proof.
  induction m as [| c m IH]; [apply prefix_empty |]. rewrite append_cons. simpl.
  by destruct (ascii_dec c c).
Qed.

Lemma contains_cons (m : string) c rest :
  PyStr.contains m (String c rest)
  = String.prefix m (String c rest) || PyStr.contains m rest.
Proof. reflexivity. Qed.

Lemma contains_app (m before after : string) :
  PyStr.contains m (before +:+ m +:+ after) = true.
Proof.
  induction before as [| c before IH].
  - rewrite append_nil. destruct (m +:+ after) as [| c rest] eqn:E.
    + destruct m; [done | discriminate].
    + by rewrite contains_cons, <- E, prefix_app.
  - rewrite append_cons, contains_cons, IH. apply orb_true_r.
Qed.

(** The first piece of a split starts the string. *)
Lemma split_first_piece sep s : ∀ piece pieces,
  PyStr.split sep s = piece :: pieces → ∃ rest, s = piece +:+ rest.
Proof.
  induction s as [| c s IH]; simpl; intros piece pieces Hsplit.
  - injection Hsplit as <- _. by exists "".
  - destruct (Ascii.eqb c sep).
    + injection Hsplit as <- _. by exists (String c s).
    + destruct (PyStr.split sep s) as [| piece' pieces'] eqn:E.
      * injection Hsplit as <- _. by destruct (split_nonempty sep s).
      * injection Hsplit as <- _.
        destruct (IH piece' pieces' eq_refl) as [rest ->]. by exists rest.
Qed.

(** A piece of a split occurs in the string. *)
Lemma split_piece_occurs sep s : ∀ piece,
  piece ∈ PyStr.split sep s → ∃ before after, s = before +:+ piece +:+ after.
Proof.
  induction s as [| c s IH]; simpl; intros piece Hin.
  - apply list_elem_of_singleton in Hin as ->. by exists "", "".
  - destruct (Ascii.eqb c sep).
    + apply elem_of_cons in Hin as [-> | Hin].
      * by exists "", (String c s).
      * destruct (IH _ Hin) as (before & after & ->).
        by exists (String c before), after.
    + destruct (PyStr.split sep s) as [| piece' pieces] eqn:E.
      { by destruct (split_nonempty sep s). }
      apply elem_of_cons in Hin as [-> | Hin].
      * destruct (split_first_piece sep s piece' pieces E) as [rest ->].
        by exists "", rest.
      * destruct (IH piece) as (before & after & ->); [by apply list_elem_of_further |].
        by exists (String c before), after.
Qed.

Lemma split_piece_contained sep s piece :
  piece ∈ PyStr.split sep s → PyStr.contains piece s = true.
Proof.
  intros Hin. destruct (split_piece_occurs sep s piece Hin) as (before & after & ->).
  apply contains_app.
Qed.

(** ** The change operations of [_handle_file_edit] *)

Definition regex_change (lit replacement : string) : Change :=
  mkChange (Some (LinePrefix lit)) (Some replacement) None.
Definition append_change (marker : string) : Change :=
  mkChange None None (Some marker).

(** What a regex operation makes of one line. *)
Definition rewrite_line (lit replacement line : string) : string :=
  if String.prefix lit line then replacement else line.

(** The reading the design document gives of a regex operation: only
    the first matching line is rewritten. *)
Fixpoint rewrite_first (lit replacement : string) (lines : list string) : list string :=
  match lines with
  | [] => []
  | line :: rest =>
      if String.prefix lit line then replacement :: rest
      else line :: rewrite_first lit replacement rest
  end.

Definition claimed_sub_first (lit replacement content : string) : string :=
  PyStr.join PyStr.NL (rewrite_first lit replacement (PyStr.split PyStr.nl content)).

Definition two_protocol_lines : string := "Protocol 1" +:+ PyStr.NL +:+ "Protocol 1".

Lemma rewrite_line_clean lit replacement line :
  PyStr.has_char PyStr.nl replacement = false →
  PyStr.has_char PyStr.nl line = false →
  PyStr.has_char PyStr.nl (rewrite_line lit replacement line) = false.
Proof. unfold rewrite_line. by destruct (String.prefix lit line). Qed.

Lemma re_sub_lines lit replacement content :
  PyStr.has_char PyStr.nl replacement = false →
  PyStr.split PyStr.nl (re_sub (LinePrefix lit) replacement content)
  = rewrite_line lit replacement <$> PyStr.split PyStr.nl content.
Proof.
  intros Hclean. unfold re_sub. apply split_join.
  - pose proof (split_nonempty PyStr.nl content).
    by destruct (PyStr.split PyStr.nl content).
  - apply Forall_fmap. eapply Forall_impl; [apply split_pieces_clean |].
    intros line Hline. by apply rewrite_line_clean.
Qed.

Lemma re_sub_no_match lit replacement content :
  Forall (λ line, String.prefix lit line = false) (PyStr.split PyStr.nl content) →
  re_sub (LinePrefix lit) replacement content = content.
Proof.
  intros Hnone. unfold re_sub.
  rewrite <- (join_split PyStr.nl content) at 2. f_equal.
  induction Hnone as [| line lines Hline _ IH]; [done |].
  simpl. by rewrite Hline, IH.
Qed.

(** The patterns of the catalog, as the source writes them. *)
Lemma catalog_patterns :
  pattern_text (LinePrefix "Protocol") = "^Protocol.*"
  ∧ pattern_text (LinePrefix "PermitRootLogin") = "^PermitRootLogin.*".
Proof. split; reflexivity. Qed.

(** C5, amended. A regex operation rewrites every line of the content
    that matches, not only the first, keeps the other lines and the
    number of lines, and changes nothing when no line matches.  An
    append operation adds a newline and the literal exactly when the
    literal occurs nowhere in the content, which implies that no line
    of the content is the literal; after it the literal occurs. *)
Theorem change_operations_rewrite_every_match
    (lit replacement marker content : string) :
  PyStr.has_char PyStr.nl replacement = false →
  (∃ new_content,
     apply_change (regex_change lit replacement) content = Ok new_content
     ∧ PyStr.split PyStr.nl new_content
       = rewrite_line lit replacement <$> PyStr.split PyStr.nl content)
  ∧ (Forall (λ line, String.prefix lit line = false) (PyStr.split PyStr.nl content) →
     apply_change (regex_change lit replacement) content = Ok content)
  ∧ apply_change (append_change marker) content
    = Ok (if PyStr.contains marker content then content
          else content +:+ PyStr.NL +:+ marker)
  ∧ (PyStr.contains marker content = false → marker ∉ PyStr.split PyStr.nl content)
  ∧ (∀ new_content,
       apply_change (append_change marker) content = Ok new_content →
       PyStr.contains marker new_content = true).
Proof.
  intros Hclean. repeat split.
  - exists (re_sub (LinePrefix lit) replacement content).
    split; [reflexivity | by apply re_sub_lines].
  - intros Hnone.
    change (apply_change (regex_change lit replacement) content)
      with (Ok (re_sub (LinePrefix lit) replacement content)).
    by rewrite re_sub_no_match.
  - unfold apply_change. simpl. by destruct (PyStr.contains marker content).
  - intros Habsent Hline. apply split_piece_contained in Hline. congruence.
  - intros new_content. unfold apply_change. simpl.
    destruct (PyStr.contains marker content) eqn:E; intros [= <-]; [done |].
    rewrite <- (append_empty_r marker) at 2.
    rewrite <- append_assoc. apply contains_app.
Qed.

Lemma change_operations_rewrite_every_match_witness :
  (∃ new_content,
     apply_change (regex_change "Protocol" "Protocol 2") two_protocol_lines
     = Ok new_content
     ∧ PyStr.split PyStr.nl new_content
       = rewrite_line "Protocol" "Protocol 2"
         <$> PyStr.split PyStr.nl two_protocol_lines)
  ∧ (Forall (λ line, String.prefix "Protocol" line = false)
            (PyStr.split PyStr.nl two_protocol_lines) →
     apply_change (regex_change "Protocol" "Protocol 2") two_protocol_lines
     = Ok two_protocol_lines)
  ∧ apply_change (append_change "Protocol 2") two_protocol_lines
    = Ok (if PyStr.contains "Protocol 2" two_protocol_lines then two_protocol_lines
          else two_protocol_lines +:+ PyStr.NL +:+ "Protocol 2")
  ∧ (PyStr.contains "Protocol 2" two_protocol_lines = false →
     "Protocol 2" ∉ PyStr.split PyStr.nl two_protocol_lines)
  ∧ (∀ new_content,
       apply_change (append_change "Protocol 2") two_protocol_lines = Ok new_content →
       PyStr.contains "Protocol 2" new_content = true).
Proof.
  apply (change_operations_rewrite_every_match "Protocol" "Protocol 2" "Protocol 2"
           two_protocol_lines).
  vm_compute. reflexivity.
Defined.

(** C5 as stated fails: on two matching lines the regex operation of
    V-72433 rewrites both, where a substitution of the first match
    only would leave the second. *)
Lemma regex_change_rewrites_second_match_too :
  apply_change (regex_change "Protocol" "Protocol 2") two_protocol_lines
  = Ok ("Protocol 2" +:+ PyStr.NL +:+ "Protocol 2")
  ∧ claimed_sub_first "Protocol" "Protocol 2" two_protocol_lines
    = "Protocol 2" +:+ PyStr.NL +:+ "Protocol 1"
  ∧ apply_change (regex_change "Protocol" "Protocol 2") two_protocol_lines
    ≠ Ok (claimed_sub_first "Protocol" "Protocol 2" two_protocol_lines).
Proof. vm_compute. repeat split. discriminate. Qed.

(** ** Running a computation step by step *)

Lemma run_bind {S A B} (m : M S A) (k : A → M S B) s a s' :
  m s = (Ok a, s') → bind m k s = k a s'.
Proof. intros Hm. unfold bind. by rewrite Hm. Qed.

Lemma run_bind_raise {S A B} (m : M S A) (k : A → M S B) s e s' :
  m s = (Raise e, s') → bind m k s = (Raise e, s').
Proof. intros Hm. unfold bind. by rewrite Hm. Qed.

Lemma run_liftW {A R} (m : M World A) (w : World) (r : R) a w' :
  m w = (a, w') → liftW m (w, r) = (a, (w', r)).
Proof. intros Hm. unfold liftW. simpl. by rewrite Hm. Qed.

Lemma open_read_ok path content w :
  files (host w) !! path = Some content →
  open_read path w = (Ok (PyStr.universal_newlines content), w).
Proof. intros Hc. unfold open_read. by rewrite Hc. Qed.

Lemma open_read_missing path w :
  files (host w) !! path = None →
  open_read path w = (Raise (FileNotFoundError path), w).
Proof. intros Hc. unfold open_read. by rewrite Hc. Qed.

Lemma open_write_ok path content w :
  path ∉ unwritable (host w) →
  open_write path content w
  = (Ok tt, set_host (put_file path content (EvWrite path)) w).
Proof. intros Hw. unfold open_write. by rewrite decide_False. Qed.

Lemma open_write_denied path content w :
  path ∈ unwritable (host w) →
  open_write path content w = (Raise (PermissionError path), w).
Proof. intros Hw. unfold open_write. by rewrite decide_True. Qed.

Lemma copy2_ok src dst content w :
  src ≠ dst → files (host w) !! src = Some content → dst ∉ unwritable (host w) →
  copy2 src dst w = (Ok tt, set_host (put_file dst content (EvCopy src dst)) w).
Proof.
  intros Hne Hc Hw. unfold copy2.
  by rewrite decide_False, Hc, decide_False.
Qed.

Lemma apt_get_install_ok package w :
  "apt-get" ∉ no_exec (host w) → apt_stderr (host w) !! package = None →
  apt_get_install package w
  = (Ok (false, ""),
     set_host (add_package package)
       (set_host (log_event (EvSpawn ["apt-get"; "install"; "-y"; package])) w)).
Proof.
  intros Hexec Hapt. unfold apt_get_install, bind, subprocess_exec.
  rewrite decide_False by done. simpl. by rewrite Hapt.
Qed.

Lemma _update_config_file_ok file_path settings content w r :
  files (host w) !! file_path = Some content →
  file_path ∉ unwritable (host w) →
  let st := config_loops file_path settings
              (PyStr.readlines (PyStr.universal_newlines content)) in
  _update_config_file file_path settings (w, r)
  = (Ok tt,
     (set_host (put_file file_path (PyStr.join PyStr.NL (updated_lines st))
                         (EvWrite file_path)) w,
      changes_append (changes_logged st) r)).
Proof.
  intros Hc Hw st. unfold _update_config_file.
  erewrite run_bind; [| by apply run_liftW, open_read_ok].
  erewrite run_bind; [| reflexivity].
  by erewrite run_liftW; [| by apply open_write_ok].
Qed.

(** ** The settings upsert of [_update_config_file] *)

(** The key of a stripped line: what stands before its first [=]. *)
Definition line_key (line : string) : string :=
  PyStr.strip (List.hd "" (PyStr.split "="%char line)).

(** The key of a line of the file, when the settings have it. *)
Definition known_key (settings : list (string * string)) (raw : string) : option string :=
  let line := PyStr.strip raw in
  if PyStr.has_char "="%char line then
    match dict_get (line_key line) settings with
    | Some _ => Some (line_key line)
    | None => None
    end
  else None.

(** What the upsert writes for a line of the file. *)
Definition config_line (settings : list (string * string)) (raw : string) : string :=
  let line := PyStr.strip raw in
  if PyStr.has_char "="%char line then
    match dict_get (line_key line) settings with
    | Some value => line_key line +:+ " = " +:+ value
    | None => line
    end
  else line.

Definition setting_line (kv : string * string) : string :=
  fst kv +:+ " = " +:+ snd kv.

Lemma config_line_step_lines file_path settings st raw :
  updated_lines (config_line_step file_path settings st raw)
  = updated_lines st ++ [config_line settings raw].
Proof.
  unfold config_line_step, config_line, line_key.
  destruct (PyStr.has_char _ _); [| reflexivity].
  by destruct (dict_get _ settings).
Qed.

Lemma config_line_step_found file_path settings st raw key :
  key ∈ settings_found (config_line_step file_path settings st raw)
  ↔ key ∈ settings_found st ∨ known_key settings raw = Some key.
Proof.
  unfold config_line_step, known_key, line_key.
  destruct (PyStr.has_char _ _); [| intuition congruence].
  destruct (dict_get _ settings); cbn [settings_found]; [| intuition congruence].
  rewrite elem_of_union, elem_of_singleton. intuition congruence.
Qed.

Lemma config_line_fold file_path settings lines : ∀ st,
  updated_lines (fold_left (config_line_step file_path settings) lines st)
  = updated_lines st ++ (config_line settings <$> lines)
  ∧ ∀ key, key ∈ settings_found
                   (fold_left (config_line_step file_path settings) lines st)
           ↔ key ∈ settings_found st ∨ key ∈ omap (known_key settings) lines.
Proof.
  induction lines as [| raw lines IH]; intros st; simpl.
  - split; [by rewrite app_nil_r |]. intros key. rewrite elem_of_nil. tauto.
  - destruct (IH (config_line_step file_path settings st raw)) as [Hlines Hfound].
    split.
    + rewrite Hlines, config_line_step_lines. by rewrite <- app_assoc.
    + intros key. rewrite Hfound, config_line_step_found.
      destruct (known_key settings raw) as [key' |].
      * rewrite elem_of_cons. intuition congruence.
      * intuition congruence.
Qed.

Lemma config_missing_fold file_path settings : ∀ st,
  updated_lines (fold_left (config_missing_step file_path) settings st)
  = updated_lines st
    ++ (setting_line <$> filter (λ kv, fst kv ∉ settings_found st) settings).
Proof.
  induction settings as [| [key value] settings IH]; intros st; simpl.
  - by rewrite app_nil_r.
  - rewrite IH. unfold config_missing_step.
    destruct (decide (key ∈ settings_found st)) as [Hin | Hout].
    + by rewrite filter_cons_False by (simpl; tauto).
    + rewrite filter_cons_True by done. simpl. by rewrite <- app_assoc.
Qed.

(** The two loops of the upsert, as a map over the lines of the file
    followed by the settings whose key no line had. *)
Lemma config_loops_lines file_path settings lines :
  updated_lines (config_loops file_path settings lines)
  = (config_line settings <$> lines)
    ++ (setting_line
          <$> filter (λ kv, fst kv ∉ omap (known_key settings) lines) settings).
Proof.
  unfold config_loops.
  destruct (config_line_fold file_path settings lines (mkConfigLoop [] ∅ []))
    as [Hlines Hfound].
  rewrite config_missing_fold, Hlines. simpl. f_equal. f_equal.
  apply list_filter_iff. intros kv. rewrite Hfound. simpl.
  rewrite elem_of_empty. tauto.
Qed.

(** The configuration file of V-72427 with an indented comment and a
    weaker setting. *)
Definition pwquality_conf : string := "/etc/security/pwquality.conf".
Definition host_pwquality : Host :=
  host_of {[ pwquality_conf :=
               "  # tuned by hand" +:+ PyStr.NL +:+ "minlen = 8" +:+ PyStr.NL ]} ∅.

Definition finding_V_72427 : Finding :=
  mkFinding "high" "V-72427" "Password Quality Requirements" "failed"
    "Password quality requirements are not properly configured."
    "Install and configure pam_pwquality module." "password_policy".

Definition run_V_72427 : Res unit * (World * ExecutionResult) :=
  _handle_package_installation remediation_V_72427
    (fresh_world host_pwquality,
     initial_result (plan_item_of finding_V_72427 remediation_V_72427)).

(** Closes [x ∉ l] on a list of distinct literals. *)
Ltac not_in_literals :=
  let Hin := fresh "Hin" in
  intros Hin;
  repeat (apply elem_of_cons in Hin as [Hin | Hin]; [discriminate |]);
  by apply not_elem_of_nil in Hin.

(** C8, amended. After a successful installation the upsert replaces
    the file by: for every line of the file, in order, the line
    stripped of surrounding whitespace, or [key = value] when the
    stripped line has an [=] and its key is in the settings; followed
    by [key = value] for every setting whose key no line had.  The
    lines are joined by newlines, with none after the last.  No line
    keeps its surrounding whitespace. *)
Theorem package_settings_upsert_strips_other_lines
    (remediation : Remediation) (package config_file : string)
    (settings : list (string * string)) (w : World) (r : ExecutionResult)
    (content : string) :
  r_package remediation = Some package →
  r_config_file remediation = Some config_file →
  r_settings remediation = Some settings →
  "apt-get" ∉ no_exec (host w) →
  apt_stderr (host w) !! package = None →
  files (host w) !! config_file = Some content →
  config_file ∉ unwritable (host w) →
  let lines := PyStr.readlines (PyStr.universal_newlines content) in
  ∃ w' r',
    _handle_package_installation remediation (w, r) = (Ok tt, (w', r'))
    ∧ files (host w')
      = <[config_file :=
            PyStr.join PyStr.NL
              ((config_line settings <$> lines)
               ++ (setting_line
                     <$> filter (λ kv, fst kv ∉ omap (known_key settings) lines)
                                settings))]> (files (host w))
    ∧ (∀ raw, known_key settings raw = None →
              config_line settings raw = PyStr.strip raw)
    ∧ (∀ raw key, known_key settings raw = Some key →
         ∃ value, dict_get key settings = Some value
                  ∧ config_line settings raw = key +:+ " = " +:+ value).
Proof.
  intros Hpackage Hfile Hsettings Hexec Hapt Hcontent Hwritable lines.
  unfold _handle_package_installation. rewrite Hpackage, Hfile, Hsettings.
  erewrite run_bind; [| reflexivity].
  erewrite run_bind; [| by apply run_liftW, apt_get_install_ok].
  cbn [fst snd]. erewrite run_bind; [| reflexivity].
  rewrite _update_config_file_ok with (content := content) by done.
  eexists _, _. split; [reflexivity |]. cbn [fst snd host set_host put_file files].
  split; [| split].
  - f_equal. f_equal. apply config_loops_lines.
  - intros raw. unfold known_key, config_line.
    destruct (PyStr.has_char _ _); [| done].
    by destruct (dict_get _ settings).
  - intros raw key. unfold known_key, config_line.
    destruct (PyStr.has_char _ _); [| done].
    destruct (dict_get _ settings) as [value |] eqn:E; [| done].
    intros [= <-]. eauto.
Qed.

Lemma package_settings_upsert_strips_other_lines_witness :
  ∃ w' r',
    run_V_72427 = (Ok tt, (w', r'))
    ∧ files (host w') !! pwquality_conf
      = Some ("# tuned by hand" +:+ PyStr.NL +:+ "minlen = 14" +:+ PyStr.NL
              +:+ "dcredit = -1" +:+ PyStr.NL +:+ "ucredit = -1" +:+ PyStr.NL
              +:+ "lcredit = -1" +:+ PyStr.NL +:+ "ocredit = -1").
Proof.
  destruct (package_settings_upsert_strips_other_lines remediation_V_72427
              "libpam-pwquality" pwquality_conf
              [("minlen", "14"); ("dcredit", "-1"); ("ucredit", "-1");
               ("lcredit", "-1"); ("ocredit", "-1")]
              (fresh_world host_pwquality)
              (initial_result (plan_item_of finding_V_72427 remediation_V_72427))
              ("  # tuned by hand" +:+ PyStr.NL +:+ "minlen = 8" +:+ PyStr.NL))
    as (w' & r' & Hrun & Hfiles & _).
  - reflexivity.
  - reflexivity.
  - reflexivity.
  - apply not_elem_of_empty.
  - reflexivity.
  - by vm_compute.
  - apply not_elem_of_empty.
  - exists w', r'. split; [exact Hrun |].
    rewrite Hfiles, lookup_insert_eq. by vm_compute.
Defined.

(** C8 as stated fails: the indented comment of the file has no key
    in the settings, and the file written back does not have that
    line any more: it has the line without its indentation. *)
Lemma upsert_strips_indentation_of_other_line :
  "  # tuned by hand"
    ∈ PyStr.split PyStr.nl ("  # tuned by hand" +:+ PyStr.NL +:+ "minlen = 8" +:+ PyStr.NL)
  ∧ known_key [("minlen", "14"); ("dcredit", "-1"); ("ucredit", "-1");
               ("lcredit", "-1"); ("ocredit", "-1")] "  # tuned by hand" = None
  ∧ fst run_V_72427 = Ok tt
  ∧ ∃ written,
      (files (host (fst (snd run_V_72427))) !! pwquality_conf = Some written)
      ∧ ("  # tuned by hand" ∉ PyStr.split PyStr.nl written)
      ∧ "# tuned by hand" ∈ PyStr.split PyStr.nl written.
Proof.
  split; [vm_compute; apply list_elem_of_here |].
  split; [by vm_compute |]. split; [by vm_compute |].
  eexists. split; [vm_compute; reflexivity |]. split.
  - vm_compute. not_in_literals.
  - vm_compute. apply list_elem_of_here.
Qed.

(** ** One remediation item: backup, apply, restore *)

(** The file [_create_backup] copies. *)
Definition backup_source (remediation : Remediation) : option string :=
  match r_config_file remediation with
  | Some source => Some source
  | None => r_file remediation
  end.

(** The apply step and the statement that ends the [try] block. *)
Definition apply_then_succeed (remediation : Remediation) : Handler unit :=
  apply_remediation remediation ;;; set_result (with_status "success").

(** What [_execute_remediation_item] makes of the outcome of its
    [try] block: the [except] block, and the [return]. *)
Definition settle (remediation : Remediation)
    (outcome : Res unit * (World * ExecutionResult)) : Res ExecutionResult * World :=
  match outcome with
  | (Ok _, (w, result)) => (Ok result, w)
  | (Raise e, (w, result)) =>
      match er_backup_path result with
      | Some (String c rest) =>
          match _restore_from_backup (String c rest) remediation w with
          | (Ok _, w') => (Ok (with_error (str_exn e) result), w')
          | (Raise e', w') => (Raise e', w')
          end
      | _ => (Ok (with_error (str_exn e) result), w)
      end
  end.

Lemma _execute_remediation_item_settle strftime item w :
  _execute_remediation_item strftime item w
  = settle (i_remediation item)
      (item_try strftime (i_remediation item) (w, initial_result item)).
Proof.
  unfold _execute_remediation_item, settle.
  destruct (item_try _ _ _) as [[[] | e] [w1 r1]]; [done |].
  simpl. by destruct (er_backup_path r1) as [[| c rest] |].
Qed.

Lemma _create_backup_run strftime remediation t w :
  backup_source remediation = Some t →
  _create_backup strftime remediation w
  = match files (host w) !! t with
    | None => (Ok None, w)
    | Some content =>
        let backup_path := backup_path_for t (strftime (ticks w)) in
        if decide (t = backup_path)
        then (Raise (SameFileError t backup_path), advance w)
        else if decide (backup_path ∈ unwritable (host w))
        then (Raise (PermissionError backup_path), advance w)
        else (Ok (Some backup_path),
              set_host (put_file backup_path content (EvCopy t backup_path))
                       (advance w))
    end.
Proof.
  intros Hsource.
  assert (Hfrom :
    (let* present := path_exists t in
     if negb present then ret None
     else let* timestamp := now_strftime strftime in
          copy2 t (backup_path_for t timestamp) ;;;
          ret (Some (backup_path_for t timestamp))) w
    = match files (host w) !! t with
      | None => (Ok None, w)
      | Some content =>
          let backup_path := backup_path_for t (strftime (ticks w)) in
          if decide (t = backup_path)
          then (Raise (SameFileError t backup_path), advance w)
          else if decide (backup_path ∈ unwritable (host w))
          then (Raise (PermissionError backup_path), advance w)
          else (Ok (Some backup_path),
                set_host (put_file backup_path content (EvCopy t backup_path))
                         (advance w))
      end).
  { unfold bind at 1, path_exists.
    destruct (files (host w) !! t) as [content |] eqn:Hc; simpl.
    - unfold bind, now_strftime, copy2, ret. simpl.
      destruct (decide (t = _)); [done |]. rewrite Hc.
      by destruct (decide (_ ∈ _)).
    - reflexivity. }
  unfold _create_backup, backup_source in *.
  destruct (r_config_file remediation) as [source |].
  - injection Hsource as ->. exact Hfrom.
  - rewrite Hsource. exact Hfrom.
Qed.

Lemma _create_backup_none strftime remediation w :
  backup_source remediation = None →
  _create_backup strftime remediation w = (Ok None, w).
Proof.
  unfold _create_backup, backup_source.
  destruct (r_config_file remediation); [discriminate |]. by intros ->.
Qed.

(** The [try] block of an item that asks for a backup of [t]. *)
Lemma item_try_run strftime remediation t w result :
  r_backup_required remediation = Some true →
  backup_source remediation = Some t →
  item_try strftime remediation (w, result)
  = match files (host w) !! t with
    | None => apply_then_succeed remediation (w, with_backup_path None result)
    | Some content =>
        let backup_path := backup_path_for t (strftime (ticks w)) in
        if decide (t = backup_path)
        then (Raise (SameFileError t backup_path), (advance w, result))
        else if decide (backup_path ∈ unwritable (host w))
        then (Raise (PermissionError backup_path), (advance w, result))
        else apply_then_succeed remediation
               (set_host (put_file backup_path content (EvCopy t backup_path))
                         (advance w),
                with_backup_path (Some backup_path) result)
    end.
Proof.
  intros Hrequired Hsource. unfold item_try. rewrite Hrequired.
  unfold bind at 1, bind at 1, liftW. cbn [fst snd].
  rewrite (_create_backup_run strftime remediation t w Hsource).
  destruct (files (host w) !! t) as [content |]; [| reflexivity].
  cbn zeta. destruct (decide (t = _)); [reflexivity |].
  destruct (decide (_ ∈ _)); reflexivity.
Qed.

(** The apply step keeps the identity, the status, the backup path
    and the error of the result; the status becomes success exactly
    when nothing was raised. *)
Lemma apply_then_succeed_run remediation s :
  ∃ outcome s',
    apply_then_succeed remediation s = (outcome, s')
    ∧ evolves (λ p, edit_target remediation = Some p) (fst s) (fst s')
    ∧ er_finding_id (snd s') = er_finding_id (snd s)
    ∧ er_backup_path (snd s') = er_backup_path (snd s)
    ∧ er_error (snd s') = er_error (snd s)
    ∧ er_status (snd s')
      = match outcome with Ok _ => "success" | Raise _ => er_status (snd s) end.
Proof.
  pose proof (apply_remediation_steady remediation s) as Hsteady.
  unfold apply_then_succeed, bind.
  destruct (apply_remediation remediation s) as [[[] | e] [w1 r1]];
    destruct Hsteady; simpl in *.
  - eexists _, _. split; [reflexivity |]. simpl. by split_and!.
  - eexists _, _. split; [reflexivity |]. simpl. by split_and!.
Qed.

Lemma settle_evolves remediation outcome s :
  evolves anywhere (fst s) (snd (settle remediation (outcome, s))).
Proof.
  destruct s as [w result]. unfold settle.
  destruct outcome as [[] | e]; simpl; [reflexivity |].
  destruct (er_backup_path result) as [[| c rest] |]; simpl; try reflexivity.
  pose proof (_restore_from_backup_evolves (String c rest) remediation w) as Hrestore.
  by destruct (_restore_from_backup _ _ _) as [[[] | e'] w'].
Qed.

Lemma settle_raised_with_backup remediation e w result backup_path :
  er_backup_path result = Some backup_path → backup_path ≠ "" →
  settle remediation (Raise e, (w, result))
  = match _restore_from_backup backup_path remediation w with
    | (Ok _, w') => (Ok (with_error (str_exn e) result), w')
    | (Raise e', w') => (Raise e', w')
    end.
Proof.
  intros Hpath Hne. unfold settle. rewrite Hpath. by destruct backup_path.
Qed.

(** The result an item returns is the one its [try] block left, with
    the error added when the block raised. *)
Lemma settle_result remediation outcome s result w' :
  settle remediation (outcome, s) = (Ok result, w') →
  er_finding_id result = er_finding_id (snd s)
  ∧ er_status result = er_status (snd s)
  ∧ er_changes_made result = er_changes_made (snd s)
  ∧ er_backup_path result = er_backup_path (snd s)
  ∧ er_error result
    = match outcome with Ok _ => er_error (snd s) | Raise e => Some (str_exn e) end.
Proof.
  destruct s as [w r]. unfold settle.
  destruct outcome as [[] | e]; simpl.
  - by intros [= <- _].
  - destruct (er_backup_path r) as [[| c rest] |] eqn:E; simpl;
      try (by intros [= <- _]).
    destruct (_restore_from_backup _ _ _) as [[[] | e'] w'']; [| discriminate].
    by intros [= <- _].
Qed.

(** C6. For an item whose remediation asks for a backup of its
    target [t]: when [t] exists and the copy can be made, the copy is
    the first effect of the item, it holds the content of [t] and
    leaves [t] as it is, the apply step starts from that state with
    the path already recorded in the result, and the result returned
    records that path; when the copy cannot be made, the item fails
    with nothing applied and the host untouched; when [t] does not
    exist, no backup is made, the path stays unset, and the apply step
    runs on the host as it is. *)
Theorem backup_precedes_the_apply_step
    (strftime : nat → string) (item : PlanItem) (w : World) (t : string) :
  r_backup_required (i_remediation item) = Some true →
  backup_source (i_remediation item) = Some t →
  let remediation := i_remediation item in
  let backup_path := backup_path_for t (strftime (ticks w)) in
  (∀ content,
     files (host w) !! t = Some content →
     t ≠ backup_path → backup_path ∉ unwritable (host w) →
     let w1 := set_host (put_file backup_path content (EvCopy t backup_path))
                        (advance w) in
     _create_backup strftime remediation w = (Ok (Some backup_path), w1)
     ∧ files (host w1) !! backup_path = Some content
     ∧ files (host w1) !! t = Some content
     ∧ item_try strftime remediation (w, initial_result item)
       = apply_then_succeed remediation
           (w1, with_backup_path (Some backup_path) (initial_result item))
     ∧ (∃ evs, events (host (snd (_execute_remediation_item strftime item w)))
               = events (host w) ++ EvCopy t backup_path :: evs)
     ∧ (∀ result w', _execute_remediation_item strftime item w = (Ok result, w') →
                     er_backup_path result = Some backup_path))
  ∧ (∀ content,
       files (host w) !! t = Some content →
       t = backup_path ∨ backup_path ∈ unwritable (host w) →
       ∃ result,
         _execute_remediation_item strftime item w = (Ok result, advance w)
         ∧ er_status result = "failed" ∧ er_backup_path result = None
         ∧ er_changes_made result = [])
  ∧ (files (host w) !! t = None →
     _create_backup strftime remediation w = (Ok None, w)
     ∧ item_try strftime remediation (w, initial_result item)
       = apply_then_succeed remediation (w, initial_result item)
     ∧ (∀ result w', _execute_remediation_item strftime item w = (Ok result, w') →
                     er_backup_path result = None)).
Proof.
  intros Hrequired Hsource remediation backup_path.
  pose proof (item_try_run strftime remediation t w (initial_result item)
                Hrequired Hsource) as Htry.
  pose proof (_create_backup_run strftime remediation t w Hsource) as Hbackup.
  pose proof (_execute_remediation_item_settle strftime item w) as Hitem.
  fold remediation in Hitem.
  split; [| split].
  - intros content Hcontent Hne Hwritable w1.
    rewrite Hcontent in Htry, Hbackup. cbn zeta in Htry, Hbackup.
    fold backup_path in Htry, Hbackup.
    rewrite !decide_False in Htry by done.
    rewrite !decide_False in Hbackup by done.
    fold w1 in Htry, Hbackup.
    split_and!; try done.
    + simpl. apply lookup_insert_eq.
    + simpl. by rewrite lookup_insert_ne.
    + rewrite Hitem, Htry.
      destruct (apply_then_succeed_run remediation
                  (w1, with_backup_path (Some backup_path) (initial_result item)))
        as (outcome & s' & -> & Hev & _).
      pose proof (settle_evolves remediation outcome s') as Hsettle.
      destruct Hev as [_ _ _ _ _ [evs1 Hevs1] _].
      destruct Hsettle as [_ _ _ _ _ [evs2 Hevs2] _].
      exists (evs1 ++ evs2). rewrite Hevs2, Hevs1. simpl.
      by rewrite <- !app_assoc.
    + intros result w'. rewrite Hitem, Htry.
      destruct (apply_then_succeed_run remediation
                  (w1, with_backup_path (Some backup_path) (initial_result item)))
        as (outcome & s' & -> & _ & _ & Hpath & _).
      intros Hsettle. apply settle_result in Hsettle as (_ & _ & _ & -> & _).
      by rewrite Hpath.
  - intros content Hcontent Hfail.
    rewrite Hcontent in Htry. cbn zeta in Htry. fold backup_path in Htry.
    rewrite Hitem, Htry.
    destruct (decide (t = backup_path)) as [Heq | Hne].
    + eexists. split; [reflexivity |]. done.
    + destruct Hfail as [Heq | Hdenied]; [done |].
      rewrite decide_True by done. eexists. split; [reflexivity |]. done.
  - intros Habsent. rewrite Habsent in Htry, Hbackup.
    split_and!; try done.
    intros result w'. rewrite Hitem, Htry.
    destruct (apply_then_succeed_run remediation
                (w, with_backup_path None (initial_result item)))
      as (outcome & s' & -> & _ & _ & Hpath & _).
    intros Hsettle. apply settle_result in Hsettle as (_ & _ & _ & -> & _).
    by rewrite Hpath.
Qed.

(** A host on which the edit of V-72433 can be backed up and written,
    and [systemctl] cannot be started. *)
Definition host_no_systemctl : Host :=
  mkHost {[ sshd_config := "Protocol 1" ]} ∅ {[ "systemctl" ]} ∅ ∅ [].

Definition item_V_72433 : PlanItem := plan_item_of finding_V_72433 remediation_V_72433.

Lemma backup_precedes_the_apply_step_witness :
  (∃ evs,
     events (host (snd (_execute_remediation_item sample_strftime item_V_72433
                          (fresh_world host_no_systemctl))))
     = [] ++ EvCopy sshd_config
               (backup_path_for sshd_config (sample_strftime 0)) :: evs)
  ∧ ∀ result w',
      _execute_remediation_item sample_strftime item_V_72433
        (fresh_world host_no_systemctl) = (Ok result, w') →
      er_backup_path result = Some (backup_path_for sshd_config (sample_strftime 0)).
Proof.
  destruct (backup_precedes_the_apply_step sample_strftime item_V_72433
              (fresh_world host_no_systemctl) sshd_config eq_refl eq_refl)
    as [Hexists _].
  destruct (Hexists "Protocol 1") as (_ & _ & _ & _ & Hevents & Hpath).
  - by vm_compute.
  - vm_compute. discriminate.
  - apply not_elem_of_empty.
  - split; [exact Hevents | exact Hpath].
Defined.

(** ** Rollback of a failed item *)

Lemma _restore_from_backup_run backup_path remediation t content w :
  restore_target remediation = Some t → t ≠ "" → backup_path ≠ "" →
  files (host w) !! backup_path = Some content → backup_path ≠ t →
  _restore_from_backup backup_path remediation w
  = if decide (t ∈ unwritable (host w))
    then (Raise (PermissionError t), w)
    else (Ok tt, set_host (put_file t content (EvCopy backup_path t)) w).
Proof.
  intros Htarget Ht Hp Hcontent Hne. unfold _restore_from_backup.
  unfold bind, path_exists. rewrite Hcontent.
  rewrite bool_decide_eq_true_2 by eauto.
  destruct backup_path as [| c rest]; [done |]. simpl. rewrite Htarget.
  destruct t as [| d t']; [done |].
  unfold copy2. rewrite decide_False by done. rewrite Hcontent.
  by destruct (decide (_ ∈ _)).
Qed.

(** When the [try] block raises, the result still has the status and
    the identity it started with. *)
Lemma item_try_raised strftime remediation w result e s1 :
  item_try strftime remediation (w, result) = (Raise e, s1) →
  er_status (snd s1) = er_status result
  ∧ er_finding_id (snd s1) = er_finding_id result.
Proof.
  unfold item_try. unfold bind at 1.
  assert (Happly : ∀ s, apply_then_succeed remediation s = (Raise e, s1) →
                        er_status (snd s1) = er_status (snd s)
                        ∧ er_finding_id (snd s1) = er_finding_id (snd s)).
  { intros s Hs.
    destruct (apply_then_succeed_run remediation s)
      as (outcome & s' & Hrun & _ & Hid & _ & _ & Hstatus).
    rewrite Hs in Hrun. by injection Hrun as <- <-. }
  destruct (r_backup_required remediation) as [[|] |].
  - unfold bind at 1, liftW. cbn [fst snd].
    destruct (_create_backup strftime remediation w) as [[backup_path | e0] w0].
    + cbn. intros Hs. by apply Happly in Hs.
    + by intros [= <- <-].
  - cbn. intros Hs. by apply Happly in Hs.
  - cbn. intros Hs. by apply Happly in Hs.
Qed.

(** The files of an entry of the catalog: the one it backs up and
    restores is the one it edits. *)
Definition well_targeted (remediation : Remediation) (t : string) : Prop :=
  r_backup_required remediation = Some true
  ∧ backup_source remediation = Some t
  ∧ restore_target remediation = Some t
  ∧ t ≠ ""
  ∧ ∀ f, edit_target remediation = Some f → f = t.

Lemma catalog_well_targeted rule remediation :
  remediation_map !! rule = Some remediation → ∃ t, well_targeted remediation t.
Proof.
  unfold remediation_map. intros Hrule.
  repeat (apply lookup_insert_Some in Hrule as [[_ <-] | [_ Hrule]];
          [eexists; by repeat split; cbn; try intros f [= <-] |]).
  by rewrite lookup_empty in Hrule.
Qed.

Lemma backup_path_for_nonempty t timestamp : backup_path_for t timestamp ≠ "".
Proof. discriminate. Qed.

(** A failed item that has a backup and returns has its target back
    as it was before the item ran. *)
Lemma restore_gives_back_content strftime item w t e s1 result w' :
  well_targeted (i_remediation item) t →
  item_try strftime (i_remediation item) (w, initial_result item) = (Raise e, s1) →
  _execute_remediation_item strftime item w = (Ok result, w') →
  is_Some (er_backup_path result) →
  files (host w') !! t = files (host w) !! t.
Proof.
  intros (Hrequired & Hsource & Htarget & Ht & Hedit) Htry Hitem Hbackup.
  rewrite _execute_remediation_item_settle, Htry in Hitem.
  pose proof (settle_result _ _ _ _ _ Hitem) as (_ & _ & _ & Hpath & _).
  rewrite Hpath in Hbackup.
  rewrite (item_try_run strftime _ t w _ Hrequired Hsource) in Htry.
  destruct (files (host w) !! t) as [content |] eqn:Hcontent.
  - cbn zeta in Htry.
    destruct (decide (t = _)) as [| Hne].
    { injection Htry as _ <-. by destruct Hbackup. }
    destruct (decide (_ ∈ _)) as [| Hwritable].
    { injection Htry as _ <-. by destruct Hbackup. }
    destruct (apply_then_succeed_run (i_remediation item)
                (set_host (put_file (backup_path_for t (strftime (ticks w))) content
                             (EvCopy t (backup_path_for t (strftime (ticks w)))))
                          (advance w),
                 with_backup_path (Some (backup_path_for t (strftime (ticks w))))
                                  (initial_result item)))
      as (outcome & s' & Hrun & Hev & _ & Hkept & _).
    rewrite Htry in Hrun. injection Hrun as <- <-.
    destruct s1 as [w1 r1]. cbn [fst snd] in *.
    assert (Hcopy : files (host w1) !! backup_path_for t (strftime (ticks w))
                    = Some content).
    { destruct Hev as [_ _ _ _ _ _ Hfiles]. rewrite Hfiles.
      - cbn. apply lookup_insert_eq.
      - intros Hf. apply Hedit in Hf. congruence. }
    rewrite (settle_raised_with_backup _ _ _ _ _ Hkept
               (backup_path_for_nonempty _ _)) in Hitem.
    rewrite (_restore_from_backup_run _ _ t content w1 Htarget Ht
               (backup_path_for_nonempty _ _) Hcopy) in Hitem by congruence.
    destruct (decide (t ∈ unwritable (host w1))); [discriminate |].
    injection Hitem as _ <-. cbn. by rewrite lookup_insert_eq.
  - destruct (apply_then_succeed_run (i_remediation item)
                (w, with_backup_path None (initial_result item)))
      as (outcome & s' & Hrun & _ & _ & Hkept & _).
    rewrite Htry in Hrun. injection Hrun as <- <-.
    rewrite Hkept in Hbackup. by destruct Hbackup.
Qed.

(** The approved V-72433 item on the host without [systemctl]: the
    write succeeds, the restart raises. *)
Definition run_no_systemctl : Res ExecutionResult * World :=
  _execute_remediation_item sample_strftime item_V_72433
    (fresh_world host_no_systemctl).

(** The approved V-72433 item of a stored plan on the read-only file. *)
Definition run_readonly : Res Execution * World :=
  execute_plan sample_strftime sample_isoformat sample_plan_id ["V-72433"]
    (planned_world host_readonly [finding_V_72433]).

(** C7 on the code. When the [try] block of an item of the catalog
    raises, the item either returns a result or raises in its turn.
    If it returns, the result has status failed and the message of the
    exception, and, when it records a backup, the target has the
    content it had before the item ran.  It raises exactly when a
    backup is recorded and the restoring copy itself raises, with the
    exception of that copy: the [except] block of the item does not
    guard the restore.  The loop of [execute_plan] then ends at this
    item, which gets no result, the items after it are not run, and
    the Execution that goes to the store has status failed, the
    message of the copy's exception and the results of the items
    before.  In both cases the results already in the execution
    record stay as they are, in place. *)
Theorem failed_item_is_restored_unless_the_restore_raises
    (strftime : nat → string) (item : PlanItem) (rule : string) (w : World)
    (e : PyExn) (s1 : World * ExecutionResult) :
  remediation_map !! rule = Some (i_remediation item) →
  item_try strftime (i_remediation item) (w, initial_result item) = (Raise e, s1) →
  (∀ result w',
     _execute_remediation_item strftime item w = (Ok result, w') →
     er_status result = "failed" ∧ er_error result = Some (str_exn e)
     ∧ (is_Some (er_backup_path result) →
        ∃ t, backup_source (i_remediation item) = Some t
             ∧ files (host w') !! t = files (host w) !! t))
  ∧ (∀ e' w',
       _execute_remediation_item strftime item w = (Raise e', w')
       ↔ ∃ backup_path,
           er_backup_path (snd s1) = Some backup_path
           ∧ _restore_from_backup backup_path (i_remediation item) (fst s1)
             = (Raise e', w'))
  ∧ (∀ e' w',
       _execute_remediation_item strftime item w = (Raise e', w') →
       ∀ isoformat plan_id approved row before rest w0 ex,
         remediation_plans (db w0) !! plan_id = Some row →
         pr_items row = before ++ item :: rest →
         i_finding_id item ∈ approved →
         execute_items strftime before approved
           (advance w0, mkExecution plan_id (isoformat (ticks w0)) [] "in_progress" None)
         = (Ok tt, (w, ex)) →
         let failed :=
           mkExecution plan_id (isoformat (ticks w0)) (e_items ex) "failed"
             (Some (str_exn e')) in
         execute_plan strftime isoformat plan_id approved w0
         = (store_remediation_execution strftime isoformat failed ;;;
            update_remediation_status plan_id "failed" ;;;
            ret failed) w')
  ∧ (∀ items approved w0 ex,
       ∃ later,
         e_items (snd (snd (execute_items strftime items approved (w0, ex))))
         = e_items ex ++ later).
Proof.
  intros Hrule Htry. split_and!.
  - intros result w' Hitem.
    pose proof Hitem as Hsettle.
    rewrite _execute_remediation_item_settle, Htry in Hsettle.
    apply settle_result in Hsettle as (_ & Hstatus & _ & _ & Herror).
    destruct (item_try_raised _ _ _ _ _ _ Htry) as [Hkept _].
    split_and!.
    + by rewrite Hstatus, Hkept.
    + exact Herror.
    + intros Hbackup.
      destruct (catalog_well_targeted _ _ Hrule) as [t Htargeted].
      exists t. split; [apply Htargeted |].
      by eapply restore_gives_back_content.
  - intros e' w'. rewrite _execute_remediation_item_settle, Htry.
    destruct s1 as [w1 r1]. unfold settle. cbn [fst snd]. split.
    + destruct (er_backup_path r1) as [[| c rest] |]; try discriminate.
      destruct (_restore_from_backup _ _ _) as [[[] | e''] w''] eqn:Hrestore;
        [discriminate |].
      intros [= <- <-]. eauto.
    + intros (backup_path & -> & Hrestore).
      destruct backup_path as [| c rest]; [discriminate |].
      by rewrite Hrestore.
  - intros e' w' Hitem isoformat plan_id approved row before rest w0 ex
      Hrow Hitems Hin Hbefore.
    cbv zeta. rewrite (execute_plan_unfold _ _ _ _ _ _ Hrow), Hitems.
    rewrite execute_items_app, Hbefore.
    rewrite (execute_items_raised _ _ _ _ _ _ _ _ Hin Hitem).
    pose proof (execute_items_outcome strftime approved before (advance w0)
                  (mkExecution plan_id (isoformat (ticks w0)) [] "in_progress" None))
      as (outcome & w1 & results & Hloop & _).
    rewrite Hbefore in Hloop. injection Hloop as _ _ ->. reflexivity.
  - intros items approved w0 ex.
    destruct (execute_items_outcome strftime approved items w0 ex)
      as (outcome & w' & results & -> & _).
    by exists results.
Qed.

Lemma failed_item_is_restored_unless_the_restore_raises_witness :
  ∃ result w',
    run_no_systemctl = (Ok result, w')
    ∧ er_status result = "failed"
    ∧ er_error result = Some (str_exn (FileNotFoundError "systemctl"))
    ∧ (is_Some (er_backup_path result) →
       ∃ t, backup_source remediation_V_72433 = Some t
            ∧ files (host w') !! t = files (host_no_systemctl) !! t).
Proof.
  destruct run_no_systemctl as [[result | e'] w'] eqn:Hrun.
  - exists result, w'. split; [reflexivity |].
    refine (proj1 (failed_item_is_restored_unless_the_restore_raises sample_strftime
                     item_V_72433 "V-72433" (fresh_world host_no_systemctl)
                     (FileNotFoundError "systemctl")
                     (snd (item_try sample_strftime remediation_V_72433
                             (fresh_world host_no_systemctl,
                              initial_result item_V_72433))) _ _) result w' Hrun).
    + reflexivity.
    + by vm_compute.
  - exfalso. vm_compute in Hrun. discriminate.
Defined.

(** The rollback of the design document, on the sample host: the
    edit is written, the restart of the service raises, and the file
    is back as it was. *)
Lemma rollback_after_failed_restart :
  (λ r, (er_status r, er_changes_made r, er_error r)) <$> returned (fst run_no_systemctl)
  = Some ("failed", ["Updated /etc/ssh/sshd_config"],
          Some "[Errno 2] No such file or directory: 'systemctl'")
  ∧ events (host (snd run_no_systemctl))
    = [ EvCopy sshd_config (backup_path_for sshd_config (sample_strftime 0));
        EvWrite sshd_config;
        EvCopy (backup_path_for sshd_config (sample_strftime 0)) sshd_config ]
  ∧ files (host (snd run_no_systemctl)) !! sshd_config = Some "Protocol 1".
Proof. by vm_compute. Qed.

(** The failing input of C7: on a file that cannot be written the
    edit raises, the restoring copy raises too, the exception leaves
    the item, and the execution record has no result for the item. *)
Lemma restore_failure_leaves_no_result :
  fst (_execute_remediation_item sample_strftime item_V_72433
         (fresh_world host_readonly))
  = Raise (PermissionError sshd_config)
  ∧ (λ e, (e_items e, e_status e, e_error e)) <$> returned (fst run_readonly)
    = Some ([], "failed", Some "[Errno 13] Permission denied: '/etc/ssh/sshd_config'").
Proof. by vm_compute. Qed.

(** ** A second run of an edit *)

Lemma has_char_app c (a b : string) :
  PyStr.has_char c (a +:+ b) = PyStr.has_char c a || PyStr.has_char c b.
Proof.
  induction a as [| x a IH]; [done |].
  rewrite append_cons. simpl. rewrite IH. by rewrite orb_assoc.
Qed.

Lemma split_pieces_without c sep s :
  PyStr.has_char c s = false →
  Forall (λ piece, PyStr.has_char c piece = false) (PyStr.split sep s).
Proof.
  induction s as [| x s IH]; simpl; [by repeat constructor |].
  intros Hs. apply orb_false_elim in Hs as [Hx Hs]. specialize (IH Hs).
  destruct (Ascii.eqb x sep); [by constructor |].
  destruct (PyStr.split sep s) as [| piece pieces].
  - constructor; [simpl; by rewrite Hx | constructor].
  - inversion IH; subst. constructor; [simpl; by rewrite Hx | done].
Qed.

Lemma join_without c sep pieces :
  Ascii.eqb sep c = false →
  Forall (λ piece, PyStr.has_char c piece = false) pieces →
  PyStr.has_char c (PyStr.join (String sep "") pieces) = false.
Proof.
  intros Hsep Hall. unfold PyStr.join.
  induction Hall as [| piece pieces Hpiece _ IH]; [done |].
  destruct pieces as [| piece' pieces]; [done |].
  change (String.concat (String sep "") (piece :: piece' :: pieces))
    with (piece +:+ String sep "" +:+ String.concat (String sep "") (piece' :: pieces)).
  rewrite !has_char_app, Hpiece, IH. simpl. by rewrite Hsep.
Qed.

Lemma universal_newlines_without_cr s :
  PyStr.has_char PyStr.cr (PyStr.universal_newlines s) = false.
Proof.
  assert (Hboth : ∀ s,
            PyStr.has_char PyStr.cr (PyStr.universal_newlines s) = false
            ∧ ∀ x, PyStr.has_char PyStr.cr
                     (PyStr.universal_newlines (String x s)) = false).
  { clear s. induction s as [| y s [IH1 IH2]].
    - split; [done |]. intros x. cbn [PyStr.universal_newlines].
      destruct (Ascii.eqb x PyStr.cr) eqn:E; [done |].
      cbn [PyStr.has_char]. by rewrite E.
    - split; [apply IH2 |]. intros x.
      change (PyStr.universal_newlines (String x (String y s)))
        with (if Ascii.eqb x PyStr.cr
              then if Ascii.eqb y PyStr.nl
                   then String PyStr.nl (PyStr.universal_newlines s)
                   else String PyStr.nl (PyStr.universal_newlines (String y s))
              else String x (PyStr.universal_newlines (String y s))).
      destruct (Ascii.eqb x PyStr.cr) eqn:Ex.
      + destruct (Ascii.eqb y PyStr.nl); cbn [PyStr.has_char];
          rewrite ?IH1, ?IH2; reflexivity.
      + cbn [PyStr.has_char]. by rewrite Ex, IH2. }
  apply Hboth.
Qed.

Lemma universal_newlines_id s :
  PyStr.has_char PyStr.cr s = false → PyStr.universal_newlines s = s.
Proof.
  induction s as [| x s IH]; [done |]. simpl.
  intros Hs. apply orb_false_elim in Hs as [Hx Hs].
  rewrite Hx. by rewrite IH.
Qed.

Lemma split_snoc sep s piece :
  PyStr.has_char sep piece = false →
  PyStr.split sep (s +:+ String sep piece) = PyStr.split sep s ++ [piece].
Proof.
  intros Hpiece. induction s as [| x s IH].
  - rewrite append_nil. simpl. rewrite Ascii.eqb_refl. by rewrite split_clean.
  - rewrite append_cons. simpl. rewrite IH.
    destruct (Ascii.eqb x sep); [done |].
    pose proof (split_nonempty sep s).
    by destruct (PyStr.split sep s).
Qed.

(** The two changes of a catalog entry: rewrite the lines that start
    with [lit], then append the replacement if it occurs nowhere. *)
Definition catalog_changes (lit replacement : string) : list Change :=
  [regex_change lit replacement; append_change replacement].

(** What the pair of changes makes of a content. *)
Definition catalog_changed (lit replacement content : string) : string :=
  let rewritten := re_sub (LinePrefix lit) replacement content in
  if PyStr.contains replacement rewritten then rewritten
  else rewritten +:+ PyStr.NL +:+ replacement.

Lemma catalog_changes_run lit replacement content :
  apply_changes (catalog_changes lit replacement) content
  = Ok (catalog_changed lit replacement content).
Proof.
  unfold catalog_changes, apply_changes, apply_change, regex_change, append_change,
    catalog_changed.
  cbn [c_regex c_replacement c_append_if_not_found].
  by destruct (PyStr.contains replacement _).
Qed.

Lemma rewrite_line_idem lit replacement line :
  String.prefix lit replacement = true →
  rewrite_line lit replacement (rewrite_line lit replacement line)
  = rewrite_line lit replacement line.
Proof.
  intros Hrepl. unfold rewrite_line.
  destruct (String.prefix lit line) eqn:E; [by rewrite Hrepl | by rewrite E].
Qed.

Lemma re_sub_fixed lit replacement content :
  rewrite_line lit replacement <$> PyStr.split PyStr.nl content
  = PyStr.split PyStr.nl content →
  re_sub (LinePrefix lit) replacement content = content.
Proof.
  intros Hfixed. unfold re_sub. fold (rewrite_line lit replacement).
  change (List.map (rewrite_line lit replacement) (PyStr.split PyStr.nl content))
    with (rewrite_line lit replacement <$> PyStr.split PyStr.nl content).
  rewrite Hfixed. apply join_split.
Qed.

(** Applied to its own result, the pair of changes changes nothing. *)
Lemma catalog_changed_idempotent lit replacement content :
  String.prefix lit replacement = true →
  PyStr.has_char PyStr.nl replacement = false →
  catalog_changed lit replacement (catalog_changed lit replacement content)
  = catalog_changed lit replacement content.
Proof.
  intros Hprefix Hclean.
  set (rewritten := re_sub (LinePrefix lit) replacement content).
  assert (Hrun : catalog_changed lit replacement content
                 = if PyStr.contains replacement rewritten then rewritten
                   else rewritten +:+ PyStr.NL +:+ replacement) by reflexivity.
  assert (Hlines : rewrite_line lit replacement <$> PyStr.split PyStr.nl rewritten
                   = PyStr.split PyStr.nl rewritten).
  { unfold rewritten. rewrite re_sub_lines by done.
    rewrite <- list_fmap_compose. apply list_fmap_ext.
    intros i line _. by apply rewrite_line_idem. }
  rewrite Hrun. clear Hrun.
  destruct (PyStr.contains replacement rewritten) eqn:Hfound;
    unfold catalog_changed; cbv zeta.
  - rewrite (re_sub_fixed _ _ _ Hlines). by rewrite Hfound.
  - assert (Hfixed : re_sub (LinePrefix lit) replacement
                       (rewritten +:+ PyStr.NL +:+ replacement)
                     = rewritten +:+ PyStr.NL +:+ replacement).
    { apply re_sub_fixed.
      change (rewritten +:+ PyStr.NL +:+ replacement)
        with (rewritten +:+ String PyStr.nl replacement).
      rewrite split_snoc by done. rewrite fmap_app, Hlines. simpl.
      unfold rewrite_line at 1. by rewrite Hprefix. }
    rewrite Hfixed.
    assert (Hnow : PyStr.contains replacement
                     (rewritten +:+ PyStr.NL +:+ replacement) = true).
    { rewrite <- (append_empty_r replacement) at 2.
      rewrite <- append_assoc. apply contains_app. }
    by rewrite Hnow.
Qed.

Lemma catalog_changes_idempotent lit replacement content once :
  String.prefix lit replacement = true →
  PyStr.has_char PyStr.nl replacement = false →
  apply_changes (catalog_changes lit replacement) content = Ok once →
  apply_changes (catalog_changes lit replacement) once = Ok once.
Proof.
  intros Hprefix Hclean. rewrite !catalog_changes_run. intros Honce.
  assert (once = catalog_changed lit replacement content) as -> by congruence.
  by rewrite catalog_changed_idempotent.
Qed.

Lemma catalog_changed_without_cr lit replacement content :
  PyStr.has_char PyStr.cr content = false →
  PyStr.has_char PyStr.cr replacement = false →
  PyStr.has_char PyStr.cr (catalog_changed lit replacement content) = false.
Proof.
  intros Hcontent Hrepl.
  assert (Hsub : PyStr.has_char PyStr.cr (re_sub (LinePrefix lit) replacement content)
                 = false).
  { unfold re_sub. apply join_without; [done |].
    apply Forall_fmap.
    eapply Forall_impl; [by apply split_pieces_without |].
    intros line Hline. simpl. by destruct (String.prefix lit line). }
  unfold catalog_changed. cbv zeta.
  destruct (PyStr.contains replacement _); [done |].
  by rewrite !has_char_app, Hsub, Hrepl.
Qed.

(** [_handle_file_edit] on an entry with the two changes, no restart
    and its path under the key it reads. *)
Lemma _handle_file_edit_run remediation path lit replacement w r :
  r_file remediation = Some path →
  r_changes remediation = Some (catalog_changes lit replacement) →
  r_service_restart remediation = None →
  _handle_file_edit remediation (w, r)
  = match files (host w) !! path with
    | None => (Raise (FileNotFoundError path), (w, r))
    | Some raw =>
        let content := PyStr.universal_newlines raw in
        let new_content := catalog_changed lit replacement content in
        if String.eqb new_content content then (Ok tt, (w, r))
        else if decide (path ∈ unwritable (host w))
        then (Raise (PermissionError path), (w, r))
        else (Ok tt,
              (set_host (put_file path new_content (EvWrite path)) w,
               changes_append ["Updated " +:+ path] r))
    end.
Proof.
  intros Hfile Hchanges Hrestart. unfold _handle_file_edit.
  rewrite Hfile, Hchanges, Hrestart.
  erewrite run_bind; [| reflexivity].
  destruct (files (host w) !! path) as [raw |] eqn:Hraw.
  - erewrite run_bind; [| by apply run_liftW, open_read_ok].
    erewrite run_bind; [| reflexivity].
    erewrite run_bind; [| unfold of_res; by rewrite catalog_changes_run].
    cbv zeta. destruct (String.eqb _ _); [reflexivity |].
    destruct (decide (path ∈ unwritable (host w))) as [Hdenied | Hwritable].
    + erewrite run_bind_raise; [reflexivity |].
      erewrite run_bind_raise; [| by apply run_liftW, open_write_denied].
      reflexivity.
    + erewrite run_bind; cycle 1.
      { erewrite run_bind; [| by apply run_liftW, open_write_ok]. reflexivity. }
      reflexivity.
  - erewrite run_bind_raise; [reflexivity |].
    by apply run_liftW, open_read_missing.
Qed.

(** Run again on the state it left, the edit reads the file, finds
    nothing to change, writes nothing and records nothing. *)
Lemma file_edit_second_run_is_silent remediation path lit replacement w r w1 r1 :
  r_file remediation = Some path →
  r_changes remediation = Some (catalog_changes lit replacement) →
  r_service_restart remediation = None →
  String.prefix lit replacement = true →
  PyStr.has_char PyStr.nl replacement = false →
  PyStr.has_char PyStr.cr replacement = false →
  _handle_file_edit remediation (w, r) = (Ok tt, (w1, r1)) →
  _handle_file_edit remediation (w1, r1) = (Ok tt, (w1, r1)).
Proof.
  intros Hfile Hchanges Hrestart Hprefix Hnl Hcr.
  rewrite !(_handle_file_edit_run _ _ _ _ _ _ Hfile Hchanges Hrestart).
  destruct (files (host w) !! path) as [raw |] eqn:Hraw; [| discriminate].
  cbv zeta.
  destruct (String.eqb _ _) eqn:Hsame.
  { intros [= <- <-]. by rewrite Hraw, Hsame. }
  destruct (decide (path ∈ unwritable (host w))); [discriminate |].
  intros [= <- <-]. cbn [host set_host put_file files].
  rewrite lookup_insert_eq.
  rewrite (universal_newlines_id (catalog_changed _ _ _)).
  - rewrite catalog_changed_idempotent by done. by rewrite String.eqb_refl.
  - apply catalog_changed_without_cr; [apply universal_newlines_without_cr | done].
Qed.

(** The V-72435 changes under the key [_handle_file_edit] reads are
    of that kind. *)
Lemma V_72435_second_run_is_silent w r w1 r1 :
  _handle_file_edit V_72435_with_file_key (w, r) = (Ok tt, (w1, r1)) →
  _handle_file_edit V_72435_with_file_key (w1, r1) = (Ok tt, (w1, r1)).
Proof.
  by apply (file_edit_second_run_is_silent V_72435_with_file_key sshd_config
              "PermitRootLogin" "PermitRootLogin no").
Qed.

(** * Further properties of the engine *)

(** What every turn of a loop keeps holds at its end. *)
Lemma fold_left_invariant {A B} (P : A → Prop) (f : A → B → A) (l : list B) : ∀ a,
  (∀ a b, P a → P (f a b)) → P a → P (fold_left f l a).
Proof.
  induction l as [| b l IH]; intros a Hstep Ha; [exact Ha |].
  simpl. apply IH; [exact Hstep |]. by apply Hstep.
Qed.

(** ** What one item writes itself *)

(** The paths one item may write: the backup copy it takes at the
    reading of the clock, the file its handler edits and the file it
    restores. *)
Definition item_touch (strftime : nat → string) (remediation : Remediation) (w : World)
    (p : string) : Prop :=
  (∃ t, backup_source remediation = Some t
        ∧ p = backup_path_for t (strftime (ticks w)))
  ∨ edit_target remediation = Some p
  ∨ restore_target remediation = Some p.

(** An effect of the log that is no write of the agent outside
    [touch]: an [open(path, 'w')] or a [shutil.copy2] onto a path of
    [touch], or the start of a program, whatever that program then
    does by itself. *)
Definition own_write (touch : string → Prop) (ev : Event) : Prop :=
  match ev with
  | EvCopy _ dst => touch dst
  | EvWrite path => touch path
  | EvSpawn _ => True
  end.

(** [writes_within touch w w']: from [w] to [w'] the store is the
    same and the effects added to the log are writes within [touch]
    and starts of programs. *)
Definition writes_within (touch : string → Prop) : relation World :=
  λ w w', db w' = db w
          ∧ ∃ more, events (host w') = events (host w) ++ more
                    ∧ Forall (own_write touch) more.

#[global] Instance writes_within_refl touch : Reflexive (writes_within touch).
Proof. intros w. split; [done |]. exists []. by rewrite app_nil_r. Qed.

#[global] Instance writes_within_trans touch : Transitive (writes_within touch).
Proof.
  intros w1 w2 w3 [Hdb1 (m1 & H1 & Hall1)] [Hdb2 (m2 & H2 & Hall2)].
  split; [congruence |]. exists (m1 ++ m2). split.
  - by rewrite H2, H1, app_assoc.
  - by apply Forall_app.
Qed.

Lemma writes_within_weaken (touch touch' : string → Prop) w w' :
  (∀ p, touch p → touch' p) → writes_within touch w w' → writes_within touch' w w'.
Proof.
  intros Hsub [Hdb (more & Hmore & Hall)]. split; [done |]. exists more.
  split; [done |]. eapply Forall_impl; [exact Hall |].
  intros [src dst | path | argv]; cbn; auto.
Qed.

Lemma put_file_within (touch : string → Prop) path content ev w :
  own_write touch ev → writes_within touch w (set_host (put_file path content ev) w).
Proof. intros Hev. split; [done |]. exists [ev]. split; [done | by constructor]. Qed.

Lemma log_event_within (touch : string → Prop) ev w :
  own_write touch ev → writes_within touch w (set_host (log_event ev) w).
Proof. intros Hev. split; [done |]. exists [ev]. split; [done | by constructor]. Qed.

Lemma advance_within touch w : writes_within touch w (advance w).
Proof. split; [done |]. exists []. by rewrite app_nil_r. Qed.

Lemma path_exists_within touch path : pres (writes_within touch) (path_exists path).
Proof. intros w. simpl. reflexivity. Qed.

Lemma open_read_within touch path : pres (writes_within touch) (open_read path).
Proof. intros w. unfold open_read. destruct (_ !! _); simpl; reflexivity. Qed.

Lemma open_write_within (touch : string → Prop) path content :
  touch path → pres (writes_within touch) (open_write path content).
Proof.
  intros Ht w. unfold open_write. case_decide; simpl; [reflexivity |].
  by apply put_file_within.
Qed.

Lemma copy2_within (touch : string → Prop) src dst :
  touch dst → pres (writes_within touch) (copy2 src dst).
Proof.
  intros Ht w. unfold copy2. case_decide; simpl; [reflexivity |].
  destruct (_ !! _); simpl; [| reflexivity].
  case_decide; simpl; [reflexivity |]. by apply put_file_within.
Qed.

Lemma subprocess_exec_within touch program args :
  pres (writes_within touch) (subprocess_exec program args).
Proof.
  intros w. unfold subprocess_exec. case_decide; simpl; [reflexivity |].
  by apply log_event_within.
Qed.

Lemma apt_get_install_within touch package :
  pres (writes_within touch) (apt_get_install package).
Proof.
  unfold apt_get_install. apply pres_bind; [apply _ | apply subprocess_exec_within |].
  intros _ w. destruct (_ !! _); simpl; [reflexivity |].
  split; [done |]. exists []. by rewrite app_nil_r.
Qed.

Ltac within_prim :=
  first [ apply open_read_within | apply path_exists_within
        | apply subprocess_exec_within | apply apt_get_install_within
        | apply open_write_within | apply copy2_within ].

(** Walks a handler along its binds and branches. *)
Ltac within_auto :=
  lazy beta iota;
  lazymatch goal with
  | |- pres _ (bind (ret _) _) => apply pres_bind_ret; within_auto
  | |- pres _ (bind (raise _) _) => apply pres_bind_raise; apply _
  | |- pres _ (bind (require _ ?o) _) =>
      let E := fresh "E" in destruct o eqn:E; unfold require at 1; within_auto
  | |- pres _ (bind _ _) =>
      apply pres_bind; [apply _ | within_auto | intros ?; within_auto]
  | |- pres _ (ret _) => apply pres_ret; apply _
  | |- pres _ (raise _) => apply pres_raise; apply _
  | |- pres _ (of_res _) => apply pres_of_res; apply _
  | |- pres _ (require _ _) => apply pres_require; apply _
  | |- pres _ (set_result _) => apply pres_set_result; apply _
  | |- pres _ (record_change _) => apply pres_set_result; apply _
  | |- pres _ (liftW _) => apply pres_liftW; within_prim
  | |- pres _ (if ?b then _ else _) => destruct b; within_auto
  | |- pres _ (match ?x with _ => _ end) =>
      let E := fresh "E" in destruct x eqn:E; within_auto
  | _ => idtac
  end.

Section HandlerWrites.
Variable touch : string → Prop.

Lemma _update_config_file_within file_path settings :
  touch file_path →
  pres (on_world (writes_within touch)) (_update_config_file file_path settings).
Proof. intros Ht. unfold _update_config_file. within_auto. exact Ht. Qed.

Lemma _handle_package_installation_within remediation :
  (∀ p, r_config_file remediation = Some p → touch p) →
  pres (on_world (writes_within touch)) (_handle_package_installation remediation).
Proof.
  intros Ht. unfold _handle_package_installation. within_auto.
  apply _update_config_file_within. by apply Ht.
Qed.

Lemma _handle_file_edit_within remediation :
  (∀ p, r_file remediation = Some p → touch p) →
  pres (on_world (writes_within touch)) (_handle_file_edit remediation).
Proof.
  intros Ht. unfold _handle_file_edit, _restart_service. within_auto.
  by apply Ht.
Qed.

Lemma _handle_service_config_within remediation :
  (∀ p, r_file remediation = Some p → touch p) →
  pres (on_world (writes_within touch)) (_handle_service_config remediation).
Proof.
  intros Ht. unfold _handle_service_config, _enable_service. within_auto.
  by apply _handle_file_edit_within.
Qed.
End HandlerWrites.

Lemma apply_remediation_within remediation :
  pres (on_world (writes_within (λ p, edit_target remediation = Some p)))
       (apply_remediation remediation).
Proof.
  unfold apply_remediation, edit_target.
  destruct (String.eqb _ "package_install").
  { by apply _handle_package_installation_within. }
  destruct (String.eqb _ "file_edit").
  { by apply _handle_file_edit_within. }
  destruct (String.eqb _ "service_config").
  { by apply _handle_service_config_within. }
  apply pres_ret. apply _.
Qed.

Lemma _create_backup_within strftime remediation w :
  writes_within (λ p, ∃ t, backup_source remediation = Some t
                           ∧ p = backup_path_for t (strftime (ticks w)))
    w (snd (_create_backup strftime remediation w)).
Proof.
  destruct (backup_source remediation) as [t |] eqn:Hsource.
  - rewrite (_create_backup_run strftime remediation t w Hsource).
    destruct (files (host w) !! t); [| reflexivity]. cbv zeta.
    destruct (decide (t = _)); [apply advance_within |].
    destruct (decide (_ ∈ _)); [apply advance_within |]. simpl.
    etransitivity; [apply advance_within |].
    apply put_file_within. cbn. eauto.
  - rewrite (_create_backup_none strftime remediation w Hsource). reflexivity.
Qed.

Lemma _restore_from_backup_within backup_path remediation :
  pres (writes_within (λ p, restore_target remediation = Some p))
       (_restore_from_backup backup_path remediation).
Proof.
  unfold _restore_from_backup.
  apply pres_bind; [apply _ | apply path_exists_within | intros present].
  destruct (_ || _); [apply pres_ret; apply _ |].
  destruct (restore_target remediation) as [[| c rest] |] eqn:Htarget;
    try (apply pres_ret; apply _).
  by apply copy2_within.
Qed.

(** X1. One item leaves the store as it is, and every write it
    performs itself, by [open(path, 'w')] or by [shutil.copy2], goes
    to the backup copy it takes, to the file its handler edits or to
    the file it restores.  Its other effects are the programs it
    starts; what those do to the host by themselves is not said
    here. *)
Theorem item_writes_only_backup_and_target
    (strftime : nat → string) (item : PlanItem) (w : World) :
  db (snd (_execute_remediation_item strftime item w)) = db w
  ∧ ∃ more,
      events (host (snd (_execute_remediation_item strftime item w)))
      = events (host w) ++ more
      ∧ Forall (own_write (item_touch strftime (i_remediation item) w)) more.
Proof.
  change (writes_within (item_touch strftime (i_remediation item) w) w
            (snd (_execute_remediation_item strftime item w))).
  rewrite _execute_remediation_item_settle.
  set (remediation := i_remediation item).
  assert (Htry : writes_within (item_touch strftime remediation w) w
                   (fst (snd (item_try strftime remediation
                                (w, initial_result item))))).
  { unfold item_try. unfold bind at 1.
    assert (Happly : ∀ s, writes_within (item_touch strftime remediation w) w (fst s) →
              writes_within (item_touch strftime remediation w) w
                (fst (snd ((apply_remediation remediation ;;;
                            set_result (with_status "success")) s)))).
    { intros s Hs. etransitivity; [exact Hs |].
      pose proof (apply_remediation_within remediation s) as Hw.
      unfold on_world in Hw.
      unfold bind. destruct (apply_remediation remediation s) as [[[] | e] s1];
        simpl in *; (eapply writes_within_weaken; [| exact Hw]);
        intros p Hp; right; by left. }
    destruct (r_backup_required remediation) as [[|] |];
      try (apply Happly; simpl; reflexivity).
    unfold bind at 1, liftW. cbn [fst snd].
    pose proof (_create_backup_within strftime remediation w) as Hbackup.
    destruct (_create_backup strftime remediation w) as [[backup_path | e] w0];
      simpl in Hbackup.
    - apply Happly. simpl. eapply writes_within_weaken; [| exact Hbackup].
      intros p Hp. by left.
    - simpl. eapply writes_within_weaken; [| exact Hbackup]. intros p Hp. by left. }
  destruct (item_try strftime remediation (w, initial_result item))
    as [[[] | e] [w1 r1]]; simpl in *; [exact Htry |].
  destruct (er_backup_path r1) as [[| c rest] |]; simpl; try exact Htry.
  pose proof (_restore_from_backup_within (String c rest) remediation w1) as Hrestore.
  destruct (_restore_from_backup _ _ _) as [[[] | e'] w2]; simpl in *;
    (etransitivity; [exact Htry |]); (eapply writes_within_weaken; [| exact Hrestore]);
    intros p Hp; right; by right.
Qed.

(** ** A second run of an edit, and the scan after it *)

(** The end of [_handle_file_edit]: the restart the entry asks for. *)
Definition restart_step (remediation : Remediation) : Handler unit :=
  match r_service_restart remediation with
  | Some service =>
      liftW (_restart_service service) ;;;
      record_change ("Restarted service " +:+ service)
  | None => ret tt
  end.

Lemma _handle_file_edit_steps remediation path lit replacement w r :
  r_file remediation = Some path →
  r_changes remediation = Some (catalog_changes lit replacement) →
  _handle_file_edit remediation (w, r)
  = match files (host w) !! path with
    | None => (Raise (FileNotFoundError path), (w, r))
    | Some raw =>
        let content := PyStr.universal_newlines raw in
        let new_content := catalog_changed lit replacement content in
        if String.eqb new_content content then restart_step remediation (w, r)
        else if decide (path ∈ unwritable (host w))
        then (Raise (PermissionError path), (w, r))
        else restart_step remediation
               (set_host (put_file path new_content (EvWrite path)) w,
                changes_append ["Updated " +:+ path] r)
    end.
Proof.
  intros Hfile Hchanges. unfold _handle_file_edit.
  rewrite Hfile, Hchanges.
  erewrite run_bind; [| reflexivity].
  destruct (files (host w) !! path) as [raw |] eqn:Hraw.
  - erewrite run_bind; [| by apply run_liftW, open_read_ok].
    erewrite run_bind; [| reflexivity].
    erewrite run_bind; [| unfold of_res; by rewrite catalog_changes_run].
    cbv zeta. destruct (String.eqb _ _).
    + erewrite run_bind; [| reflexivity]. reflexivity.
    + destruct (decide (path ∈ unwritable (host w))) as [Hdenied | Hwritable].
      * erewrite run_bind_raise; [reflexivity |].
        erewrite run_bind_raise; [| by apply run_liftW, open_write_denied].
        reflexivity.
      * erewrite run_bind; cycle 1.
        { erewrite run_bind; [| by apply run_liftW, open_write_ok]. reflexivity. }
        reflexivity.
  - erewrite run_bind_raise; [reflexivity |].
    by apply run_liftW, open_read_missing.
Qed.

(** What the restart does: it starts [systemctl], or raises for want
    of it. *)
Lemma restart_step_run remediation w r :
  restart_step remediation (w, r)
  = match r_service_restart remediation with
    | Some service =>
        if decide ("systemctl" ∈ no_exec (host w))
        then (Raise (FileNotFoundError "systemctl"), (w, r))
        else (Ok tt,
              (set_host (log_event (EvSpawn ["systemctl"; "restart"; service])) w,
               changes_append ["Restarted service " +:+ service] r))
    | None => (Ok tt, (w, r))
    end.
Proof.
  unfold restart_step. destruct (r_service_restart remediation) as [service |];
    [| reflexivity].
  unfold bind, liftW, _restart_service, subprocess_exec. cbn [fst snd].
  by destruct (decide (_ ∈ _)).
Qed.

Lemma catalog_changed_contains lit replacement content :
  PyStr.contains replacement (catalog_changed lit replacement content) = true.
Proof.
  unfold catalog_changed. cbv zeta.
  set (rewritten := re_sub (LinePrefix lit) replacement content).
  destruct (PyStr.contains replacement rewritten) eqn:Hfound; [exact Hfound |].
  rewrite <- (append_empty_r replacement) at 2.
  rewrite <- append_assoc. apply contains_app.
Qed.

(** The state of the file after an edit that returned: a text the
    changes leave as it is, in which the replacement occurs. *)
Definition edit_settled (lit replacement : string) (raw : string) : Prop :=
  catalog_changed lit replacement (PyStr.universal_newlines raw)
  = PyStr.universal_newlines raw
  ∧ PyStr.contains replacement (PyStr.universal_newlines raw) = true.

Lemma restart_step_files remediation s :
  files (host (fst (snd (restart_step remediation s)))) = files (host (fst s)).
Proof.
  destruct s as [w r]. rewrite restart_step_run.
  destruct (r_service_restart remediation); [| reflexivity].
  by destruct (decide (_ ∈ _)).
Qed.

Lemma _handle_file_edit_settled remediation path lit replacement w r w1 r1 :
  r_file remediation = Some path →
  r_changes remediation = Some (catalog_changes lit replacement) →
  String.prefix lit replacement = true →
  PyStr.has_char PyStr.nl replacement = false →
  PyStr.has_char PyStr.cr replacement = false →
  _handle_file_edit remediation (w, r) = (Ok tt, (w1, r1)) →
  ∃ raw, files (host w1) !! path = Some raw ∧ edit_settled lit replacement raw.
Proof.
  intros Hfile Hchanges Hprefix Hnl Hcr.
  rewrite (_handle_file_edit_steps _ _ _ _ _ _ Hfile Hchanges).
  destruct (files (host w) !! path) as [raw |] eqn:Hraw; [| discriminate].
  cbv zeta. destruct (String.eqb _ _) eqn:Hsame.
  - intros Hrun. exists raw. split.
    + pose proof (restart_step_files remediation (w, r)) as Hfiles.
      rewrite Hrun in Hfiles. simpl in Hfiles. by rewrite Hfiles.
    + apply String.eqb_eq in Hsame. split; [exact Hsame |].
      rewrite <- Hsame. apply catalog_changed_contains.
  - destruct (decide (path ∈ unwritable (host w))); [discriminate |].
    intros Hrun.
    exists (catalog_changed lit replacement (PyStr.universal_newlines raw)). split.
    + pose proof (restart_step_files remediation
                    (set_host (put_file path
                       (catalog_changed lit replacement (PyStr.universal_newlines raw))
                       (EvWrite path)) w,
                     changes_append ["Updated " +:+ path] r)) as Hfiles.
      rewrite Hrun in Hfiles. cbn [fst snd] in Hfiles. rewrite Hfiles.
      cbn. apply lookup_insert_eq.
    + unfold edit_settled.
      rewrite (universal_newlines_id (catalog_changed _ _ _)).
      * split; [by apply catalog_changed_idempotent |].
        apply catalog_changed_contains.
      * apply catalog_changed_without_cr; [apply universal_newlines_without_cr | done].
Qed.

(** X2. An edit made of the catalog's pair of changes (rewrite the
    lines that start with a word, append the replacement if it occurs
    nowhere), run again on the state its first run left, returns
    again, writes no file and records no update: the only effect and
    the only change entry are those of the restart the entry asks
    for. *)
Theorem file_edit_rerun_writes_nothing
    (remediation : Remediation) (path lit replacement : string)
    (w : World) (r : ExecutionResult) (w1 : World) (r1 : ExecutionResult) :
  r_file remediation = Some path →
  r_changes remediation = Some (catalog_changes lit replacement) →
  String.prefix lit replacement = true →
  PyStr.has_char PyStr.nl replacement = false →
  PyStr.has_char PyStr.cr replacement = false →
  _handle_file_edit remediation (w, r) = (Ok tt, (w1, r1)) →
  ∃ w2 r2,
    _handle_file_edit remediation (w1, r1) = (Ok tt, (w2, r2))
    ∧ files (host w2) = files (host w1)
    ∧ events (host w2)
      = events (host w1)
        ++ match r_service_restart remediation with
           | Some service => [EvSpawn ["systemctl"; "restart"; service]]
           | None => []
           end
    ∧ er_changes_made r2
      = er_changes_made r1
        ++ match r_service_restart remediation with
           | Some service => ["Restarted service " +:+ service]
           | None => []
           end.
Proof.
  intros Hfile Hchanges Hprefix Hnl Hcr Hrun.
  destruct (_handle_file_edit_settled _ _ _ _ _ _ _ _ Hfile Hchanges Hprefix Hnl Hcr Hrun)
    as (raw & Hraw & Hfixed & _).
  assert (Hexec : ∀ service, r_service_restart remediation = Some service →
                             "systemctl" ∉ no_exec (host w1)).
  { intros service Hservice.
    rewrite (_handle_file_edit_steps _ _ _ _ _ _ Hfile Hchanges) in Hrun.
    destruct (files (host w) !! path); [| discriminate]. cbv zeta in Hrun.
    destruct (String.eqb _ _).
    - rewrite restart_step_run, Hservice in Hrun.
      destruct (decide (_ ∈ no_exec (host w))); [discriminate |].
      by injection Hrun as <- _.
    - destruct (decide (path ∈ _)); [discriminate |].
      rewrite restart_step_run, Hservice in Hrun.
      destruct (decide (_ ∈ no_exec _)); [discriminate |].
      by injection Hrun as <- _. }
  rewrite (_handle_file_edit_steps _ _ _ _ _ _ Hfile Hchanges), Hraw. cbv zeta.
  rewrite Hfixed, String.eqb_refl, restart_step_run.
  destruct (r_service_restart remediation) as [service |].
  - rewrite decide_False by eauto. eexists _, _. split; [reflexivity |]. done.
  - eexists _, _. split; [reflexivity |]. by rewrite !app_nil_r.
Qed.

Definition edit_once : Res unit * (World * ExecutionResult) :=
  _handle_file_edit remediation_V_72433
    (fresh_world host_root_login, initial_result item_V_72433).

Lemma file_edit_rerun_writes_nothing_witness :
  ∃ w2 r2,
    _handle_file_edit remediation_V_72433 (fst (snd edit_once), snd (snd edit_once))
    = (Ok tt, (w2, r2))
    ∧ files (host w2) = files (host (fst (snd edit_once)))
    ∧ events (host w2)
      = events (host (fst (snd edit_once))) ++ [EvSpawn ["systemctl"; "restart"; "ssh"]]
    ∧ er_changes_made r2
      = er_changes_made (snd (snd edit_once)) ++ ["Restarted service ssh"].
Proof.
  apply (file_edit_rerun_writes_nothing remediation_V_72433 sshd_config
           "Protocol" "Protocol 2" (fresh_world host_root_login)
           (initial_result item_V_72433)); reflexivity.
Defined.

Lemma apply_ran_before_success {A} (m : Handler A) remediation s0 w1 r1 :
  (m ;;; apply_remediation remediation ;;; set_result (with_status "success")) s0
  = (Ok tt, (w1, r1)) →
  ∃ s r', apply_remediation remediation s = (Ok tt, (w1, r')).
Proof.
  unfold bind at 1. destruct (m s0) as [[a | e0] s]; [| discriminate].
  unfold bind.
  destruct (apply_remediation remediation s) as [[[] | e1] [w2 r2]] eqn:Happly;
    [| discriminate].
  simpl. intros [= <- _]. eauto.
Qed.

(** An item that ends with status success has run its apply step to
    the end, and the world it returns is the one that step left. *)
Lemma item_success_applied strftime item w result w' :
  _execute_remediation_item strftime item w = (Ok result, w') →
  er_status result = "success" →
  ∃ s r', apply_remediation (i_remediation item) s = (Ok tt, (w', r')).
Proof.
  rewrite _execute_remediation_item_settle.
  destruct (item_try strftime (i_remediation item) (w, initial_result item))
    as [[[] | e] [w1 r1]] eqn:Htry.
  - intros [= <- <-] _. unfold item_try in Htry.
    by apply apply_ran_before_success in Htry.
  - intros Hsettle Hstatus.
    apply settle_result in Hsettle as (_ & Hkept & _).
    apply item_try_raised in Htry as [Hfailed _].
    simpl in *. congruence.
Qed.

Lemma apply_remediation_V_72433 :
  apply_remediation remediation_V_72433 = _handle_file_edit remediation_V_72433.
Proof. reflexivity. Qed.

(** X3. After an item for the V-72433 entry has ended with status
    success, a scan of the security configuration returns and reports
    no V-72433 finding. *)
Theorem successful_protocol_item_clears_its_finding
    (strftime : nat → string) (item : PlanItem) (w : World)
    (result : ExecutionResult) (w' : World) :
  i_remediation item = remediation_V_72433 →
  _execute_remediation_item strftime item w = (Ok result, w') →
  er_status result = "success" →
  ∃ findings,
    SecurityConfigScanner.scan w' = (Ok findings, w')
    ∧ Forall (λ f, f_rule_id f ≠ "V-72433") findings.
Proof.
  intros Hrem Hitem Hstatus.
  destruct (item_success_applied _ _ _ _ _ Hitem Hstatus) as ([ws rs] & r' & Happly).
  rewrite Hrem, apply_remediation_V_72433 in Happly.
  destruct (_handle_file_edit_settled remediation_V_72433 sshd_config
              "Protocol" "Protocol 2" ws rs w' r'
              eq_refl eq_refl eq_refl eq_refl eq_refl Happly)
    as (raw & Hraw & _ & Hfound).
  unfold SecurityConfigScanner.scan, SecurityConfigScanner._check_password_policy,
    SecurityConfigScanner._check_ssh_config,
    SecurityConfigScanner._check_system_security.
  unfold bind at 1. rewrite check_outcome.
  unfold bind at 1. rewrite check_outcome.
  unfold bind at 1. rewrite check_outcome.
  eexists. split; [reflexivity |].
  change "/etc/ssh/sshd_config" with sshd_config. rewrite Hraw, Hfound.
  rewrite !Forall_app. repeat split.
  - constructor.
  - destruct (files (host w') !! "/etc/pam.d/common-password");
      [destruct (PyStr.contains "pam_pwquality.so" _) |];
      repeat constructor; simpl; done.
  - constructor.
  - destruct (PyStr.contains "PermitRootLogin yes" _);
      repeat constructor; simpl; done.
  - destruct (files (host w') !! "/etc/security/limits.conf");
      [destruct (PyStr.contains "*     hard    core    0" _) |];
      repeat constructor; simpl; done.
Qed.

Definition run_protocol_item : Res ExecutionResult * World :=
  _execute_remediation_item sample_strftime item_V_72433 (fresh_world host_root_login).

Lemma successful_protocol_item_clears_its_finding_witness :
  ∃ result w' findings,
    run_protocol_item = (Ok result, w')
    ∧ er_status result = "success"
    ∧ SecurityConfigScanner.scan w' = (Ok findings, w')
    ∧ Forall (λ f, f_rule_id f ≠ "V-72433") findings.
Proof.
  assert (Hstatus : er_status <$> returned (fst run_protocol_item) = Some "success")
    by (by vm_compute).
  destruct run_protocol_item as [[result | e] w'] eqn:Hrun; [| discriminate].
  injection Hstatus as Hstatus.
  destruct (successful_protocol_item_clears_its_finding sample_strftime item_V_72433
              (fresh_world host_root_login) result w' eq_refl Hrun Hstatus)
    as (findings & Hscan & Hclear).
  by exists result, w', findings.
Defined.

(** ** A failed installation *)

Lemma apply_remediation_package_install remediation :
  r_type remediation = "package_install" →
  apply_remediation remediation = _handle_package_installation remediation.
Proof. unfold apply_remediation. by intros ->. Qed.

(** When [apt-get] cannot be started or exits non-zero, the handler
    raises having touched neither a file, nor the package set, nor the
    result. *)
Lemma _handle_package_installation_failed remediation package w r :
  r_package remediation = Some package →
  "apt-get" ∈ no_exec (host w) ∨ is_Some (apt_stderr (host w) !! package) →
  ∃ e w1,
    _handle_package_installation remediation (w, r) = (Raise e, (w1, r))
    ∧ files (host w1) = files (host w)
    ∧ packages (host w1) = packages (host w)
    ∧ unwritable (host w1) = unwritable (host w)
    ∧ (∀ err, "apt-get" ∉ no_exec (host w) →
              apt_stderr (host w) !! package = Some err →
              e = Exception ("Failed to install package " +:+ package +:+ ": " +:+ err)).
Proof.
  intros Hpackage Hfails. unfold _handle_package_installation. rewrite Hpackage.
  erewrite run_bind; [| reflexivity].
  unfold bind, liftW, apt_get_install, bind, subprocess_exec. cbn [fst snd].
  destruct (decide ("apt-get" ∈ no_exec (host w))) as [Hmissing | Hexec].
  - eexists _, _. split; [reflexivity |]. split_and!; try done.
  - destruct Hfails as [? | [err Herr]]; [done |]. cbn. rewrite Herr. cbn.
    eexists _, _. split; [reflexivity |]. split_and!; try done.
    intros err' _ [= <-]. reflexivity.
Qed.

(** X4. When [apt-get] cannot be started or exits non-zero, an item
    of type package_install that backs up, edits and restores one file
    ends failed, if it returns, with an error, no change entry, that
    file as it was and no package added; the error is the message of
    the failed installation, with what [apt-get] printed on stderr,
    unless the backup copy was what failed. *)
Theorem failed_install_changes_nothing
    (strftime : nat → string) (item : PlanItem) (t package : string) (w : World)
    (result : ExecutionResult) (w' : World) :
  r_type (i_remediation item) = "package_install" →
  r_package (i_remediation item) = Some package →
  well_targeted (i_remediation item) t →
  "apt-get" ∈ no_exec (host w) ∨ is_Some (apt_stderr (host w) !! package) →
  _execute_remediation_item strftime item w = (Ok result, w') →
  er_status result = "failed"
  ∧ er_changes_made result = []
  ∧ is_Some (er_error result)
  ∧ files (host w') !! t = files (host w) !! t
  ∧ packages (host w') = packages (host w)
  ∧ (∀ err, "apt-get" ∉ no_exec (host w) →
            apt_stderr (host w) !! package = Some err →
            files (host w) !! t = None ∨ is_Some (er_backup_path result) →
            er_error result
            = Some ("Failed to install package " +:+ package +:+ ": " +:+ err)).
Proof.
  intros Htype Hpackage (Hrequired & Hsource & Htarget & Ht & Hedit) Hfails.
  rewrite _execute_remediation_item_settle.
  rewrite (item_try_run strftime _ t w _ Hrequired Hsource).
  assert (Happly : ∀ w0 r0,
            no_exec (host w0) = no_exec (host w) →
            apt_stderr (host w0) = apt_stderr (host w) →
            ∃ e w1,
              apply_then_succeed (i_remediation item) (w0, r0) = (Raise e, (w1, r0))
              ∧ files (host w1) = files (host w0)
              ∧ packages (host w1) = packages (host w0)
              ∧ unwritable (host w1) = unwritable (host w0)
              ∧ (∀ err, "apt-get" ∉ no_exec (host w) →
                        apt_stderr (host w) !! package = Some err →
                        str_exn e
                        = "Failed to install package " +:+ package +:+ ": " +:+ err)).
  { intros w0 r0 Hexec Hapt.
    destruct (_handle_package_installation_failed _ _ w0 r0 Hpackage)
      as (e & w1 & Hrun & Hfiles & Hpackages & Hperm & Hmessage).
    { by rewrite Hexec, Hapt. }
    exists e, w1. unfold apply_then_succeed.
    rewrite (apply_remediation_package_install _ Htype).
    erewrite run_bind_raise; [| exact Hrun]. split_and!; try done.
    intros err Hstarts Herr. rewrite (Hmessage err); [done | | ]; congruence. }
  destruct (files (host w) !! t) as [content |] eqn:Hcontent.
  - cbv zeta. destruct (decide (t = _)) as [| Hne].
    { intros [= <- <-]. split_and!; try done; try (by eexists).
      intros err _ _ [[=] | [? [=]]]. }
    destruct (decide (_ ∈ _)) as [| Hwritable].
    { intros [= <- <-]. split_and!; try done; try (by eexists).
      intros err _ _ [[=] | [? [=]]]. }
    destruct (Happly (set_host (put_file (backup_path_for t (strftime (ticks w)))
                                  content
                                  (EvCopy t (backup_path_for t (strftime (ticks w)))))
                               (advance w))
                     (with_backup_path (Some (backup_path_for t (strftime (ticks w))))
                                       (initial_result item)) eq_refl eq_refl)
      as (e & w1 & -> & Hfiles & Hpackages & Hperm & Hmessage).
    rewrite (settle_raised_with_backup _ _ _ _ (backup_path_for t (strftime (ticks w))))
      by done.
    rewrite (_restore_from_backup_run _ _ t content w1 Htarget Ht
               (backup_path_for_nonempty _ _)); cycle 1.
    { rewrite Hfiles. cbn. apply lookup_insert_eq. }
    { congruence. }
    destruct (decide (t ∈ unwritable (host w1))); [discriminate |].
    intros [= <- <-]. split_and!; try done; try (by eexists).
    + cbn. by rewrite lookup_insert_eq.
    + intros err Hstarts Herr _. cbn. f_equal. by apply Hmessage.
  - destruct (Happly w (with_backup_path None (initial_result item)) eq_refl eq_refl)
      as (e & w1 & -> & Hfiles & Hpackages & Hperm & Hmessage).
    cbn. intros [= <- <-]. split_and!; try done; try (by eexists).
    + by rewrite Hfiles.
    + intros err Hstarts Herr _. cbn. f_equal. by apply Hmessage.
Qed.

(** A host on which [apt-get] cannot find the package. *)
Definition host_apt_broken : Host :=
  mkHost {[ pwquality_conf := "minlen = 8" ]} ∅ ∅
         {[ "libpam-pwquality" := "E: Unable to locate package libpam-pwquality" ]}
         ∅ [].

Definition run_apt_broken : Res ExecutionResult * World :=
  _execute_remediation_item sample_strftime
    (plan_item_of finding_V_72427 remediation_V_72427) (fresh_world host_apt_broken).

Lemma failed_install_changes_nothing_witness :
  ∃ result w',
    run_apt_broken = (Ok result, w')
    ∧ er_status result = "failed"
    ∧ er_changes_made result = []
    ∧ is_Some (er_error result)
    ∧ files (host w') !! pwquality_conf = Some "minlen = 8"
    ∧ packages (host w') = ∅.
Proof.
  assert (Hok : returned (fst run_apt_broken) ≠ None) by (by vm_compute).
  destruct run_apt_broken as [[result | e] w'] eqn:Hrun; [| done].
  exists result, w'. split; [reflexivity |].
  destruct (failed_install_changes_nothing sample_strftime
              (plan_item_of finding_V_72427 remediation_V_72427)
              pwquality_conf "libpam-pwquality" (fresh_world host_apt_broken)
              result w') as (Hstatus & Hchanges & Herror & Hfile & Hpackages & _).
  - reflexivity.
  - reflexivity.
  - by repeat split; cbn; try intros f [= <-].
  - right. vm_compute. by eexists.
  - exact Hrun.
  - by split_and!.
Defined.

(** ** The settings upsert sets every key *)

Lemma dict_get_elem key value settings :
  dict_get key settings = Some value → (key, value) ∈ settings.
Proof.
  induction settings as [| [k v] settings IH]; simpl; [discriminate |].
  destruct (String.eqb_spec k key) as [-> | Hne].
  - intros [= ->]. apply list_elem_of_here.
  - intros Hrest. apply list_elem_of_further. by apply IH.
Qed.

Lemma known_key_line settings raw key value :
  known_key settings raw = Some key → dict_get key settings = Some value →
  config_line settings raw = key +:+ " = " +:+ value.
Proof.
  unfold known_key, config_line.
  destruct (PyStr.has_char _ _); [| discriminate].
  destruct (dict_get (line_key (PyStr.strip raw)) settings) as [v |] eqn:Hv;
    [| discriminate].
  intros [= <-] Hvalue. congruence.
Qed.

(** X5. On a file that exists and can be written, the settings upsert
    returns and writes lines, joined by newlines, among which every
    setting stands as [key = value]; no line of the file is dropped,
    and at most one line per setting is added. *)
Theorem settings_upsert_sets_every_key
    (file_path : string) (settings : list (string * string)) (content : string)
    (w : World) (r : ExecutionResult) :
  files (host w) !! file_path = Some content →
  file_path ∉ unwritable (host w) →
  ∃ lines w' r',
    _update_config_file file_path settings (w, r) = (Ok tt, (w', r'))
    ∧ files (host w') !! file_path = Some (PyStr.join PyStr.NL lines)
    ∧ (∀ key value, dict_get key settings = Some value →
                    (key +:+ " = " +:+ value) ∈ lines)
    ∧ (length (PyStr.readlines (PyStr.universal_newlines content)) ≤ length lines
       ≤ length (PyStr.readlines (PyStr.universal_newlines content)) + length settings)%nat.
Proof.
  intros Hcontent Hwritable.
  set (read := PyStr.readlines (PyStr.universal_newlines content)).
  exists (updated_lines (config_loops file_path settings read)).
  eexists _, _. split; [by apply _update_config_file_ok |].
  split; [cbn; apply lookup_insert_eq |].
  rewrite config_loops_lines. split.
  - intros key value Hvalue. apply elem_of_app.
    destruct (decide (key ∈ omap (known_key settings) read)) as [Hfound | Hmissing].
    + left. apply list_elem_of_omap in Hfound as (raw & Hraw & Hkey).
      apply list_elem_of_fmap. exists raw. split; [| exact Hraw].
      symmetry. by apply known_key_line.
    + right. apply list_elem_of_fmap. exists (key, value). split; [reflexivity |].
      apply list_elem_of_filter. split; [exact Hmissing |]. by apply dict_get_elem.
  - rewrite length_app, !length_fmap.
    pose proof (length_filter (λ kv, fst kv ∉ omap (known_key settings) read) settings).
    lia.
Qed.

Lemma settings_upsert_sets_every_key_witness :
  ∃ lines w' r',
    _update_config_file pwquality_conf [("minlen", "14"); ("dcredit", "-1")]
      (fresh_world host_pwquality,
       initial_result (plan_item_of finding_V_72427 remediation_V_72427))
    = (Ok tt, (w', r'))
    ∧ files (host w') !! pwquality_conf = Some (PyStr.join PyStr.NL lines)
    ∧ (∀ key value, dict_get key [("minlen", "14"); ("dcredit", "-1")] = Some value →
                    (key +:+ " = " +:+ value) ∈ lines)
    ∧ (length (PyStr.readlines (PyStr.universal_newlines
                 ("  # tuned by hand" +:+ PyStr.NL +:+ "minlen = 8" +:+ PyStr.NL)))
       ≤ length lines
       ≤ length (PyStr.readlines (PyStr.universal_newlines
                   ("  # tuned by hand" +:+ PyStr.NL +:+ "minlen = 8" +:+ PyStr.NL)))
         + length [("minlen", "14"); ("dcredit", "-1")])%nat.
Proof.
  apply (settings_upsert_sets_every_key pwquality_conf
           [("minlen", "14"); ("dcredit", "-1")]
           ("  # tuned by hand" +:+ PyStr.NL +:+ "minlen = 8" +:+ PyStr.NL)
           (fresh_world host_pwquality)).
  - reflexivity.
  - apply not_elem_of_empty.
Defined.

(** ** A change that lacks its replacement *)

(** A change with ["regex"] and without ["replacement"]. *)
Definition lacks_replacement (change : Change) : Prop :=
  is_Some (c_regex change) ∧ c_replacement change = None.

Lemma apply_change_raises change content e :
  apply_change change content = Raise e →
  e = KeyError "replacement" ∧ lacks_replacement change.
Proof.
  unfold apply_change, lacks_replacement.
  destruct (c_regex change) as [pattern |], (c_replacement change) as [replacement |],
    (c_append_if_not_found change) as [marker |]; simpl;
    try destruct (PyStr.contains _ _); try discriminate;
    intros [= <-]; eauto.
Qed.

Lemma apply_change_lacking change content :
  lacks_replacement change → apply_change change content = Raise (KeyError "replacement").
Proof.
  unfold apply_change. intros [[pattern ->] ->]. reflexivity.
Qed.

Lemma apply_changes_lacking changes : ∀ content,
  Exists lacks_replacement changes →
  apply_changes changes content = Raise (KeyError "replacement").
Proof.
  induction changes as [| change changes IH]; intros content Hsome.
  - by apply Exists_nil in Hsome.
  - simpl. destruct (apply_change change content) as [new_content | e] eqn:Hchange.
    + apply IH. apply Exists_cons in Hsome as [Hhere | Hlater]; [| exact Hlater].
      by rewrite apply_change_lacking in Hchange.
    + by apply apply_change_raises in Hchange as [-> _].
Qed.

Lemma apply_changes_complete changes : ∀ content,
  Forall (λ change, ¬ lacks_replacement change) changes →
  ∃ new_content, apply_changes changes content = Ok new_content.
Proof.
  induction changes as [| change changes IH]; intros content Hall; [by eexists |].
  apply Forall_cons in Hall as [Hhere Hlater]. simpl.
  destruct (apply_change change content) as [new_content | e] eqn:Hchange.
  - by apply IH.
  - by apply apply_change_raises in Hchange as [_ Hlacks].
Qed.

(** X6. If any change of the list has a ["regex"] and no
    ["replacement"], the edit raises KeyError for that key and the
    file, the effect log and the result are as they were, whatever the
    changes before it would have rewritten. *)
Theorem change_without_replacement_leaves_file_untouched
    (remediation : Remediation) (path raw : string) (changes : list Change)
    (w : World) (r : ExecutionResult) :
  r_file remediation = Some path →
  files (host w) !! path = Some raw →
  r_changes remediation = Some changes →
  Exists lacks_replacement changes →
  _handle_file_edit remediation (w, r) = (Raise (KeyError "replacement"), (w, r)).
Proof.
  intros Hfile Hraw Hchanges Hlacks. unfold _handle_file_edit.
  rewrite Hfile, Hchanges.
  erewrite run_bind; [| reflexivity].
  erewrite run_bind; [| by apply run_liftW, open_read_ok].
  erewrite run_bind; [| reflexivity].
  erewrite run_bind_raise; [reflexivity |].
  unfold of_res. by rewrite apply_changes_lacking.
Qed.

Definition change_without_replacement : Remediation :=
  {| r_type := "file_edit";
     r_package := None;
     r_config_file := None;
     r_file := Some sshd_config;
     r_settings := None;
     r_changes := Some [ regex_change "PermitRootLogin" "PermitRootLogin no";
                         mkChange (Some (LinePrefix "Protocol")) None None ];
     r_service_restart := None;
     r_service := None;
     r_backup_required := Some true |}.

Lemma change_without_replacement_leaves_file_untouched_witness :
  _handle_file_edit change_without_replacement
    (fresh_world host_root_login, initial_result item_V_72433)
  = (Raise (KeyError "replacement"),
     (fresh_world host_root_login, initial_result item_V_72433)).
Proof.
  apply (change_without_replacement_leaves_file_untouched change_without_replacement
           sshd_config "PermitRootLogin yes"
           [ regex_change "PermitRootLogin" "PermitRootLogin no";
             mkChange (Some (LinePrefix "Protocol")) None None ]).
  - reflexivity.
  - reflexivity.
  - reflexivity.
  - apply Exists_cons_tl, Exists_cons_hd. split; [by eexists | reflexivity].
Defined.

(** ** An entry of unknown type *)

Lemma apply_remediation_unknown remediation :
  r_type remediation ∉ ["package_install"; "file_edit"; "service_config"] →
  apply_remediation remediation = ret tt.
Proof.
  intros Hunknown. unfold apply_remediation.
  destruct (String.eqb_spec (r_type remediation) "package_install") as [Heq |].
  { exfalso. apply Hunknown. rewrite Heq. apply list_elem_of_here. }
  destruct (String.eqb_spec (r_type remediation) "file_edit") as [Heq |].
  { exfalso. apply Hunknown. rewrite Heq. apply list_elem_of_further, list_elem_of_here. }
  destruct (String.eqb_spec (r_type remediation) "service_config") as [Heq |].
  { exfalso. apply Hunknown. rewrite Heq.
    do 2 apply list_elem_of_further. apply list_elem_of_here. }
  reflexivity.
Qed.

(** X7. An item whose entry has a type that is none of
    package_install, file_edit and service_config always returns a
    result without change entries; its status is success, although
    nothing was applied, unless the backup copy raised; without a
    backup the world is left as it was. *)
Theorem unknown_type_is_reported_as_success
    (strftime : nat → string) (item : PlanItem) (w : World) :
  r_type (i_remediation item) ∉ ["package_install"; "file_edit"; "service_config"] →
  ∃ result w',
    _execute_remediation_item strftime item w = (Ok result, w')
    ∧ er_changes_made result = []
    ∧ (er_status result = "success" ∧ er_error result = None
       ∨ er_status result = "failed" ∧ er_backup_path result = None
         ∧ r_backup_required (i_remediation item) = Some true)
    ∧ (r_backup_required (i_remediation item) ≠ Some true →
       er_status result = "success" ∧ w' = w).
Proof.
  intros Hunknown. unfold _execute_remediation_item, item_try.
  rewrite (apply_remediation_unknown _ Hunknown).
  destruct (r_backup_required (i_remediation item)) as [[|] |].
  - unfold bind, liftW, set_result, modify, ret. cbn [fst snd].
    destruct (_create_backup strftime (i_remediation item) w) as [[backup_path | e] w0].
    + eexists _, _. split; [reflexivity |]. cbn. split_and!; auto. done.
    + eexists _, _. split; [reflexivity |]. cbn. split_and!; auto. done.
  - eexists _, _. split; [reflexivity |]. cbn. split_and!; auto.
  - eexists _, _. split; [reflexivity |]. cbn. split_and!; auto.
Qed.

(** An item whose entry has a type the engine does not know. *)
Definition item_of_unknown_type : PlanItem :=
  plan_item_of finding_V_72433 (no_remediation "kernel_parameter").

Lemma unknown_type_is_reported_as_success_witness :
  ∃ result w',
    _execute_remediation_item sample_strftime item_of_unknown_type
      (fresh_world host_root_login) = (Ok result, w')
    ∧ er_changes_made result = []
    ∧ (er_status result = "success" ∧ er_error result = None
       ∨ er_status result = "failed" ∧ er_backup_path result = None
         ∧ r_backup_required (i_remediation item_of_unknown_type) = Some true)
    ∧ (r_backup_required (i_remediation item_of_unknown_type) ≠ Some true →
       er_status result = "success" ∧ w' = fresh_world host_root_login).
Proof.
  apply (unknown_type_is_reported_as_success sample_strftime item_of_unknown_type
           (fresh_world host_root_login)).
  cbn. not_in_literals.
Defined.

(** ** What [execute_plan] raises *)

(** X8. No exception of an item leaves [execute_plan]: it raises only
    ValueError, for a plan id the store does not have, with the world
    untouched, or IntegrityError, when the key of the history row is
    taken; in both cases the store is as it was. *)
Theorem execute_plan_raises_only_for_the_store
    (strftime isoformat : nat → string) (plan_id : string) (approved : list string)
    (w : World) (e : PyExn) (w' : World) :
  execute_plan strftime isoformat plan_id approved w = (Raise e, w') →
  db w' = db w
  ∧ (remediation_plans (db w) !! plan_id = None
     ∧ e = ValueError ("Plan " +:+ plan_id +:+ " not found") ∧ w' = w
     ∨ is_Some (remediation_plans (db w) !! plan_id)
       ∧ e = IntegrityError "UNIQUE constraint failed: remediation_history.execution_id").
Proof.
  destruct (remediation_plans (db w) !! plan_id) as [row |] eqn:Hrow.
  - destruct (execute_plan_outcome strftime isoformat plan_id approved w row Hrow)
      as (outcome & w1 & results & Hev & _ & ->).
    destruct Hev as [Hdb _ _ _ _ _ _].
    destruct (remediation_history (db w) !! _); [| discriminate].
    intros [= <- <-]. split; [exact Hdb |]. right. eauto.
  - unfold execute_plan, _get_plan, get_remediation_plan, bind, raise.
    rewrite Hrow. intros [= <- <-]. split; [done |]. by left.
Qed.

Lemma execute_plan_raises_only_for_the_store_witness :
  ∃ e w',
    execute_plan sample_strftime sample_isoformat "plan_unknown" ["V-72433"]
      (planned_world host_root_login [finding_V_72433]) = (Raise e, w')
    ∧ db w' = db (planned_world host_root_login [finding_V_72433])
    ∧ e = ValueError "Plan plan_unknown not found"
    ∧ w' = planned_world host_root_login [finding_V_72433].
Proof.
  eexists _, _. split; [reflexivity |].
  destruct (execute_plan_raises_only_for_the_store sample_strftime sample_isoformat
              "plan_unknown" ["V-72433"]
              (planned_world host_root_login [finding_V_72433]) _ _ eq_refl)
    as [Hdb [(_ & He & Hw) | ([row Hrow] & _)]].
  - by split_and!.
  - exfalso. by vm_compute in Hrow.
Defined.

(** ** The history row and the plan row after [execute_plan] *)

(** X9. When [execute_plan] returns, the history has exactly one row
    more, under a key that was free; the row carries the plan id, the
    item results and the status of the Execution returned, and an
    empty result; the plan row has changed in its status only, which is
    that same status; all other rows are as they were. *)
Theorem execute_plan_records_what_it_returns
    (strftime isoformat : nat → string) (plan_id : string) (approved : list string)
    (w : World) (exec : Execution) (w' : World) :
  execute_plan strftime isoformat plan_id approved w = (Ok exec, w') →
  ∃ execution_id hrow row,
    remediation_history (db w) !! execution_id = None
    ∧ remediation_history (db w')
      = <[execution_id := hrow]> (remediation_history (db w))
    ∧ hr_plan_id hrow = plan_id ∧ hr_items hrow = e_items exec
    ∧ hr_status hrow = e_status exec ∧ hr_result hrow = "{}"
    ∧ remediation_plans (db w) !! plan_id = Some row
    ∧ remediation_plans (db w')
      = <[plan_id := with_pr_status (e_status exec) row]> (remediation_plans (db w))
    ∧ e_plan_id exec = plan_id.
Proof.
  destruct (remediation_plans (db w) !! plan_id) as [row |] eqn:Hrow.
  - destruct (execute_plan_outcome strftime isoformat plan_id approved w row Hrow)
      as (outcome & w1 & results & Hev & _ & ->).
    destruct Hev as [Hdb _ _ _ _ _ _].
    destruct (remediation_history (db w) !! _) eqn:Hfree; [discriminate |].
    intros [= <- <-]. eexists _, _, row. split; [exact Hfree |].
    cbn. unfold update_plan_row. cbn. rewrite Hdb, Hrow. cbn.
    split_and!; try done; by destruct outcome.
  - unfold execute_plan, _get_plan, get_remediation_plan, bind, raise.
    rewrite Hrow. discriminate.
Qed.

(** ** Which items [execute_plan] runs *)

(** The [try] block keeps the finding id of the result. *)
Lemma item_try_finding_id strftime remediation w result :
  er_finding_id (snd (snd (item_try strftime remediation (w, result))))
  = er_finding_id result.
Proof.
  assert (Happly : ∀ s, er_finding_id (snd (snd (apply_then_succeed remediation s)))
                        = er_finding_id (snd s)).
  { intros s.
    destruct (apply_then_succeed_run remediation s) as (outcome & s' & -> & _ & Hid & _).
    exact Hid. }
  unfold item_try. unfold bind at 1.
  destruct (r_backup_required remediation) as [[|] |];
    try (cbn; exact (Happly (w, result))).
  unfold bind at 1, liftW. cbn [fst snd].
  destruct (_create_backup strftime remediation w) as [[backup_path | e] w0];
    [| reflexivity].
  cbn. exact (Happly (w0, with_backup_path backup_path result)).
Qed.

Lemma _execute_remediation_item_finding_id strftime item w result w' :
  _execute_remediation_item strftime item w = (Ok result, w') →
  er_finding_id result = i_finding_id item.
Proof.
  rewrite _execute_remediation_item_settle.
  pose proof (item_try_finding_id strftime (i_remediation item) w (initial_result item))
    as Hid.
  destruct (item_try _ _ _) as [outcome s]. intros Hsettle.
  apply settle_result in Hsettle as (-> & _). exact Hid.
Qed.

(** The results the loop appends are those of the approved items, in
    plan order: all of them when no exception leaves an item, the
    first few when one does. *)
Lemma execute_items_ids strftime approved items : ∀ w ex,
  ∃ outcome w' results,
    execute_items strftime items approved (w, ex)
    = (outcome, (w', mkExecution (e_plan_id ex) (e_timestamp ex)
                       (e_items ex ++ results) (e_status ex) (e_error ex)))
    ∧ er_finding_id <$> results
      `prefix_of` i_finding_id <$> approved_of approved items
    ∧ match outcome with
      | Ok _ => er_finding_id <$> results = i_finding_id <$> approved_of approved items
      | Raise _ => True
      end.
Proof.
  induction items as [| item items IH]; intros w ex.
  - exists (Ok tt), w, []. rewrite app_nil_r. by destruct ex.
  - simpl. unfold approved_of. unfold bind at 1.
    destruct (decide (i_finding_id item ∈ approved)) as [Hin | Hout].
    + rewrite bool_decide_eq_true_2 by done.
      rewrite filter_cons_True by done.
      unfold bind at 1, liftW, modify. simpl.
      destruct (_execute_remediation_item strftime item w) as [[result | e] w1] eqn:Hitem.
      * destruct (IH w1 (items_append result ex))
          as (outcome & w' & results & Heq & Hprefix & Hall).
        cbn [fst snd]. rewrite Heq. exists outcome, w', (result :: results).
        fold (approved_of approved items). rewrite !fmap_cons.
        rewrite (_execute_remediation_item_finding_id _ _ _ _ _ Hitem).
        split_and!.
        -- simpl. by rewrite <- app_assoc.
        -- by apply prefix_cons.
        -- destruct outcome; [| done]. by rewrite Hall.
      * exists (Raise e), w1, []. rewrite app_nil_r. simpl.
        split; [by destruct ex |]. split; [apply prefix_nil | done].
    + rewrite bool_decide_eq_false_2 by done.
      rewrite filter_cons_False by done. simpl.
      apply IH.
Qed.

(** X10. The results of the Execution returned by [execute_plan] are
    those of approved items of the plan, in plan order, one per item:
    their finding ids are a prefix of the ids of the approved items,
    and all of them when the status is completed. *)
Theorem execute_plan_runs_approved_items_in_plan_order
    (strftime isoformat : nat → string) (plan_id : string) (approved : list string)
    (w : World) (row : PlanRow) (exec : Execution) (w' : World) :
  remediation_plans (db w) !! plan_id = Some row →
  execute_plan strftime isoformat plan_id approved w = (Ok exec, w') →
  er_finding_id <$> e_items exec
    `prefix_of` i_finding_id <$> approved_of approved (pr_items row)
  ∧ (e_status exec = "completed" →
     er_finding_id <$> e_items exec
     = i_finding_id <$> approved_of approved (pr_items row))
  ∧ Forall (λ result, er_finding_id result ∈ approved) (e_items exec).
Proof.
  intros Hrow. rewrite (execute_plan_unfold _ _ _ _ _ _ Hrow).
  destruct (execute_items_ids strftime approved (pr_items row) (advance w)
              (mkExecution plan_id (isoformat (ticks w)) [] "in_progress" None))
    as (outcome & w1 & results & -> & Hprefix & Hall).
  cbn [e_plan_id e_timestamp e_items e_status e_error app].
  unfold bind. 
  destruct (store_remediation_execution _ _ _ _) as [[execution_id | e] w2];
    [| discriminate].
  cbn. intros [= <- _].
  assert (Hitems : e_items (close_execution outcome
                     (mkExecution plan_id (isoformat (ticks w)) results
                                  "in_progress" None)) = results)
    by (by destruct outcome).
  rewrite Hitems. split_and!.
  - exact Hprefix.
  - destruct outcome; [done | discriminate].
  - apply Forall_forall. intros result Hresult.
    assert (Hid : er_finding_id result ∈ er_finding_id <$> results)
      by (by apply list_elem_of_fmap_2).
    destruct Hprefix as [rest Hrest].
    assert (Hin : er_finding_id result
                  ∈ i_finding_id <$> approved_of approved (pr_items row)).
    { rewrite Hrest. apply elem_of_app. by left. }
    apply list_elem_of_fmap in Hin as (item & -> & Hitem).
    unfold approved_of in Hitem. by apply list_elem_of_filter in Hitem as [? _].
Qed.

(** A plan with two items, of which one is approved, besides an id
    that no item has. *)
Definition run_one_of_two : Res Execution * World :=
  execute_plan sample_strftime sample_isoformat sample_plan_id ["V-72433"; "V-00000"]
    (planned_world host_root_login [finding_V_72435; finding_V_72433]).

Lemma execute_plan_runs_approved_items_in_plan_order_witness :
  ∃ exec w',
    run_one_of_two = (Ok exec, w')
    ∧ er_finding_id <$> e_items exec
        `prefix_of` i_finding_id
                      <$> approved_of ["V-72433"; "V-00000"]
                            (plan_items_of [finding_V_72435; finding_V_72433])
    ∧ (e_status exec = "completed" →
       er_finding_id <$> e_items exec
       = i_finding_id <$> approved_of ["V-72433"; "V-00000"]
                            (plan_items_of [finding_V_72435; finding_V_72433]))
    ∧ Forall (λ result, er_finding_id result ∈ ["V-72433"; "V-00000"]) (e_items exec).
Proof.
  assert (Hok : returned (fst run_one_of_two) ≠ None) by (by vm_compute).
  destruct run_one_of_two as [[exec | e] w'] eqn:Hrun; [| done].
  exists exec, w'. split; [reflexivity |].
  apply (execute_plan_runs_approved_items_in_plan_order sample_strftime
           sample_isoformat sample_plan_id ["V-72433"; "V-00000"]
           (planned_world host_root_login [finding_V_72435; finding_V_72433])
           (mkPlanRow "scan_1" (sample_isoformat 2)
              (plan_items_of [finding_V_72435; finding_V_72433]) "pending")
           exec w').
  - by vm_compute.
  - exact Hrun.
Defined.

Lemma execute_plan_records_what_it_returns_witness :
  ∃ exec w' execution_id hrow row,
    run_absent = (Ok exec, w')
    ∧ remediation_history (db (planned_world host_absent [finding_V_72433]))
        !! execution_id = None
    ∧ remediation_history (db w')
      = <[execution_id := hrow]>
          (remediation_history (db (planned_world host_absent [finding_V_72433])))
    ∧ hr_plan_id hrow = sample_plan_id ∧ hr_items hrow = e_items exec
    ∧ hr_status hrow = e_status exec ∧ hr_result hrow = "{}"
    ∧ remediation_plans (db (planned_world host_absent [finding_V_72433]))
        !! sample_plan_id = Some row
    ∧ remediation_plans (db w')
      = <[sample_plan_id := with_pr_status (e_status exec) row]>
          (remediation_plans (db (planned_world host_absent [finding_V_72433])))
    ∧ e_plan_id exec = sample_plan_id.
Proof.
  assert (Hok : returned (fst run_absent) ≠ None) by (by vm_compute).
  destruct run_absent as [[exec | e] w'] eqn:Hrun; [| done].
  destruct (execute_plan_records_what_it_returns sample_strftime sample_isoformat
              sample_plan_id ["V-72433"]
              (planned_world host_absent [finding_V_72433]) exec w' Hrun)
    as (execution_id & hrow & row & Hfacts).
  by exists exec, w', execution_id, hrow, row.
Defined.

(** ** What [create_plan] does to the store *)

(** X11. [create_plan] leaves the host and the history as they are.
    When it returns, the plan id is [plan_], the time stamp, [_] and
    the scan id, it was not in the store, and the store has gained
    exactly the row of that id, pending, with the items of the plan.
    When it raises, the store is as it was, and the exception is
    IntegrityError: the scan has no scan id, or the plan id is
    taken. *)
Theorem create_plan_inserts_a_fresh_pending_row
    (strftime isoformat : nat → string) (scan_results : ScanResults) (w : World) :
  host (snd (create_plan strftime isoformat scan_results w)) = host w
  ∧ remediation_history (db (snd (create_plan strftime isoformat scan_results w)))
    = remediation_history (db w)
  ∧ (∀ plan w',
       create_plan strftime isoformat scan_results w = (Ok plan, w') →
       ∃ scan_id,
         sr_scan_id scan_results = Some scan_id
         ∧ p_plan_id plan = "plan_" +:+ strftime (S (ticks w)) +:+ "_" +:+ scan_id
         ∧ remediation_plans (db w) !! p_plan_id plan = None
         ∧ remediation_plans (db w')
           = <[p_plan_id plan := mkPlanRow scan_id (isoformat (S (S (ticks w))))
                                   (p_items plan) "pending"]>
               (remediation_plans (db w)))
  ∧ (∀ e w',
       create_plan strftime isoformat scan_results w = (Raise e, w') →
       db w' = db w
       ∧ (sr_scan_id scan_results = None
          ∧ e = IntegrityError "NOT NULL constraint failed: remediation_plans.scan_id"
          ∨ (∃ scan_id,
               sr_scan_id scan_results = Some scan_id
               ∧ is_Some (remediation_plans (db w)
                            !! ("plan_" +:+ strftime (S (ticks w)) +:+ "_" +:+ scan_id)))
            ∧ e = IntegrityError "UNIQUE constraint failed: remediation_plans.plan_id")).
Proof.
  unfold create_plan, store_remediation_plan, bind, ret, now_isoformat, now_strftime.
  simpl. destruct (sr_scan_id scan_results) as [scan_id |]; simpl.
  - destruct (remediation_plans (db w) !! _) as [old |] eqn:Hold; simpl.
    + split_and!; try done. intros e w' [= <- <-]. split; [done |]. right.
      split; [| done]. exists scan_id. split; [done |]. rewrite Hold. by eexists.
    + split_and!; try done. intros plan w' [= <- <-]. exists scan_id.
      by split_and!.
  - split_and!; try done. intros e w' [= <- <-]. split; [done |]. by left.
Qed.

(** ** Two backups within one second *)

(** X12. The path of a backup depends on the base name of the file
    and on the second of the clock only: a backup taken while the
    clock shows the second of an earlier one, of a file with the same
    base name, goes to the same path, and the earlier copy is replaced
    by the later one. *)
Theorem backup_in_the_same_second_replaces_the_earlier_one
    (strftime : nat → string) (first second : Remediation) (t1 t2 c1 c2 : string)
    (w w1 w2 : World) :
  backup_source first = Some t1 → backup_source second = Some t2 →
  PyStr.basename t1 = PyStr.basename t2 →
  strftime (ticks w2) = strftime (ticks w) →
  files (host w) !! t1 = Some c1 → files (host w2) !! t2 = Some c2 →
  t1 ≠ backup_path_for t1 (strftime (ticks w)) →
  t2 ≠ backup_path_for t1 (strftime (ticks w)) →
  backup_path_for t1 (strftime (ticks w)) ∉ unwritable (host w) →
  backup_path_for t1 (strftime (ticks w)) ∉ unwritable (host w2) →
  _create_backup strftime first w
  = (Ok (Some (backup_path_for t1 (strftime (ticks w)))), w1) →
  ∃ w3,
    files (host w1) !! backup_path_for t1 (strftime (ticks w)) = Some c1
    ∧ _create_backup strftime second w2
      = (Ok (Some (backup_path_for t1 (strftime (ticks w)))), w3)
    ∧ files (host w3) !! backup_path_for t1 (strftime (ticks w)) = Some c2.
Proof.
  intros Hfirst Hsecond Hbase Hclock Hc1 Hc2 Hne1 Hne2 Hwritable Hwritable2.
  assert (Hpath : backup_path_for t2 (strftime (ticks w2))
                  = backup_path_for t1 (strftime (ticks w))).
  { unfold backup_path_for. by rewrite Hbase, Hclock. }
  rewrite (_create_backup_run strftime first t1 w Hfirst), Hc1. cbv zeta.
  rewrite decide_False by done. rewrite decide_False by done.
  intros [= <-].
  rewrite (_create_backup_run strftime second t2 w2 Hsecond), Hc2. cbv zeta.
  rewrite Hpath.
  rewrite decide_False by done. rewrite decide_False by done.
  eexists. split_and!; [| reflexivity |]; cbn; apply lookup_insert_eq.
Qed.

(** The first backup of [sshd_config], and the host after the file
    was then edited. *)
Definition after_first_backup : World :=
  snd (_create_backup stopped_clock remediation_V_72433 (fresh_world host_root_login)).
Definition after_edit : World :=
  set_host (put_file sshd_config "PermitRootLogin no" (EvWrite sshd_config))
           after_first_backup.

Lemma backup_in_the_same_second_replaces_the_earlier_one_witness :
  ∃ w3,
    files (host after_first_backup) !! backup_path_for sshd_config "20240101_120000"
    = Some "PermitRootLogin yes"
    ∧ _create_backup stopped_clock remediation_V_72435 after_edit
      = (Ok (Some (backup_path_for sshd_config "20240101_120000")), w3)
    ∧ files (host w3) !! backup_path_for sshd_config "20240101_120000"
      = Some "PermitRootLogin no".
Proof.
  apply (backup_in_the_same_second_replaces_the_earlier_one stopped_clock
           remediation_V_72433 remediation_V_72435 sshd_config sshd_config
           "PermitRootLogin yes" "PermitRootLogin no"
           (fresh_world host_root_login) after_first_backup after_edit);
    try reflexivity; try (by vm_compute).
Defined.

(** ** A clean scan *)

Lemma scan_run w :
  SecurityConfigScanner.scan w
  = (Ok (match files (host w) !! "/etc/pam.d/common-password" with
         | Some content =>
             if PyStr.contains "pam_pwquality.so" (PyStr.universal_newlines content)
             then []
             else [ mkFinding "high" "V-72427" "Password Quality Requirements" "failed"
                      "Password quality requirements are not properly configured."
                      "Install and configure pam_pwquality module." "password_policy" ]
         | None =>
             [ password_policy_error (FileNotFoundError "/etc/pam.d/common-password") ]
         end
         ++ match files (host w) !! "/etc/ssh/sshd_config" with
            | Some content =>
                (if PyStr.contains "Protocol 2" (PyStr.universal_newlines content)
                 then []
                 else [ mkFinding "high" "V-72433" "SSH Protocol Version" "failed"
                          "SSH must be configured to use Protocol version 2."
                          ("Set " +:+ SecurityConfigScanner.dq +:+ "Protocol 2"
                           +:+ SecurityConfigScanner.dq +:+ " in /etc/ssh/sshd_config")
                          "ssh_config" ])
                ++ (if PyStr.contains "PermitRootLogin yes"
                         (PyStr.universal_newlines content)
                    then [ mkFinding "high" "V-72435" "SSH Root Login" "failed"
                             "Direct root login via SSH must be disabled."
                             ("Set " +:+ SecurityConfigScanner.dq +:+ "PermitRootLogin no"
                              +:+ SecurityConfigScanner.dq +:+ " in /etc/ssh/sshd_config")
                             "ssh_config" ]
                    else [])
            | None =>
                [ mkFinding "error" "CHECK-ERROR" "SSH Configuration Check Error" "error"
                    ("Error checking SSH configuration: "
                     +:+ str_exn (FileNotFoundError "/etc/ssh/sshd_config"))
                    "Ensure proper permissions to read SSH configuration."
                    "ssh_config" ]
            end
         ++ match files (host w) !! "/etc/security/limits.conf" with
            | Some content =>
                if PyStr.contains "*     hard    core    0"
                     (PyStr.universal_newlines content)
                then []
                else [ mkFinding "medium" "V-72439" "Core Dumps" "failed"
                         "Core dumps must be disabled for all users."
                         ("Add " +:+ SecurityConfigScanner.dq
                          +:+ "*     hard    core    0" +:+ SecurityConfigScanner.dq
                          +:+ " to /etc/security/limits.conf")
                         "system_security" ]
            | None =>
                [ mkFinding "error" "CHECK-ERROR" "System Security Check Error" "error"
                    ("Error checking system security settings: "
                     +:+ str_exn (FileNotFoundError "/etc/security/limits.conf"))
                    "Ensure proper permissions to read system configuration files."
                    "system_security" ]
            end), w).
Proof.
  unfold SecurityConfigScanner.scan, SecurityConfigScanner._check_password_policy,
    SecurityConfigScanner._check_ssh_config,
    SecurityConfigScanner._check_system_security.
  unfold bind at 1. rewrite check_outcome.
  unfold bind at 1. rewrite check_outcome.
  unfold bind at 1. rewrite check_outcome.
  unfold ret. f_equal. f_equal. rewrite <- app_assoc. reflexivity.
Qed.

(** The three files of the scanner are present and pass its tests. *)
Definition hardened (w : World) : Prop :=
  (∃ pam, files (host w) !! "/etc/pam.d/common-password" = Some pam
          ∧ PyStr.contains "pam_pwquality.so" (PyStr.universal_newlines pam) = true)
  ∧ (∃ ssh, files (host w) !! "/etc/ssh/sshd_config" = Some ssh
            ∧ PyStr.contains "Protocol 2" (PyStr.universal_newlines ssh) = true
            ∧ PyStr.contains "PermitRootLogin yes" (PyStr.universal_newlines ssh) = false)
  ∧ (∃ limits, files (host w) !! "/etc/security/limits.conf" = Some limits
               ∧ PyStr.contains "*     hard    core    0"
                   (PyStr.universal_newlines limits) = true).

(** X13. The scan of the security configuration returns no finding
    exactly when the three files it reads exist, the PAM file mentions
    [pam_pwquality.so], [sshd_config] mentions [Protocol 2] and does
    not mention [PermitRootLogin yes], and [limits.conf] has the core
    line. *)
Theorem scan_is_clean_exactly_on_a_hardened_host (w : World) :
  fst (SecurityConfigScanner.scan w) = Ok [] ↔ hardened w.
Proof.
  rewrite scan_run. unfold hardened. cbn [fst].
  destruct (files (host w) !! "/etc/pam.d/common-password") as [pam |];
    [destruct (PyStr.contains "pam_pwquality.so" _) eqn:Hpam |];
    (destruct (files (host w) !! "/etc/ssh/sshd_config") as [ssh |];
     [destruct (PyStr.contains "Protocol 2" _) eqn:Hprotocol;
      destruct (PyStr.contains "PermitRootLogin yes" _) eqn:Hroot |]);
    (destruct (files (host w) !! "/etc/security/limits.conf") as [limits |];
     [destruct (PyStr.contains "*     hard    core    0" _) eqn:Hcore |]);
    cbn [app];
    (split;
     [ first [ discriminate | intros _; split_and!; eexists; eauto ]
     | intros ((? & [= <-] & ?) & (? & [= <-] & ? & ?) & (? & [= <-] & ?));
       congruence ]).
Qed.

(** ** From the scan to the plan *)

(** X14. The plan made from a scan of the security configuration has
    one item for each finding of the rules V-72427, V-72433 and
    V-72435, in the order of the findings, and none for the others: a
    core dump finding (V-72439) and a CHECK-ERROR finding are never
    planned. *)
Theorem plan_of_a_scan_covers_three_rules (w : World) (findings : list Finding)
    (w' : World) :
  SecurityConfigScanner.scan w = (Ok findings, w') →
  i_finding_id <$> plan_items_of findings
  = filter (λ rule, rule ∈ ["V-72427"; "V-72433"; "V-72435"]) (f_rule_id <$> findings).
Proof.
  rewrite scan_run.
  destruct (files (host w) !! "/etc/pam.d/common-password") as [pam |];
    [destruct (PyStr.contains "pam_pwquality.so" _) |];
    (destruct (files (host w) !! "/etc/ssh/sshd_config") as [ssh |];
     [destruct (PyStr.contains "Protocol 2" _);
      destruct (PyStr.contains "PermitRootLogin yes" _) |]);
    (destruct (files (host w) !! "/etc/security/limits.conf") as [limits |];
     [destruct (PyStr.contains "*     hard    core    0" _) |]);
    intros [= <- _]; reflexivity.
Qed.

Lemma plan_of_a_scan_covers_three_rules_witness :
  ∃ findings w',
    SecurityConfigScanner.scan (fresh_world host_root_login) = (Ok findings, w')
    ∧ i_finding_id <$> plan_items_of findings
      = filter (λ rule, rule ∈ ["V-72427"; "V-72433"; "V-72435"])
               (f_rule_id <$> findings).
Proof.
  destruct (SecurityConfigScanner.scan (fresh_world host_root_login))
    as [[findings | e] w'] eqn:Hscan.
  - exists findings, w'. split; [reflexivity |].
    exact (plan_of_a_scan_covers_three_rules _ _ _ Hscan).
  - exfalso. rewrite scan_run in Hscan. discriminate.
Defined.

(** ** What a handler may do to the result *)

(** X21. Whatever its type and whether it returns or raises, the
    apply step of an item leaves the finding id, the title, the
    status, the backup path and the error of the result as they are
    and only appends to its change entries, and it leaves the store
    as it is. *)
Theorem handlers_only_append_change_entries
    (remediation : Remediation) (w : World) (result : ExecutionResult) :
  ∃ outcome w' result' more,
    apply_remediation remediation (w, result) = (outcome, (w', result'))
    ∧ er_changes_made result' = er_changes_made result ++ more
    ∧ er_finding_id result' = er_finding_id result
    ∧ er_title result' = er_title result
    ∧ er_status result' = er_status result
    ∧ er_backup_path result' = er_backup_path result
    ∧ er_error result' = er_error result
    ∧ db w' = db w.
Proof.
  pose proof (apply_remediation_steady remediation (w, result)) as Hsteady.
  destruct (apply_remediation remediation (w, result)) as [outcome [w' result']].
  destruct Hsteady as [Hworld Hid Htitle Hstatus Hpath Herror [more Hmore]].
  destruct Hworld as [Hdb _ _ _ _ _ _]. cbn [fst snd] in *.
  exists outcome, w', result', more. split_and!; done.
Qed.

(** ** The items of a plan and their backups *)

(** An item the planner made of a failed finding and the catalog's
    entry for its rule. *)
Definition planned (item : PlanItem) : Prop :=
  ∃ finding remediation,
    item = plan_item_of finding remediation
    ∧ f_status finding = "failed"
    ∧ remediation_map !! f_rule_id finding = Some remediation.

Lemma plan_step_planned plan_items finding :
  Forall planned plan_items → Forall planned (plan_step plan_items finding).
Proof.
  intros Hall. unfold plan_step, _get_remediation_steps.
  destruct (String.eqb_spec (f_status finding) "failed") as [Hfailed |]; [| exact Hall].
  destruct (remediation_map !! f_rule_id finding) as [remediation |] eqn:Hrule;
    [| exact Hall].
  apply Forall_app. split; [exact Hall |].
  apply Forall_singleton. by exists finding, remediation.
Qed.

(** X22. Every item of every plan is marked for a backup, by its own
    flag and by that of its entry, carries the catalog's entry for its
    finding id, and backs up and restores one and the same file, which
    is the file it edits if it edits one. *)
Theorem every_planned_item_is_backed_up (findings : list Finding) :
  Forall (λ item,
            i_backup_required item = true
            ∧ r_backup_required (i_remediation item) = Some true
            ∧ remediation_map !! i_finding_id item = Some (i_remediation item)
            ∧ ∃ t, backup_source (i_remediation item) = Some t
                   ∧ restore_target (i_remediation item) = Some t
                   ∧ ∀ p, edit_target (i_remediation item) = Some p → p = t)
         (plan_items_of findings).
Proof.
  assert (Hplanned : Forall planned (plan_items_of findings)).
  { unfold plan_items_of. apply fold_left_invariant; [| constructor].
    intros; by apply plan_step_planned. }
  eapply Forall_impl; [exact Hplanned |].
  intros item (finding & remediation & -> & _ & Hrule).
  destruct (catalog_well_targeted _ _ Hrule)
    as (t & Hrequired & Hsource & Htarget & _ & Hedit).
  cbn [i_backup_required i_remediation i_finding_id plan_item_of].
  rewrite Hrequired. split_and!; try done. by exists t.
Qed.

(** * The agent: [STIGAgent] and the [scans] table *)

(** The dict [run_scan] builds and [store_scan_results] reads: it has
    the keys ["timestamp"], ["hostname"] and ["findings"], and no
    other. *)
Record ScanReport : Type := mkScanReport {
  sp_timestamp : string;
  sp_hostname : string;
  sp_findings : list Finding
}.

(** A row of [scans], keyed by [scan_id]. *)
Record ScanRow : Type := mkScanRow {
  sc_timestamp : string;
  sc_hostname : string;
  sc_findings : list Finding;
  sc_status : string
}.

(** The dict [get_scan_results] returns. *)
Record StoredScan : Type := mkStoredScan {
  ss_scan_id : string;
  ss_timestamp : string;
  ss_hostname : string;
  ss_findings : list Finding;
  ss_status : string
}.

(** The state of the agent: the world of the engine, and the [scans]
    table of the same database. *)
Definition Station : Type := World * gmap string ScanRow.

(** What [create_plan] reads of the dict of [run_scan]:
    [scan_results["findings"]], and [scan_results.get("scan_id")],
    which is [None] for want of the key. *)
Definition as_scan_results (scan_results : ScanReport) : ScanResults :=
  mkScanResults None (sp_findings scan_results).

Section Agent.

Variable strftime : nat -> string.
Variable isoformat : nat -> string.

(** [os.uname()[1]] *)
Variable nodename : string.

(** [self.scanners], in the order of the dict: the name of each
    scanner and its [scan]. *)
Variable scanners : list (string * M World (list Finding)).

(** [DatabaseManager.store_scan_results]; [scan_id] is the primary
    key of [scans]. *)
Definition store_scan_results (scan_results : ScanReport) : M Station string :=
  let* stamp := liftW (now_strftime strftime) in
  let scan_id := "scan_" +:+ stamp +:+ "_" +:+ sp_hostname scan_results in
  fun s =>
    match snd s !! scan_id with
    | Some _ => (Raise (IntegrityError "UNIQUE constraint failed: scans.scan_id"), s)
    | None =>
        (Ok scan_id,
         (fst s, <[scan_id := mkScanRow (sp_timestamp scan_results)
                                (sp_hostname scan_results)
                                (sp_findings scan_results) "completed"]> (snd s)))
    end.

(** [DatabaseManager.get_scan_results] *)
Definition get_scan_results (scan_id : string) : M Station StoredScan :=
  fun s =>
    match snd s !! scan_id with
    | None => (Raise (ValueError ("Scan ID " +:+ scan_id +:+ " not found")), s)
    | Some row =>
        (Ok (mkStoredScan scan_id (sc_timestamp row) (sc_hostname row)
                          (sc_findings row) (sc_status row)), s)
    end.

(** [for scanner_name, scanner in self.scanners.items()]: the
    findings of a scanner that returns are appended; one that raises
    is logged and passed over. *)
Fixpoint run_scanners (todo : list (string * M World (list Finding)))
    (findings : list Finding) : M World (list Finding) :=
  match todo with
  | [] => ret findings
  | (scanner_name, scan) :: rest =>
      let* findings :=
        try_except (let* results := scan in ret (findings ++ results))
                   (fun e => ret findings) in
      run_scanners rest findings
  end.

Definition run_scan : M Station ScanReport :=
  let* timestamp := liftW (now_isoformat isoformat) in
  let hostname := nodename in
  let* findings := liftW (run_scanners scanners []) in
  let scan_results := mkScanReport timestamp hostname findings in
  store_scan_results scan_results ;;;
  ret scan_results.

Definition generate_remediation_plan (scan_results : ScanReport) : M Station Plan :=
  liftW (create_plan strftime isoformat (as_scan_results scan_results)).

Definition execute_remediation (plan_id : string) (approved_items : list string)
    : M Station Execution :=
  liftW (execute_plan strftime isoformat plan_id approved_items).

(** [_should_run_scan] *)
Definition _should_run_scan : bool := true.

(** The [try] block of one turn of the loop of [start], up to the
    call of [generate_report]: its argument [scan_results["scan_id"]]
    is evaluated first, on the dict of [run_scan]. *)
Definition start_turn : M Station unit :=
  if _should_run_scan then
    let* scan_results := run_scan in
    let* plan := generate_remediation_plan scan_results in
    raise (KeyError "scan_id")
  else ret tt.

End Agent.

(** ** Scans stored and read back *)

(** X15. A scan that [store_scan_results] stored is read back by
    [get_scan_results] under the id returned, with its time stamp,
    host name and findings and the status completed; the id is
    [scan_], the time stamp of the clock, [_] and the host name; before
    the call that id was not found; no other row, and nothing of the
    engine's tables or the host, has changed. *)
Theorem stored_scan_is_read_back
    (strftime : nat → string) (scan_results : ScanReport) (s : Station)
    (scan_id : string) (s' : Station) :
  store_scan_results strftime scan_results s = (Ok scan_id, s') →
  get_scan_results scan_id s'
  = (Ok (mkStoredScan scan_id (sp_timestamp scan_results) (sp_hostname scan_results)
                      (sp_findings scan_results) "completed"), s')
  ∧ scan_id = "scan_" +:+ strftime (ticks (fst s)) +:+ "_" +:+ sp_hostname scan_results
  ∧ get_scan_results scan_id s
    = (Raise (ValueError ("Scan ID " +:+ scan_id +:+ " not found")), s)
  ∧ (∀ other, other ≠ scan_id → snd s' !! other = snd s !! other)
  ∧ db (fst s') = db (fst s) ∧ host (fst s') = host (fst s).
Proof.
  unfold store_scan_results, bind, liftW, now_strftime. cbn [fst snd].
  destruct (snd s !! _) as [old |] eqn:Hold; [discriminate |].
  intros [= <- <-]. unfold get_scan_results. cbn [fst snd].
  rewrite lookup_insert_eq, Hold. split_and!; try done.
  intros other Hother. by rewrite lookup_insert_ne.
Qed.

(** The first scan of host [web01], stored in an empty table. *)
Definition store_first_scan : Res string * Station :=
  store_scan_results sample_strftime
    (mkScanReport (sample_isoformat 0) "web01" [finding_V_72433])
    (fresh_world host_root_login, ∅).

Lemma stored_scan_is_read_back_witness :
  ∃ scan_id s',
    store_first_scan = (Ok scan_id, s')
    ∧ get_scan_results scan_id s'
      = (Ok (mkStoredScan scan_id (sample_isoformat 0) "web01" [finding_V_72433]
                          "completed"), s')
    ∧ scan_id = "scan_" +:+ sample_strftime 0 +:+ "_" +:+ "web01".
Proof.
  assert (Hok : returned (fst store_first_scan) ≠ None) by (by vm_compute).
  destruct store_first_scan as [[scan_id | e] s'] eqn:Hrun; [| done].
  exists scan_id, s'. split; [reflexivity |].
  destruct (stored_scan_is_read_back sample_strftime
              (mkScanReport (sample_isoformat 0) "web01" [finding_V_72433])
              (fresh_world host_root_login, ∅) scan_id s' Hrun) as (Hget & Hid & _).
  split; [exact Hget | exact Hid].
Defined.

(** ** [run_scan] and its scanners *)

(** The findings gathered from a list of scanners run one after the
    other from a world: those of every scanner that returns, in the
    order of the list; a scanner that raises adds none, and the next
    one runs in the world it left. *)
Inductive gathered :
    list (string * M World (list Finding)) → World → list Finding → World → Prop :=
  | gathered_nil w : gathered [] w [] w
  | gathered_returned scanner_name scan rest w results w1 found w' :
      scan w = (Ok results, w1) →
      gathered rest w1 found w' →
      gathered ((scanner_name, scan) :: rest) w (results ++ found) w'
  | gathered_raised scanner_name scan rest w e w1 found w' :
      scan w = (Raise e, w1) →
      gathered rest w1 found w' →
      gathered ((scanner_name, scan) :: rest) w found w'.

Lemma run_scanners_gathers todo : ∀ findings w,
  ∃ found w',
    run_scanners todo findings w = (Ok (findings ++ found), w')
    ∧ gathered todo w found w'.
Proof.
  induction todo as [| [scanner_name scan] todo IH]; intros findings w.
  - exists [], w. rewrite app_nil_r. split; [reflexivity | constructor].
  - simpl. unfold bind at 1, try_except, bind, ret.
    destruct (scan w) as [[results | e] w1] eqn:Hscan.
    + destruct (IH (findings ++ results) w1) as (found & w' & -> & Hfound).
      exists (results ++ found), w'. rewrite app_assoc. split; [reflexivity |].
      by eapply gathered_returned.
    + destruct (IH findings w1) as (found & w' & -> & Hfound).
      exists found, w'. split; [reflexivity |]. by eapply gathered_raised.
Qed.

(** [run_scan], step by step: the clock is read, the scanners run,
    and the row goes to the store unless its key is taken. *)
Lemma run_scan_run strftime isoformat nodename scanners s :
  ∃ found w1,
    gathered scanners (advance (fst s)) found w1
    ∧ let scan_results := mkScanReport (isoformat (ticks (fst s))) nodename found in
      let scan_id := "scan_" +:+ strftime (ticks w1) +:+ "_" +:+ nodename in
      run_scan strftime isoformat nodename scanners s
      = match snd s !! scan_id with
        | Some _ =>
            (Raise (IntegrityError "UNIQUE constraint failed: scans.scan_id"),
             (advance w1, snd s))
        | None =>
            (Ok scan_results,
             (advance w1,
              <[scan_id := mkScanRow (isoformat (ticks (fst s))) nodename found
                             "completed"]> (snd s)))
        end.
Proof.
  destruct (run_scanners_gathers scanners [] (advance (fst s)))
    as (found & w1 & Hrun & Hfound).
  exists found, w1. split; [exact Hfound |]. cbv zeta.
  unfold run_scan. unfold bind at 1, liftW at 1, now_isoformat. cbn [fst snd].
  unfold bind at 1, liftW at 1. cbn [fst snd]. rewrite Hrun. cbn [app].
  unfold bind, store_scan_results, bind, liftW, now_strftime, ret.
  cbn [fst snd sp_hostname sp_timestamp sp_findings].
  by destruct (snd s !! _).
Qed.

(** X16. Whatever its scanners do, [run_scan] raises only when the
    scan id is taken in the store, and then stores nothing; otherwise
    it returns a dict with the time stamp read first, the host name
    and the findings gathered from the scanners, and the store has
    gained exactly the row of that dict.  The findings gathered are
    those of every scanner that returned, in the order of the
    scanners: a scanner that raises adds nothing and stops nothing,
    the scanners after it run and their findings are kept. *)
Theorem run_scan_outlives_its_scanners
    (strftime isoformat : nat → string) (nodename : string)
    (scanners : list (string * M World (list Finding))) (s : Station) :
  ∃ outcome s' found w1,
    run_scan strftime isoformat nodename scanners s = (outcome, s')
    ∧ gathered scanners (advance (fst s)) found w1
    ∧ match outcome with
      | Ok scan_results =>
          sp_timestamp scan_results = isoformat (ticks (fst s))
          ∧ sp_hostname scan_results = nodename
          ∧ sp_findings scan_results = found
          ∧ ∃ scan_id,
              snd s !! scan_id = None
              ∧ snd s' = <[scan_id := mkScanRow (sp_timestamp scan_results) nodename
                                        found "completed"]> (snd s)
      | Raise e =>
          e = IntegrityError "UNIQUE constraint failed: scans.scan_id"
          ∧ snd s' = snd s
      end.
Proof.
  destruct (run_scan_run strftime isoformat nodename scanners s)
    as (found & w1 & Hfound & Hrun).
  cbv zeta in Hrun. rewrite Hrun.
  destruct (snd s !! _) as [old |] eqn:Hold.
  - eexists _, _, found, w1. split; [reflexivity |]. done.
  - eexists _, _, found, w1. split; [reflexivity |]. split; [exact Hfound |].
    cbn. split_and!; try done. eauto.
Qed.

(** ** A turn of the loop of [start] *)

(** X17. [generate_remediation_plan] on a dict of [run_scan] always
    raises IntegrityError, for want of a scan id, and leaves the store
    and the host as they are; hence every turn of the loop of [start]
    ends in its [except] branch with an IntegrityError, of the scan or
    of the plan, and never gets as far as the report. *)
Theorem agent_turn_ends_in_an_integrity_error
    (strftime isoformat : nat → string) (nodename : string)
    (scanners : list (string * M World (list Finding))) (s : Station) :
  (∀ scan_results s0,
     ∃ s1, generate_remediation_plan strftime isoformat scan_results s0
           = (Raise (IntegrityError
                       "NOT NULL constraint failed: remediation_plans.scan_id"), s1)
           ∧ db (fst s1) = db (fst s0) ∧ host (fst s1) = host (fst s0)
           ∧ snd s1 = snd s0)
  ∧ ∃ e s',
      start_turn strftime isoformat nodename scanners s = (Raise e, s')
      ∧ (e = IntegrityError "UNIQUE constraint failed: scans.scan_id"
         ∨ e = IntegrityError "NOT NULL constraint failed: remediation_plans.scan_id").
Proof.
  assert (Hplan : ∀ scan_results s0,
            ∃ s1, generate_remediation_plan strftime isoformat scan_results s0
                  = (Raise (IntegrityError
                              "NOT NULL constraint failed: remediation_plans.scan_id"),
                     s1)
                  ∧ db (fst s1) = db (fst s0) ∧ host (fst s1) = host (fst s0)
                  ∧ snd s1 = snd s0).
  { intros scan_results s0. eexists. split; [reflexivity |]. done. }
  split; [exact Hplan |].
  unfold start_turn, _should_run_scan. unfold bind at 1.
  destruct (run_scan_run strftime isoformat nodename scanners s)
    as (found & w1 & _ & Hrun).
  cbv zeta in Hrun. rewrite Hrun.
  destruct (snd s !! _) as [old |].
  - eexists _, _. split; [reflexivity |]. by left.
  - lazy beta iota.
    match goal with
    | |- context [bind (generate_remediation_plan _ _ ?r) _ ?s0] =>
        destruct (Hplan r s0) as (s2 & Hraise & _)
    end.
    unfold bind. rewrite Hraise. eexists _, _. split; [reflexivity |]. by right.
Qed.

(** * [ServiceScanner]: the checks that ask [systemctl] and [ss] *)

Module ServiceScanner.

(** [status] of [_get_service_status] *)
Record ServiceStatus : Type := mkServiceStatus {
  active : string;
  enabled : bool
}.

Definition required_services : list string :=
  ["auditd"; "sshd"; "systemd-timesyncd"].

Definition disabled_services : list string :=
  ["telnet"; "rsh-server"; "rlogin-server"; "rexec-server"; "ypserv";
   "tftp-server"; "xinetd"; "vsftpd"; "rsyncd"].

Section Scanner.

(** What [create_subprocess_exec] on [argv] followed by [communicate()]
    gives: the exception raised on the way, or the return code and
    what [stdout.decode()] gives, a text or an exception. *)
Variable run : list string -> Res (Z * Res string).

(** The two steps [stdout, _ = await process.communicate()] and
    [stdout.decode()], whatever the return code. *)
Definition decoded_stdout (argv : list string) : Res string :=
  match run argv with
  | Raise e => Raise e
  | Ok (_, decoded) => decoded
  end.

Definition _get_service_status (service : string) : Res ServiceStatus :=
  let status := mkServiceStatus "unknown" false in
  match decoded_stdout ["systemctl"; "is-active"; service] with
  | Raise e => Ok status
  | Ok stdout =>
      let status := mkServiceStatus (PyStr.strip stdout) (enabled status) in
      match decoded_stdout ["systemctl"; "is-enabled"; service] with
      | Raise e => Ok status
      | Ok stdout =>
          Ok (mkServiceStatus (active status)
                              (String.eqb (PyStr.strip stdout) "enabled"))
      end
  end.

(** One turn of [for service in self.required_services]. *)
Definition required_step (findings : list Finding) (service : string) : list Finding :=
  match _get_service_status service with
  | Raise e => findings
  | Ok status =>
      let findings :=
        if negb (String.eqb (active status) "active") then
          findings ++ [ {| f_severity := "high";
                           f_rule_id := "V-72051";
                           f_title := "Required Service Not Running: " +:+ service;
                           f_status := "failed";
                           f_description :=
                             "Required service " +:+ service +:+ " is not running";
                           f_fix := "systemctl start " +:+ service
                                    +:+ " && systemctl enable " +:+ service;
                           f_check_type := "service" |} ]
        else findings in
      if negb (enabled status) then
        findings ++ [ {| f_severity := "medium";
                         f_rule_id := "V-72053";
                         f_title := "Required Service Not Enabled: " +:+ service;
                         f_status := "failed";
                         f_description :=
                           "Required service " +:+ service +:+ " is not enabled";
                         f_fix := "systemctl enable " +:+ service;
                         f_check_type := "service" |} ]
      else findings
  end.

(** One turn of [for service in self.disabled_services]. *)
Definition disabled_step (findings : list Finding) (service : string) : list Finding :=
  match _get_service_status service with
  | Raise e => findings
  | Ok status =>
      let findings :=
        if String.eqb (active status) "active" then
          findings ++ [ {| f_severity := "high";
                           f_rule_id := "V-72055";
                           f_title := "Prohibited Service Running: " +:+ service;
                           f_status := "failed";
                           f_description :=
                             "Prohibited service " +:+ service +:+ " is running";
                           f_fix := "systemctl stop " +:+ service
                                    +:+ " && systemctl disable " +:+ service;
                           f_check_type := "service" |} ]
        else findings in
      if enabled status then
        findings ++ [ {| f_severity := "medium";
                         f_rule_id := "V-72057";
                         f_title := "Prohibited Service Enabled: " +:+ service;
                         f_status := "failed";
                         f_description :=
                           "Prohibited service " +:+ service +:+ " is enabled";
                         f_fix := "systemctl disable " +:+ service;
                         f_check_type := "service" |} ]
      else findings
  end.

Definition _check_service_states : list Finding :=
  fold_left disabled_step disabled_services
    (fold_left required_step required_services []).

Definition _check_unauthorized_services : list Finding :=
  let body : Res (list Finding) :=
    match run ["ss"; "-tuln"] with
    | Raise e => Raise e
    | Ok (returncode, decoded) =>
        if Z.eqb returncode 0 then
          match decoded with
          | Raise e => Raise e
          | Ok output =>
              Ok ((if PyStr.contains ":23" output
                   then [ {| f_severity := "high";
                             f_rule_id := "V-72063";
                             f_title := "Telnet Port Open";
                             f_status := "failed";
                             f_description := "Telnet port (23) is open";
                             f_fix := "Identify and disable service listening on port 23";
                             f_check_type := "service" |} ]
                   else [])
                  ++ (if PyStr.contains ":21" output
                      then [ {| f_severity := "high";
                                f_rule_id := "V-72065";
                                f_title := "FTP Port Open";
                                f_status := "failed";
                                f_description := "FTP port (21) is open";
                                f_fix :=
                                  "Identify and disable service listening on port 21";
                                f_check_type := "service" |} ]
                      else []))
          end
        else Ok []
    end in
  match body with
  | Ok findings => findings
  | Raise e =>
      [ {| f_severity := "info";
           f_rule_id := "CHECK-ERROR";
           f_title := "Network Service Check Error";
           f_status := "error";
           f_description := "Error checking network services: " +:+ str_exn e;
           f_fix := "Ensure proper permissions to check network status";
           f_check_type := "service" |} ]
  end.

Definition _check_systemd_targets : list Finding :=
  let body : Res (list Finding) :=
    match run ["systemctl"; "get-default"] with
    | Raise e => Raise e
    | Ok (returncode, decoded) =>
        if Z.eqb returncode 0 then
          match decoded with
          | Raise e => Raise e
          | Ok stdout =>
              let default_target := PyStr.strip stdout in
              Ok (if String.eqb default_target "graphical.target"
                  then [ {| f_severity := "medium";
                            f_rule_id := "V-72067";
                            f_title := "Graphical Target Default";
                            f_status := "failed";
                            f_description :=
                              "System is configured to boot to graphical target";
                            f_fix := "systemctl set-default multi-user.target";
                            f_check_type := "service" |} ]
                  else [])
          end
        else Ok []
    end in
  match body with
  | Ok findings => findings
  | Raise e =>
      [ {| f_severity := "info";
           f_rule_id := "CHECK-ERROR";
           f_title := "Systemd Target Check Error";
           f_status := "error";
           f_description := "Error checking systemd targets: " +:+ str_exn e;
           f_fix := "Ensure proper permissions to check systemd configuration";
           f_check_type := "service" |} ]
  end.

End Scanner.
End ServiceScanner.

(** ** The service checks when [systemctl] cannot be asked *)

Lemma _get_service_status_unknown run service :
  (∀ argv, ∃ e, run ("systemctl" :: argv) = Raise e) →
  ServiceScanner._get_service_status run service
  = Ok (ServiceScanner.mkServiceStatus "unknown" false).
Proof.
  intros Hfails. unfold ServiceScanner._get_service_status, ServiceScanner.decoded_stdout.
  destruct (Hfails ["is-active"; service]) as [e ->]. reflexivity.
Qed.

Lemma _get_service_status_returns run service :
  ∃ status, ServiceScanner._get_service_status run service = Ok status.
Proof.
  unfold ServiceScanner._get_service_status.
  destruct (ServiceScanner.decoded_stdout run ["systemctl"; "is-active"; service]);
    [| by eexists].
  destruct (ServiceScanner.decoded_stdout run ["systemctl"; "is-enabled"; service]);
    by eexists.
Qed.

(** The findings of the service-state check: a failed rule about one
    service, never an error. *)
Definition state_finding (f : Finding) : Prop :=
  f_status f = "failed"
  ∧ f_rule_id f ∈ ["V-72051"; "V-72053"; "V-72055"; "V-72057"].

Lemma required_step_findings run findings service :
  Forall state_finding findings →
  Forall state_finding (ServiceScanner.required_step run findings service).
Proof.
  intros Hall. unfold ServiceScanner.required_step.
  destruct (_get_service_status_returns run service) as [status ->]. cbv zeta.
  destruct (negb (String.eqb _ _)), (negb (ServiceScanner.enabled status));
    rewrite ?Forall_app; repeat split; try done;
    repeat constructor; cbn; set_solver.
Qed.

Lemma disabled_step_findings run findings service :
  Forall state_finding findings →
  Forall state_finding (ServiceScanner.disabled_step run findings service).
Proof.
  intros Hall. unfold ServiceScanner.disabled_step.
  destruct (_get_service_status_returns run service) as [status ->]. cbv zeta.
  destruct (String.eqb _ _), (ServiceScanner.enabled status);
    rewrite ?Forall_app; repeat split; try done;
    repeat constructor; cbn; set_solver.
Qed.

Lemma required_step_unknown run findings service :
  (∀ argv, ∃ e, run ("systemctl" :: argv) = Raise e) →
  (λ f, (f_rule_id f, f_title f)) <$> ServiceScanner.required_step run findings service
  = ((λ f, (f_rule_id f, f_title f)) <$> findings)
    ++ [ ("V-72051", "Required Service Not Running: " +:+ service);
         ("V-72053", "Required Service Not Enabled: " +:+ service) ].
Proof.
  intros Hfails. unfold ServiceScanner.required_step.
  rewrite (_get_service_status_unknown run _ Hfails). cbn.
  rewrite !fmap_app. by rewrite <- app_assoc.
Qed.

Lemma disabled_step_unknown run findings service :
  (∀ argv, ∃ e, run ("systemctl" :: argv) = Raise e) →
  ServiceScanner.disabled_step run findings service = findings.
Proof.
  intros Hfails. unfold ServiceScanner.disabled_step.
  by rewrite (_get_service_status_unknown run _ Hfails).
Qed.

(** X18. The service-state check yields only failed findings of the
    rules V-72051, V-72053, V-72055 and V-72057, never a CHECK-ERROR;
    when [systemctl] cannot be started, it reports every required
    service as not running and not enabled, and no prohibited
    service. *)
Theorem service_states_never_report_an_error
    (run : list string → Res (Z * Res string)) :
  Forall state_finding (ServiceScanner._check_service_states run)
  ∧ ((∀ argv, ∃ e, run ("systemctl" :: argv) = Raise e) →
     (λ f, (f_rule_id f, f_title f)) <$> ServiceScanner._check_service_states run
     = [ ("V-72051", "Required Service Not Running: auditd");
         ("V-72053", "Required Service Not Enabled: auditd");
         ("V-72051", "Required Service Not Running: sshd");
         ("V-72053", "Required Service Not Enabled: sshd");
         ("V-72051", "Required Service Not Running: systemd-timesyncd");
         ("V-72053", "Required Service Not Enabled: systemd-timesyncd") ]).
Proof.
  split.
  - unfold ServiceScanner._check_service_states.
    apply fold_left_invariant; [intros; by apply disabled_step_findings |].
    apply fold_left_invariant; [intros; by apply required_step_findings |].
    constructor.
  - intros Hfails. unfold ServiceScanner._check_service_states.
    rewrite (fold_left_invariant
               (λ findings, findings
                            = fold_left (ServiceScanner.required_step run)
                                ServiceScanner.required_services [])
               (ServiceScanner.disabled_step run) ServiceScanner.disabled_services
               (fold_left (ServiceScanner.required_step run)
                  ServiceScanner.required_services []));
      [| intros a b ->; by apply disabled_step_unknown | reflexivity].
    unfold ServiceScanner.required_services. cbn [fold_left].
    by rewrite !required_step_unknown.
Qed.

(** ** The listening ports *)

(** X19. In the checks of the listening ports and of the default
    target a CHECK-ERROR finding has severity info and status error,
    and is what the check yields when its program cannot be run; a
    non-zero return code yields no finding; and the telnet finding is
    reported whenever [:23] occurs anywhere in the output of [ss], as
    it does in [:2301]. *)
Theorem port_check_matches_any_occurrence
    (run : list string → Res (Z * Res string)) :
  Forall (λ f, is_check_error f → f_severity f = "info" ∧ f_status f = "error")
         (ServiceScanner._check_unauthorized_services run
          ++ ServiceScanner._check_systemd_targets run)
  ∧ (∀ returncode decoded,
       run ["ss"; "-tuln"] = Ok (returncode, decoded) → returncode ≠ 0%Z →
       ServiceScanner._check_unauthorized_services run = [])
  ∧ (∀ returncode decoded,
       run ["systemctl"; "get-default"] = Ok (returncode, decoded) →
       returncode ≠ 0%Z →
       ServiceScanner._check_systemd_targets run = [])
  ∧ (∀ before after,
       run ["ss"; "-tuln"] = Ok (0%Z, Ok (before +:+ ":23" +:+ after)) →
       "V-72063" ∈ f_rule_id <$> ServiceScanner._check_unauthorized_services run)
  ∧ (∀ e, run ["ss"; "-tuln"] = Raise e →
          f_rule_id <$> ServiceScanner._check_unauthorized_services run
          = ["CHECK-ERROR"])
  ∧ (∀ e, run ["systemctl"; "get-default"] = Raise e →
          f_rule_id <$> ServiceScanner._check_systemd_targets run
          = ["CHECK-ERROR"]).
Proof.
  unfold ServiceScanner._check_unauthorized_services,
    ServiceScanner._check_systemd_targets. split_and!.
  - apply Forall_app. split.
    + destruct (run ["ss"; "-tuln"]) as [[returncode [output | e]] | e]; cbv zeta.
      * destruct (Z.eqb returncode 0); [| constructor].
        destruct (PyStr.contains ":23" output), (PyStr.contains ":21" output);
          repeat constructor; unfold is_check_error; simpl; done.
      * destruct (Z.eqb returncode 0); [| constructor].
        repeat constructor; unfold is_check_error; simpl; done.
      * repeat constructor; unfold is_check_error; simpl; done.
    + destruct (run ["systemctl"; "get-default"]) as [[returncode [output | e]] | e];
        cbv zeta.
      * destruct (Z.eqb returncode 0); [| constructor].
        destruct (String.eqb _ _);
          repeat constructor; unfold is_check_error; simpl; done.
      * destruct (Z.eqb returncode 0); [| constructor].
        repeat constructor; unfold is_check_error; simpl; done.
      * repeat constructor; unfold is_check_error; simpl; done.
  - intros returncode decoded -> Hcode. cbv zeta.
    by apply Z.eqb_neq in Hcode as ->.
  - intros returncode decoded -> Hcode. cbv zeta.
    by apply Z.eqb_neq in Hcode as ->.
  - intros before after ->. cbv zeta. cbn [Z.eqb].
    rewrite contains_app. cbn [app fmap list_fmap].
    apply list_elem_of_here.
  - by intros e ->.
  - by intros e ->.
Qed.

(** * [UserGroupScanner] *)

Module UserGroupScanner.

(** The fields the scanner reads of an entry of [pwd], [grp] and
    [spwd]. *)
Record Passwd : Type := mkPasswd {
  pw_name : string;
  pw_uid : Z;
  pw_gid : Z;
  pw_shell : string
}.

Record Group : Type := mkGroup {
  gr_name : string;
  gr_mem : list string
}.

Record Shadow : Type := mkShadow {
  sp_namp : string;
  sp_lstchg : Z;
  sp_min : Z;
  sp_max : Z
}.

Definition required_users : list string := ["root"].
Definition required_groups : list string := ["root"; "shadow"; "sudo"].
Definition prohibited_users : list string := ["games"; "irc"; "news"; "uucp"].
Definition max_password_age : Z := 60.
Definition min_password_age : Z := 1.

Definition check_error (title description fix_text : string) (e : PyExn)
    : Finding :=
  {| f_severity := "info";
     f_rule_id := "CHECK-ERROR";
     f_title := title;
     f_status := "error";
     f_description := description +:+ str_exn e;
     f_fix := fix_text;
     f_check_type := "user_group" |}.

Definition failed (rule_id title severity description fix_text : string)
    : Finding :=
  {| f_severity := severity;
     f_rule_id := rule_id;
     f_title := title;
     f_status := "failed";
     f_description := description;
     f_fix := fix_text;
     f_check_type := "user_group" |}.

Section Scanner.

(** The account databases: what [pwd.getpwall()], [grp.getgrall()],
    [spwd.getspall()], [pwd.getpwnam(name)] and [grp.getgrnam(name)]
    give, a value or an exception. *)
Variable getpwall : Res (list Passwd).
Variable getgrall : Res (list Group).
Variable getspall : Res (list Shadow).
Variable getpwnam : string -> Res Passwd.
Variable getgrnam : string -> Res Group.

(** One turn of [for username in self.required_users]. *)
Definition required_user_step (existing_users : list string) (findings : list Finding)
    (username : string) : list Finding :=
  if bool_decide (username ∈ existing_users) then findings
  else findings ++ [ failed "V-72031" ("Missing Required User: " +:+ username) "high"
                       ("Required user " +:+ username +:+ " does not exist")
                       ("useradd " +:+ username) ].

(** One turn of [for groupname in self.required_groups]. *)
Definition required_group_step (existing_groups : list string) (findings : list Finding)
    (groupname : string) : list Finding :=
  if bool_decide (groupname ∈ existing_groups) then findings
  else findings ++ [ failed "V-72033" ("Missing Required Group: " +:+ groupname) "high"
                       ("Required group " +:+ groupname +:+ " does not exist")
                       ("groupadd " +:+ groupname) ].

(** Neither call is inside a [try]: what they raise leaves the
    function. *)
Definition _check_required_entities : Res (list Finding) :=
  match getpwall with
  | Raise e => Raise e
  | Ok users =>
      let existing_users := pw_name <$> users in
      let findings := fold_left (required_user_step existing_users) required_users [] in
      match getgrall with
      | Raise e => Raise e
      | Ok groups =>
          let existing_groups := gr_name <$> groups in
          Ok (fold_left (required_group_step existing_groups) required_groups findings)
      end
  end.

(** One turn of [for username in self.prohibited_users]. *)
Definition prohibited_user_step (existing_users : list string) (findings : list Finding)
    (username : string) : list Finding :=
  if bool_decide (username ∈ existing_users) then
    findings ++ [ failed "V-72035" ("Prohibited User Account: " +:+ username) "medium"
                    ("Prohibited user account " +:+ username +:+ " exists")
                    ("userdel " +:+ username) ]
  else findings.

Definition _check_prohibited_users : Res (list Finding) :=
  match getpwall with
  | Raise e => Raise e
  | Ok users =>
      let existing_users := pw_name <$> users in
      Ok (fold_left (prohibited_user_step existing_users) prohibited_users [])
  end.

(** One turn of [for user in spwd.getspall()]. *)
Definition aging_step (findings : list Finding) (user : Shadow) : list Finding :=
  if Z.eqb (sp_lstchg user) (-1) then findings
  else
    let findings :=
      if Z.ltb max_password_age (sp_max user) || Z.eqb (sp_max user) (-1) then
        findings ++ [ failed "V-72037" ("Password Age Violation: " +:+ sp_namp user)
                        "medium"
                        ("User " +:+ sp_namp user +:+ " has maximum password age > "
                         +:+ pretty max_password_age +:+ " days")
                        ("chage -M " +:+ pretty max_password_age +:+ " "
                         +:+ sp_namp user) ]
      else findings in
    if Z.ltb (sp_min user) min_password_age then
      findings ++ [ failed "V-72039"
                      ("Minimum Password Age Violation: " +:+ sp_namp user) "medium"
                      ("User " +:+ sp_namp user +:+ " has minimum password age < "
                       +:+ pretty min_password_age +:+ " days")
                      ("chage -m " +:+ pretty min_password_age +:+ " "
                       +:+ sp_namp user) ]
    else findings.

Definition _check_password_aging : list Finding :=
  match getspall with
  | Ok users => fold_left aging_step users []
  | Raise e =>
      [ check_error "Password Aging Check Error" "Error checking password aging: "
          "Ensure proper permissions to read shadow file" e ]
  end.

Definition _check_root_account : list Finding :=
  match getpwnam "root" with
  | Ok root_user =>
      (if negb (Z.eqb (pw_uid root_user) 0) then
         [ failed "V-72041" "Invalid Root UID" "high"
             ("Root account has invalid UID: " +:+ pretty (pw_uid root_user))
             "Restore root account UID to 0" ]
       else [])
      ++ (if negb (Z.eqb (pw_gid root_user) 0) then
            [ failed "V-72043" "Invalid Root GID" "high"
                ("Root account has invalid GID: " +:+ pretty (pw_gid root_user))
                "Restore root account GID to 0" ]
          else [])
      ++ (if bool_decide (pw_shell root_user ∈ ["/bin/bash"; "/bin/sh"]) then []
          else [ failed "V-72045" "Invalid Root Shell" "medium"
                   ("Root account has invalid shell: " +:+ pw_shell root_user)
                   "chsh -s /bin/bash root" ])
  | Raise e =>
      [ check_error "Root Account Check Error" "Error checking root account: "
          "Ensure proper permissions to read passwd file" e ]
  end.

(** [findings.append(finding)] on the list the [try] block shares
    with its [except] branch. *)
Definition append_finding (f : Finding) : M (World * list Finding) unit :=
  modify (fun s => (fst s, snd s ++ [f])).

(** [os.path.exists(path)] as this module evaluates it: the module
    has no [import os], so the name [os] is unbound and the expression
    raises NameError before any file is looked at.  The [except
    Exception] branch reads of it only its [str], which [Exception]
    carries here. *)
Definition os_path_exists (path : string) : M (World * list Finding) bool :=
  raise (Exception "name 'os' is not defined").

Definition _check_sudo_config : M World (list Finding) :=
  fun w =>
    let '(_, (w', findings)) :=
      try_except
        (let* sudo_group := of_res (getgrnam "sudo") in
         (if Nat.ltb 0 (length (gr_mem sudo_group)) then
            append_finding
              (failed "V-72047" "Direct Sudo Group Members" "medium"
                 ("Users are directly assigned to sudo group: "
                  +:+ PyStr.join ", " (gr_mem sudo_group))
                 "Remove users from sudo group and use sudoers file for access control")
          else ret tt) ;;;
         let* present := os_path_exists "/etc/sudoers" in
         if present then
           let* content := liftW (open_read "/etc/sudoers") in
           if PyStr.contains "NOPASSWD" content then
             append_finding
               (failed "V-72049" "Sudo Without Password" "high"
                  "Sudo configuration allows execution without password"
                  "Remove NOPASSWD entries from sudoers file")
           else ret tt
         else ret tt)
        (fun e =>
           append_finding
             (check_error "Sudo Configuration Check Error"
                "Error checking sudo configuration: "
                "Ensure proper permissions to read sudo configuration" e))
        (w, []) in
    (Ok findings, w').

Definition scan : M World (list Finding) :=
  let* entities := of_res _check_required_entities in
  let* prohibited := of_res _check_prohibited_users in
  let aging := _check_password_aging in
  let root := _check_root_account in
  let* sudo := _check_sudo_config in
  ret ([] ++ entities ++ prohibited ++ aging ++ root ++ sudo).

End Scanner.
End UserGroupScanner.

(** ** What the scanner does with an error *)

(** A loop whose turns only append. *)
Lemma fold_left_appends {A B} (step : list A → B → list A) (g : B → list A) :
  (∀ acc x, step acc x = acc ++ g x) →
  ∀ l acc, fold_left step l acc = acc ++ concat (g <$> l).
Proof.
  intros Hstep. induction l as [| x l IH]; intros acc.
  - cbn. by rewrite app_nil_r.
  - rewrite fmap_cons. cbn [fold_left concat].
    by rewrite IH, Hstep, <- app_assoc.
Qed.

Lemma appended_nil {A B} (g : B → list A) (l : list B) (acc : list A) :
  acc ++ concat (g <$> l) = [] ↔ acc = [] ∧ Forall (λ x, g x = []) l.
Proof.
  split.
  - intros Hnil. apply app_eq_nil in Hnil as [-> Hnil]. split; [done |].
    induction l as [| x l IH]; [constructor |].
    rewrite fmap_cons in Hnil. cbn [concat] in Hnil.
    apply app_eq_nil in Hnil as [Hx Hl]. constructor; auto.
  - intros [-> Hall]. rewrite app_nil_l.
    induction Hall as [| x l Hx _ IH]; [done |].
    rewrite fmap_cons. cbn [concat]. by rewrite Hx, IH.
Qed.

Definition error_is_info (f : Finding) : Prop :=
  is_check_error f → f_severity f = "info" ∧ f_status f = "error".

Lemma failed_is_no_error rule_id title severity description fix_text :
  rule_id ≠ "CHECK-ERROR" →
  error_is_info (UserGroupScanner.failed rule_id title severity description fix_text).
Proof. intros Hrule Herror. by destruct Hrule. Qed.

Lemma check_error_is_info title description fix_text e :
  error_is_info (UserGroupScanner.check_error title description fix_text e).
Proof. by intros _. Qed.

Lemma concat_Forall {A B} (P : A → Prop) (g : B → list A) (l : list B) :
  (∀ x, Forall P (g x)) → Forall P (concat (g <$> l)).
Proof.
  intros Hg. induction l as [| x l IH]; [constructor |].
  rewrite fmap_cons. cbn [concat].
  apply Forall_app. split; [apply Hg | exact IH].
Qed.

(** The entry of the [except] branch of the sudo check. *)
Definition sudo_check_error (e : PyExn) : Finding :=
  UserGroupScanner.check_error "Sudo Configuration Check Error"
    "Error checking sudo configuration: "
    "Ensure proper permissions to read sudo configuration" e.

Section ScannerFacts.
Variable getpwall : Res (list UserGroupScanner.Passwd).
Variable getgrall : Res (list UserGroupScanner.Group).
Variable getspall : Res (list UserGroupScanner.Shadow).
Variable getpwnam : string → Res UserGroupScanner.Passwd.
Variable getgrnam : string → Res UserGroupScanner.Group.

(** What each turn of a loop appends. *)
Definition user_gap (existing : list string) (username : string) : list Finding :=
  UserGroupScanner.required_user_step existing [] username.
Definition group_gap (existing : list string) (groupname : string) : list Finding :=
  UserGroupScanner.required_group_step existing [] groupname.
Definition user_excess (existing : list string) (username : string) : list Finding :=
  UserGroupScanner.prohibited_user_step existing [] username.
Definition aging_gap (user : UserGroupScanner.Shadow) : list Finding :=
  UserGroupScanner.aging_step [] user.

Lemma required_user_step_appends existing acc username :
  UserGroupScanner.required_user_step existing acc username
  = acc ++ user_gap existing username.
Proof.
  unfold user_gap, UserGroupScanner.required_user_step.
  case_bool_decide; [by rewrite app_nil_r | done].
Qed.

Lemma required_group_step_appends existing acc groupname :
  UserGroupScanner.required_group_step existing acc groupname
  = acc ++ group_gap existing groupname.
Proof.
  unfold group_gap, UserGroupScanner.required_group_step.
  case_bool_decide; [by rewrite app_nil_r | done].
Qed.

Lemma prohibited_user_step_appends existing acc username :
  UserGroupScanner.prohibited_user_step existing acc username
  = acc ++ user_excess existing username.
Proof.
  unfold user_excess, UserGroupScanner.prohibited_user_step.
  case_bool_decide; [done | by rewrite app_nil_r].
Qed.

Lemma aging_step_appends acc user :
  UserGroupScanner.aging_step acc user = acc ++ aging_gap user.
Proof.
  unfold aging_gap, UserGroupScanner.aging_step.
  destruct (Z.eqb _ _); [by rewrite app_nil_r |]. cbv zeta.
  destruct (_ || _), (Z.ltb (UserGroupScanner.sp_min user) _); cbn [app];
    rewrite <- ?app_assoc, ?app_nil_r; done.
Qed.

Lemma _check_required_entities_run users groups :
  getpwall = Ok users → getgrall = Ok groups →
  UserGroupScanner._check_required_entities getpwall getgrall
  = Ok (concat (user_gap (UserGroupScanner.pw_name <$> users)
                  <$> UserGroupScanner.required_users)
        ++ concat (group_gap (UserGroupScanner.gr_name <$> groups)
                     <$> UserGroupScanner.required_groups)).
Proof.
  intros Husers Hgroups. unfold UserGroupScanner._check_required_entities.
  rewrite Husers, Hgroups. cbv zeta.
  rewrite (fold_left_appends _ _ (required_group_step_appends _)).
  by rewrite (fold_left_appends _ _ (required_user_step_appends _)).
Qed.

Lemma _check_prohibited_users_run users :
  getpwall = Ok users →
  UserGroupScanner._check_prohibited_users getpwall
  = Ok (concat (user_excess (UserGroupScanner.pw_name <$> users)
                  <$> UserGroupScanner.prohibited_users)).
Proof.
  intros Husers. unfold UserGroupScanner._check_prohibited_users.
  rewrite Husers. cbv zeta.
  by rewrite (fold_left_appends _ _ (prohibited_user_step_appends _)).
Qed.

Lemma _check_password_aging_run entries :
  getspall = Ok entries →
  UserGroupScanner._check_password_aging getspall = concat (aging_gap <$> entries).
Proof.
  intros Hentries. unfold UserGroupScanner._check_password_aging.
  rewrite Hentries. by rewrite (fold_left_appends _ _ aging_step_appends).
Qed.

(** The sudo check never raises and leaves the world as it is; it
    always ends in its [except] branch, with the exception of the
    look-up of the group or, when the group is found, with the
    NameError of [os]. *)
Lemma _check_sudo_config_run w :
  UserGroupScanner._check_sudo_config getgrnam w
  = (Ok match getgrnam "sudo" with
        | Raise e => [ sudo_check_error e ]
        | Ok sudo_group =>
            (if Nat.ltb 0 (length (UserGroupScanner.gr_mem sudo_group)) then
               [ UserGroupScanner.failed "V-72047" "Direct Sudo Group Members" "medium"
                   ("Users are directly assigned to sudo group: "
                    +:+ PyStr.join ", " (UserGroupScanner.gr_mem sudo_group))
                   "Remove users from sudo group and use sudoers file for access control" ]
             else [])
            ++ [ sudo_check_error (Exception "name 'os' is not defined") ]
        end, w).
Proof.
  unfold UserGroupScanner._check_sudo_config, try_except.
  destruct (getgrnam "sudo") as [sudo_group | e]; [| reflexivity].
  erewrite run_bind; [| reflexivity].
  set (members := if Nat.ltb 0 (length (UserGroupScanner.gr_mem sudo_group)) then
                    [ UserGroupScanner.failed "V-72047" "Direct Sudo Group Members"
                        "medium"
                        ("Users are directly assigned to sudo group: "
                         +:+ PyStr.join ", " (UserGroupScanner.gr_mem sudo_group))
                        "Remove users from sudo group and use sudoers file for access control" ]
                  else []).
  erewrite (run_bind _ _ _ tt (w, members));
    [| unfold members; by destruct (Nat.ltb 0 _)].
  reflexivity.
Qed.

End ScannerFacts.

(** The findings of the sudo check. *)
Definition sudo_findings (getgrnam : string → Res UserGroupScanner.Group) (w : World)
    : list Finding :=
  default [] (returned (fst (UserGroupScanner._check_sudo_config getgrnam w))).

Lemma _check_sudo_config_returns getgrnam w :
  UserGroupScanner._check_sudo_config getgrnam w = (Ok (sudo_findings getgrnam w), w).
Proof. unfold sudo_findings. by rewrite _check_sudo_config_run. Qed.

Lemma user_group_scan_run getpwall getgrall getspall getpwnam getgrnam users groups w :
  getpwall = Ok users → getgrall = Ok groups →
  UserGroupScanner.scan getpwall getgrall getspall getpwnam getgrnam w
  = (Ok ((concat (user_gap (UserGroupScanner.pw_name <$> users)
                    <$> UserGroupScanner.required_users)
          ++ concat (group_gap (UserGroupScanner.gr_name <$> groups)
                       <$> UserGroupScanner.required_groups))
         ++ concat (user_excess (UserGroupScanner.pw_name <$> users)
                      <$> UserGroupScanner.prohibited_users)
         ++ UserGroupScanner._check_password_aging getspall
         ++ UserGroupScanner._check_root_account getpwnam
         ++ sudo_findings getgrnam w), w).
Proof.
  intros Husers Hgroups. unfold UserGroupScanner.scan.
  rewrite (_check_required_entities_run _ _ _ _ Husers Hgroups).
  rewrite (_check_prohibited_users_run _ _ Husers).
  erewrite run_bind; [| reflexivity].
  erewrite run_bind; [| reflexivity].
  cbv zeta. erewrite run_bind; [| apply _check_sudo_config_returns].
  reflexivity.
Qed.

Ltac solve_info :=
  cbn [app]; repeat (first [apply List.Forall_nil | apply List.Forall_cons]);
  try (by apply failed_is_no_error); try apply check_error_is_info.

Lemma user_gap_info existing username : Forall error_is_info (user_gap existing username).
Proof.
  unfold user_gap, UserGroupScanner.required_user_step.
  case_bool_decide; solve_info.
Qed.

Lemma group_gap_info existing groupname :
  Forall error_is_info (group_gap existing groupname).
Proof.
  unfold group_gap, UserGroupScanner.required_group_step.
  case_bool_decide; solve_info.
Qed.

Lemma user_excess_info existing username :
  Forall error_is_info (user_excess existing username).
Proof.
  unfold user_excess, UserGroupScanner.prohibited_user_step.
  case_bool_decide; solve_info.
Qed.

Lemma aging_gap_info user : Forall error_is_info (aging_gap user).
Proof.
  unfold aging_gap, UserGroupScanner.aging_step.
  destruct (Z.eqb _ _); [constructor |]. cbv zeta.
  destruct (_ || _), (Z.ltb (UserGroupScanner.sp_min user) _); solve_info.
Qed.

Lemma _check_password_aging_info getspall :
  Forall error_is_info (UserGroupScanner._check_password_aging getspall).
Proof.
  destruct getspall as [entries | e] eqn:Hentries.
  - rewrite (_check_password_aging_run _ entries) by done.
    apply concat_Forall, aging_gap_info.
  - unfold UserGroupScanner._check_password_aging. solve_info.
Qed.

Lemma _check_root_account_info getpwnam :
  Forall error_is_info (UserGroupScanner._check_root_account getpwnam).
Proof.
  unfold UserGroupScanner._check_root_account.
  destruct (getpwnam "root") as [root_user | e].
  - destruct (negb (Z.eqb (UserGroupScanner.pw_uid root_user) 0)),
      (negb (Z.eqb (UserGroupScanner.pw_gid root_user) 0)),
      (bool_decide (UserGroupScanner.pw_shell root_user ∈ ["/bin/bash"; "/bin/sh"]));
      solve_info.
  - solve_info.
Qed.

Lemma sudo_findings_info getgrnam w : Forall error_is_info (sudo_findings getgrnam w).
Proof.
  unfold sudo_findings. rewrite _check_sudo_config_run. cbn [fst returned default id].
  unfold sudo_check_error.
  destruct (getgrnam "sudo") as [sudo_group | e].
  - apply Forall_app. split.
    + destruct (Nat.ltb 0 _); solve_info.
    + solve_info.
  - solve_info.
Qed.

(** The sudo check always reports its own failure. *)
Lemma sudo_findings_error getgrnam w :
  "Sudo Configuration Check Error" ∈ f_title <$> sudo_findings getgrnam w.
Proof.
  unfold sudo_findings. rewrite _check_sudo_config_run.
  destruct (getgrnam "sudo") as [sudo_group | e]; cbn [fst returned default id].
  - rewrite fmap_app. apply elem_of_app. right. apply list_elem_of_here.
  - apply list_elem_of_here.
Qed.

(** X23. The scan of users and groups raises exactly what listing
    the users or the groups raises, and then returns no finding at
    all; otherwise it returns and leaves the world as it is, every
    CHECK-ERROR finding it yields has severity info and status error,
    and a failure of the shadow list or of the root entry shows as the
    error finding of its check.  The sudo check always ends in its
    error finding: with the exception of the look-up when the sudo
    group is not found, and with the NameError of [os], which the
    module does not import, when it is. *)
Theorem user_group_scan_raises_only_for_the_account_lists
    (getpwall : Res (list UserGroupScanner.Passwd))
    (getgrall : Res (list UserGroupScanner.Group))
    (getspall : Res (list UserGroupScanner.Shadow))
    (getpwnam : string → Res UserGroupScanner.Passwd)
    (getgrnam : string → Res UserGroupScanner.Group) (w : World) :
  (∀ e, getpwall = Raise e →
        UserGroupScanner.scan getpwall getgrall getspall getpwnam getgrnam w
        = (Raise e, w))
  ∧ (∀ users e, getpwall = Ok users → getgrall = Raise e →
                UserGroupScanner.scan getpwall getgrall getspall getpwnam getgrnam w
                = (Raise e, w))
  ∧ (∀ users groups, getpwall = Ok users → getgrall = Ok groups →
       ∃ findings,
         UserGroupScanner.scan getpwall getgrall getspall getpwnam getgrnam w
         = (Ok findings, w)
         ∧ Forall error_is_info findings
         ∧ (∀ e, getspall = Raise e →
                 "Password Aging Check Error" ∈ f_title <$> findings)
         ∧ (∀ e, getpwnam "root" = Raise e →
                 "Root Account Check Error" ∈ f_title <$> findings)
         ∧ "Sudo Configuration Check Error" ∈ f_title <$> findings
         ∧ (∀ e, getgrnam "sudo" = Raise e → sudo_check_error e ∈ findings)
         ∧ (∀ sudo_group,
              getgrnam "sudo" = Ok sudo_group →
              sudo_check_error (Exception "name 'os' is not defined") ∈ findings)).
Proof.
  split_and!.
  - intros e He. unfold UserGroupScanner.scan,
      UserGroupScanner._check_required_entities. by rewrite He.
  - intros users e Husers He. unfold UserGroupScanner.scan,
      UserGroupScanner._check_required_entities. by rewrite Husers, He.
  - intros users groups Husers Hgroups. eexists.
    split; [by apply user_group_scan_run |].
    split_and!.
    + rewrite !Forall_app. split_and!.
      * apply concat_Forall, user_gap_info.
      * apply concat_Forall, group_gap_info.
      * apply concat_Forall, user_excess_info.
      * apply _check_password_aging_info.
      * apply _check_root_account_info.
      * apply sudo_findings_info.
    + intros e He. rewrite !fmap_app.
      do 2 (apply elem_of_app; right). apply elem_of_app. left.
      unfold UserGroupScanner._check_password_aging. rewrite He.
      apply list_elem_of_here.
    + intros e He. rewrite !fmap_app.
      do 3 (apply elem_of_app; right). apply elem_of_app. left.
      unfold UserGroupScanner._check_root_account. rewrite He.
      apply list_elem_of_here.
    + rewrite !fmap_app. do 4 (apply elem_of_app; right).
      apply sudo_findings_error.
    + intros e He. do 4 (apply elem_of_app; right).
      unfold sudo_findings. rewrite _check_sudo_config_run, He.
      apply list_elem_of_here.
    + intros sudo_group Hgroup. do 4 (apply elem_of_app; right).
      unfold sudo_findings. rewrite _check_sudo_config_run, Hgroup.
      cbn [fst returned default id]. apply elem_of_app. right. apply list_elem_of_here.
Qed.

(** ** The least report of the scan of the accounts *)

(** The password of the account never changes, or it ages within the
    limits. *)
Definition aging_in_order (user : UserGroupScanner.Shadow) : Prop :=
  UserGroupScanner.sp_lstchg user = (-1)%Z
  ∨ ((UserGroupScanner.sp_max user ≤ 60)%Z
     ∧ UserGroupScanner.sp_max user ≠ (-1)%Z
     ∧ (1 ≤ UserGroupScanner.sp_min user)%Z).

Definition accounts_in_order
    (getpwall : Res (list UserGroupScanner.Passwd))
    (getgrall : Res (list UserGroupScanner.Group))
    (getspall : Res (list UserGroupScanner.Shadow))
    (getpwnam : string → Res UserGroupScanner.Passwd)
    (getgrnam : string → Res UserGroupScanner.Group) : Prop :=
  (∃ users,
     getpwall = Ok users
     ∧ Forall (λ name, name ∈ UserGroupScanner.pw_name <$> users)
              UserGroupScanner.required_users
     ∧ Forall (λ name, name ∉ UserGroupScanner.pw_name <$> users)
              UserGroupScanner.prohibited_users)
  ∧ (∃ groups,
       getgrall = Ok groups
       ∧ Forall (λ name, name ∈ UserGroupScanner.gr_name <$> groups)
                UserGroupScanner.required_groups)
  ∧ (∃ entries, getspall = Ok entries ∧ Forall aging_in_order entries)
  ∧ (∃ root_user,
       getpwnam "root" = Ok root_user
       ∧ UserGroupScanner.pw_uid root_user = 0%Z
       ∧ UserGroupScanner.pw_gid root_user = 0%Z
       ∧ UserGroupScanner.pw_shell root_user ∈ ["/bin/bash"; "/bin/sh"])
  ∧ (∀ sudo_group,
       getgrnam "sudo" = Ok sudo_group → UserGroupScanner.gr_mem sudo_group = []).

Lemma user_gap_nil existing name : user_gap existing name = [] ↔ name ∈ existing.
Proof.
  unfold user_gap, UserGroupScanner.required_user_step.
  case_bool_decide; cbn [app]; split; try done.
Qed.

Lemma group_gap_nil existing name : group_gap existing name = [] ↔ name ∈ existing.
Proof.
  unfold group_gap, UserGroupScanner.required_group_step.
  case_bool_decide; cbn [app]; split; try done.
Qed.

Lemma user_excess_nil existing name : user_excess existing name = [] ↔ name ∉ existing.
Proof.
  unfold user_excess, UserGroupScanner.prohibited_user_step.
  case_bool_decide; cbn [app]; split; try done.
Qed.

Lemma aging_gap_nil user : aging_gap user = [] ↔ aging_in_order user.
Proof.
  unfold aging_gap, UserGroupScanner.aging_step, aging_in_order,
    UserGroupScanner.max_password_age, UserGroupScanner.min_password_age.
  destruct (Z.eqb_spec (UserGroupScanner.sp_lstchg user) (-1)); [tauto |]. cbv zeta.
  destruct (Z.ltb_spec 60 (UserGroupScanner.sp_max user)),
    (Z.eqb_spec (UserGroupScanner.sp_max user) (-1)),
    (Z.ltb_spec (UserGroupScanner.sp_min user) 1);
    cbn [orb app]; split; try discriminate; try (intros [? | (? & ? & ?)]; lia);
    intros _; first [reflexivity | right; lia].
Qed.

Lemma Ok_inj {A} (a b : A) : Ok a = Ok b → a = b.
Proof. by intros [= ->]. Qed.

Lemma Forall_iff_nil {A B} (g : B → list A) (P : B → Prop) (l : list B) :
  (∀ x, g x = [] ↔ P x) → Forall (λ x, g x = []) l ↔ Forall P l.
Proof. intros Hg. apply Forall_iff. intros x. apply Hg. Qed.

Lemma _check_root_account_nil getpwnam :
  UserGroupScanner._check_root_account getpwnam = []
  ↔ ∃ root_user,
      getpwnam "root" = Ok root_user
      ∧ UserGroupScanner.pw_uid root_user = 0%Z
      ∧ UserGroupScanner.pw_gid root_user = 0%Z
      ∧ UserGroupScanner.pw_shell root_user ∈ ["/bin/bash"; "/bin/sh"].
Proof.
  unfold UserGroupScanner._check_root_account.
  destruct (getpwnam "root") as [root_user | e].
  - destruct (Z.eqb_spec (UserGroupScanner.pw_uid root_user) 0),
      (Z.eqb_spec (UserGroupScanner.pw_gid root_user) 0);
      case_bool_decide; cbn [negb app]; split; try discriminate;
      try (intros (? & [= <-] & ? & ? & ?); done).
    intros _. by exists root_user.
  - split; [discriminate | by intros (? & [=] & _)].
Qed.

(** The sudo check yields one finding or two: two when the sudo
    group is found and has members. *)
Lemma sudo_findings_length getgrnam w :
  (1 ≤ length (sudo_findings getgrnam w))%nat
  ∧ (length (sudo_findings getgrnam w) = 1%nat
     ↔ ∀ sudo_group,
         getgrnam "sudo" = Ok sudo_group → UserGroupScanner.gr_mem sudo_group = []).
Proof.
  unfold sudo_findings. rewrite _check_sudo_config_run. cbn [fst returned default id].
  destruct (getgrnam "sudo") as [sudo_group | e].
  - destruct (UserGroupScanner.gr_mem sudo_group) as [| member members] eqn:Hmembers;
      cbn [length Nat.ltb Nat.leb app].
    + split; [lia |]. split; [| done]. by intros _ ? [= <-].
    + split; [lia |]. split; [lia |].
      intros Hnone. specialize (Hnone sudo_group eq_refl). congruence.
  - cbn [length]. split; [lia |]. split; [| done]. by intros _ ? [=].
Qed.

Lemma singleton_length {A} (l : list A) : (∃ x, l = [x]) ↔ length l = 1%nat.
Proof.
  split; [by intros [x ->] |].
  destruct l as [| x [| y l]]; try discriminate. eauto.
Qed.

(** X24. The scan of users and groups never returns an empty list:
    the sudo check always adds its error finding.  It returns exactly
    one finding, that one, exactly when the users and groups can be
    listed, root exists, no prohibited user does, the three required
    groups exist, the shadow list can be read and every account in it
    either never changes its password or has a maximum age of at most
    60 days, other than -1, and a minimum age of at least 1, root has
    uid 0, gid 0 and a shell of the two allowed, and the sudo group,
    if it is found, has no member.  What the scan returns does not
    depend on the files of the host: [/etc/sudoers] is never read. *)
Theorem user_group_scan_is_never_clean
    (getpwall : Res (list UserGroupScanner.Passwd))
    (getgrall : Res (list UserGroupScanner.Group))
    (getspall : Res (list UserGroupScanner.Shadow))
    (getpwnam : string → Res UserGroupScanner.Passwd)
    (getgrnam : string → Res UserGroupScanner.Group) (w : World) :
  fst (UserGroupScanner.scan getpwall getgrall getspall getpwnam getgrnam w) ≠ Ok []
  ∧ ((∃ f, fst (UserGroupScanner.scan getpwall getgrall getspall getpwnam getgrnam w)
           = Ok [f]
           ∧ f_title f = "Sudo Configuration Check Error")
     ↔ accounts_in_order getpwall getgrall getspall getpwnam getgrnam)
  ∧ (∀ w',
       fst (UserGroupScanner.scan getpwall getgrall getspall getpwnam getgrnam w')
       = fst (UserGroupScanner.scan getpwall getgrall getspall getpwnam getgrnam w)).
Proof.
  unfold accounts_in_order.
  destruct getpwall as [users | e] eqn:Husers.
  2:{ unfold UserGroupScanner.scan, UserGroupScanner._check_required_entities.
      split_and!; [discriminate | | done].
      split; [by intros (? & [=] & _) | by intros ((? & [=] & _) & _)]. }
  destruct getgrall as [groups | e] eqn:Hgroups.
  2:{ unfold UserGroupScanner.scan, UserGroupScanner._check_required_entities.
      split_and!; [discriminate | | done].
      split; [by intros (? & [=] & _) | by intros (_ & (? & [=] & _) & _)]. }
  assert (Hsame : ∀ w', sudo_findings getgrnam w' = sudo_findings getgrnam w).
  { intros w'. unfold sudo_findings. by rewrite !_check_sudo_config_run. }
  assert (Hrun : ∀ w0,
            fst (UserGroupScanner.scan (Ok users) (Ok groups) getspall getpwnam
                   getgrnam w0)
            = Ok ((concat (user_gap (UserGroupScanner.pw_name <$> users)
                             <$> UserGroupScanner.required_users)
                   ++ concat (group_gap (UserGroupScanner.gr_name <$> groups)
                                <$> UserGroupScanner.required_groups))
                  ++ concat (user_excess (UserGroupScanner.pw_name <$> users)
                               <$> UserGroupScanner.prohibited_users)
                  ++ UserGroupScanner._check_password_aging getspall
                  ++ UserGroupScanner._check_root_account getpwnam
                  ++ sudo_findings getgrnam w)).
  { intros w0. rewrite (user_group_scan_run _ _ _ _ _ users groups) by done.
    cbn [fst]. by rewrite Hsame. }
  assert (Haging : UserGroupScanner._check_password_aging getspall = []
                   ↔ ∃ entries, getspall = Ok entries ∧ Forall aging_in_order entries).
  { destruct getspall as [entries | e] eqn:Hentries.
    - rewrite (_check_password_aging_run _ entries) by done.
      rewrite <- (app_nil_l (concat _)), appended_nil,
        (Forall_iff_nil _ _ _ aging_gap_nil).
      split; [intros [_ Hall]; eauto | by intros (? & [= <-] & ?)].
    - split; [discriminate | by intros (? & [=] & _)]. }
  destruct (sudo_findings_length getgrnam w) as [Hsome Hone].
  pose proof (sudo_findings_error getgrnam w) as Herror.
  rewrite Hrun. split_and!.
  - intros Hnil. apply Ok_inj, (f_equal length) in Hnil.
    rewrite !length_app in Hnil. cbn [length] in Hnil. lia.
  - split.
    + intros (f & Hone_f & _). apply Ok_inj, (f_equal length) in Hone_f.
      rewrite !length_app in Hone_f. cbn [length] in Hone_f.
      assert (Husers_ok : concat (user_gap (UserGroupScanner.pw_name <$> users)
                                    <$> UserGroupScanner.required_users) = [])
        by (apply length_zero_iff_nil; lia).
      assert (Hgroups_ok : concat (group_gap (UserGroupScanner.gr_name <$> groups)
                                     <$> UserGroupScanner.required_groups) = [])
        by (apply length_zero_iff_nil; lia).
      assert (Hprohibited : concat (user_excess (UserGroupScanner.pw_name <$> users)
                                      <$> UserGroupScanner.prohibited_users) = [])
        by (apply length_zero_iff_nil; lia).
      assert (Haging_ok : UserGroupScanner._check_password_aging getspall = [])
        by (apply length_zero_iff_nil; lia).
      assert (Hroot : UserGroupScanner._check_root_account getpwnam = [])
        by (apply length_zero_iff_nil; lia).
      assert (Hsudo : length (sudo_findings getgrnam w) = 1%nat) by lia.
      rewrite <- (app_nil_l (concat _)), appended_nil in Husers_ok.
      rewrite <- (app_nil_l (concat _)), appended_nil in Hgroups_ok.
      rewrite <- (app_nil_l (concat _)), appended_nil in Hprohibited.
      rewrite (Forall_iff_nil _ _ _ (user_gap_nil _)) in Husers_ok.
      rewrite (Forall_iff_nil _ _ _ (group_gap_nil _)) in Hgroups_ok.
      rewrite (Forall_iff_nil _ _ _ (user_excess_nil _)) in Hprohibited.
      apply Haging in Haging_ok. apply _check_root_account_nil in Hroot.
      pose proof (proj1 Hone Hsudo) as Hmembers.
      split_and!; try done.
      * exists users. by destruct Husers_ok, Hprohibited.
      * exists groups. by destruct Hgroups_ok.
    + intros ((users' & [= <-] & Hrequired & Hprohibited)
              & (groups' & [= <-] & Hgroups_ok) & Haging_ok & Hroot & Hsudo).
      apply Haging in Haging_ok. apply _check_root_account_nil in Hroot.
      pose proof (proj2 Hone Hsudo) as Hlength.
      apply singleton_length in Hlength as [f Hf].
      rewrite Haging_ok, Hroot, Hf.
      rewrite <- (Forall_iff_nil _ _ _ (user_gap_nil _)) in Hrequired.
      rewrite <- (Forall_iff_nil _ _ _ (group_gap_nil _)) in Hgroups_ok.
      rewrite <- (Forall_iff_nil _ _ _ (user_excess_nil _)) in Hprohibited.
      assert (H1 : concat (user_gap (UserGroupScanner.pw_name <$> users)
                             <$> UserGroupScanner.required_users) = []).
      { rewrite <- (app_nil_l (concat _)). by apply appended_nil. }
      assert (H2 : concat (group_gap (UserGroupScanner.gr_name <$> groups)
                             <$> UserGroupScanner.required_groups) = []).
      { rewrite <- (app_nil_l (concat _)). by apply appended_nil. }
      assert (H3 : concat (user_excess (UserGroupScanner.pw_name <$> users)
                             <$> UserGroupScanner.prohibited_users) = []).
      { rewrite <- (app_nil_l (concat _)). by apply appended_nil. }
      rewrite H1, H2, H3. exists f. split; [done |].
      rewrite Hf in Herror. cbn in Herror.
      by apply list_elem_of_singleton in Herror.
  - intros w'. by rewrite Hrun.
Qed.

(** * The central server: [verify_api_key] *)

Module CentralServer.

(** What [json.load] returns. *)
#[warnings="-register-all"]
Inductive Json : Type :=
  | JNull
  | JBool (b : bool)
  | JInt (n : Z)
  | JFloat (repr : string)
  | JString (s : string)
  | JArray (items : list Json)
  | JObject (fields : list (string * Json)).

(** [type(value).__name__] *)
Definition type_name (value : Json) : string :=
  match value with
  | JNull => "NoneType"
  | JBool _ => "bool"
  | JInt _ => "int"
  | JFloat _ => "float"
  | JString _ => "str"
  | JArray _ => "list"
  | JObject _ => "dict"
  end.

(** The exceptions of the module: those of [open] and [json.load],
    the one it raises itself, and the two an ill-typed configuration
    leads to. *)
Inductive ServerExn : Type :=
  | Builtin (e : PyExn)
  | HTTPException (status_code : nat) (detail : string)
  | AttributeError (type attribute : string)
  | NotIterable (type : string).

Inductive Answer (A : Type) : Type :=
  | Returns (a : A)
  | Raises (e : ServerExn).
Arguments Returns {A} a.
Arguments Raises {A} e.

(** [d.get(key, default)] on a parsed object *)
Fixpoint object_get (key : string) (fields : list (string * Json)) (default : Json)
    : Json :=
  match fields with
  | [] => default
  | (k, v) :: rest => if String.eqb k key then v else object_get key rest default
  end.

(** [config.get("api_keys", {})] *)
Definition get_api_keys (config : Json) : Answer Json :=
  match config with
  | JObject fields => Returns (object_get "api_keys" fields (JObject []))
  | _ => Raises (AttributeError (type_name config) "get")
  end.

(** [api_key in valid_keys] *)
Definition key_in (api_key : string) (valid_keys : Json) : Answer bool :=
  match valid_keys with
  | JObject fields => Returns (bool_decide (api_key ∈ fields.*1))
  | JArray items =>
      Returns (existsb (fun item => match item with
                                    | JString s => String.eqb s api_key
                                    | _ => false
                                    end) items)
  | JString s => Returns (PyStr.contains api_key s)
  | _ => Raises (NotIterable (type_name valid_keys))
  end.

Section Auth.

(** [open(config_path)] followed by [json.load(f)]. *)
Variable load_config : Res Json.

(** [str(e)]; for an [HTTPException] it depends on the version of
    Starlette. *)
Variable str : ServerExn -> string.

Definition verify_api_key (api_key : string) : Answer bool :=
  let body : Answer bool :=
    match load_config with
    | Raise e => Raises (Builtin e)
    | Ok config =>
        match get_api_keys config with
        | Raises e => Raises e
        | Returns valid_keys =>
            match key_in api_key valid_keys with
            | Raises e => Raises e
            | Returns present =>
                if negb present
                then Raises (HTTPException 403 "Invalid API key")
                else Returns true
            end
        end
    end in
  match body with
  | Returns result => Returns result
  | Raises e =>
      Raises (HTTPException 500 ("Error verifying API key: " +:+ str e))
  end.

End Auth.
End CentralServer.

(** ** An invalid key *)

(** X20. [verify_api_key] returns [True] or raises an HTTPException
    with status 500, never one with status 403: with a configuration
    whose [api_keys] is an object, a key of the object is accepted,
    and any other key is answered 500, the detail quoting the 403
    exception raised and caught inside. *)
Theorem invalid_key_is_answered_500
    (load_config : Res CentralServer.Json)
    (str : CentralServer.ServerExn → string) (api_key : string) :
  (CentralServer.verify_api_key load_config str api_key = CentralServer.Returns true
   ∨ ∃ detail,
       CentralServer.verify_api_key load_config str api_key
       = CentralServer.Raises (CentralServer.HTTPException 500 detail))
  ∧ (∀ fields keys,
       load_config = Ok (CentralServer.JObject fields) →
       CentralServer.object_get "api_keys" fields (CentralServer.JObject [])
       = CentralServer.JObject keys →
       (api_key ∈ keys.*1 →
        CentralServer.verify_api_key load_config str api_key
        = CentralServer.Returns true)
       ∧ (api_key ∉ keys.*1 →
          CentralServer.verify_api_key load_config str api_key
          = CentralServer.Raises
              (CentralServer.HTTPException 500
                 ("Error verifying API key: "
                  +:+ str (CentralServer.HTTPException 403 "Invalid API key"))))).
Proof.
  unfold CentralServer.verify_api_key. split.
  - destruct load_config as [config | e]; [| eauto].
    destruct (CentralServer.get_api_keys config) as [valid_keys | e]; [| eauto].
    destruct (CentralServer.key_in api_key valid_keys) as [[|] | e]; cbn; eauto.
  - intros fields keys -> Hkeys. cbn. rewrite Hkeys. cbn. split; intros Hkey.
    + by rewrite bool_decide_eq_true_2.
    + by rewrite bool_decide_eq_false_2.
Qed.

(** * [FilePermissionScanner]: the critical files *)

Module FilePermissionScanner.

(** The integer an octal literal [0o...] denotes, from its digits. *)
Definition octal (digits : list N) : N :=
  fold_left (fun value digit => (8 * value + digit)%N) digits 0%N.

(** The digits of [oct(n)], most significant first. *)
Fixpoint oct_digits (fuel : nat) (n : N) (digits : string) : string :=
  match fuel with
  | O => digits
  | S fuel =>
      let digits := String (ascii_of_N (48 + n mod 8)) digits in
      if N.eqb (n / 8) 0 then digits else oct_digits fuel (n / 8)%N digits
  end.

(** [oct(n)] for a non-negative [n] *)
Definition oct (n : N) : string :=
  "0o" +:+ oct_digits (S (N.size_nat n)) n "".

(** [s[2:]] *)
Definition drop2 (s : string) : string :=
  match s with
  | String _ (String _ rest) => rest
  | _ => ""
  end.

(** The fields the scanner reads of an [os.stat] result. *)
Record Stat : Type := mkStat {
  st_mode : N;
  st_uid : N;
  st_gid : N
}.

(** An entry of [self.critical_files]. *)
Record Required : Type := mkRequired {
  mode : N;
  owner : string;
  group : string
}.

Definition critical_files : list (string * Required) :=
  [ ("/etc/passwd", mkRequired (octal [6; 4; 4]%N) "root" "root");
    ("/etc/shadow", mkRequired (octal [6; 4; 0]%N) "root" "shadow");
    ("/etc/group", mkRequired (octal [6; 4; 4]%N) "root" "root");
    ("/etc/gshadow", mkRequired (octal [6; 4; 0]%N) "root" "shadow");
    ("/etc/ssh/sshd_config", mkRequired (octal [6; 0; 0]%N) "root" "root");
    ("/etc/sudoers", mkRequired (octal [4; 4; 0]%N) "root" "root") ].

(** [stat.S_IMODE] *)
Definition S_IMODE (st_mode : N) : N := N.land st_mode (octal [7; 7; 7; 7]%N).

(** [stat.S_IROTH], [stat.S_IWOTH] and [stat.S_ISVTX] *)
Definition S_IROTH : N := octal [4]%N.
Definition S_IWOTH : N := octal [2]%N.
Definition S_ISVTX : N := octal [1; 0; 0; 0]%N.

Definition check_world_writable : list string := ["/tmp"; "/var/tmp"; "/var/log"].

(** [s.endswith('/')] *)
Fixpoint ends_with_slash (s : string) : bool :=
  match s with
  | EmptyString => false
  | String c EmptyString => Ascii.eqb c "/"%char
  | String _ rest => ends_with_slash rest
  end.

(** [os.path.join(a, b)] of [posixpath] *)
Definition os_path_join (a b : string) : string :=
  if String.prefix "/" b then b
  else if String.eqb a "" || ends_with_slash a then a +:+ b
  else a +:+ "/" +:+ b.

Definition finding (rule_id title status severity description fix_text : string)
    : Finding :=
  {| f_severity := severity;
     f_rule_id := rule_id;
     f_title := title;
     f_status := status;
     f_description := description;
     f_fix := fix_text;
     f_check_type := "file_permission" |}.

Section Scanner.

(** The file system and the account databases as the scanner sees
    them: [os.path.exists], [os.stat], the names
    [pwd.getpwuid(uid).pw_name] and [grp.getgrgid(gid).gr_name],
    [os.path.isdir], what the generator [os.walk(directory)] yields
    and the exception it ends with if it ends with one, and for
    [open(path, 'r')] the exception it raises or the text that
    iterating over the file gives, newlines translated, with the
    exception the reading ends with if it ends with one.  The host is
    taken not to change while it is scanned: a second look at a path
    gives what the first gave. *)
Variable exists_ : string -> bool.
Variable os_stat : string -> Res Stat.
Variable getpwuid : N -> Res string.
Variable getgrgid : N -> Res string.
Variable isdir : string -> bool.
Variable os_walk : string -> list (string * list string * list string) * option PyExn.
Variable open_text : string -> Res (string * option PyExn).

(** The [try] block of one turn of the loop, from [os.stat] on: the
    findings it appends, or what it raises before it appends any. *)
Definition inspect (filepath : string) (required : Required) : Res (list Finding) :=
  match os_stat filepath with
  | Raise e => Raise e
  | Ok stat_info =>
      let current_mode := S_IMODE (st_mode stat_info) in
      match getpwuid (st_uid stat_info) with
      | Raise e => Raise e
      | Ok current_owner =>
          match getgrgid (st_gid stat_info) with
          | Raise e => Raise e
          | Ok current_group =>
              Ok ((if negb (N.eqb current_mode (mode required)) then
                     [ finding "V-72013" ("Incorrect File Permissions: " +:+ filepath)
                         "failed" "high"
                         ("File " +:+ filepath +:+ " has incorrect permissions: "
                          +:+ oct current_mode +:+ " (should be "
                          +:+ oct (mode required) +:+ ")")
                         ("chmod " +:+ drop2 (oct (mode required)) +:+ " "
                          +:+ filepath) ]
                   else [])
                  ++ (if negb (String.eqb current_owner (owner required))
                         || negb (String.eqb current_group (group required)) then
                        [ finding "V-72015" ("Incorrect File Ownership: " +:+ filepath)
                            "failed" "high"
                            ("File " +:+ filepath +:+ " has incorrect ownership: "
                             +:+ current_owner +:+ ":" +:+ current_group
                             +:+ " (should be " +:+ owner required +:+ ":"
                             +:+ group required +:+ ")")
                            ("chown " +:+ owner required +:+ ":" +:+ group required
                             +:+ " " +:+ filepath) ]
                      else []))
          end
      end
  end.

(** One turn of [for filepath, required in self.critical_files.items()]. *)
Definition critical_file_step (findings : list Finding)
    (entry : string * Required) : list Finding :=
  let '(filepath, required) := entry in
  if negb (exists_ filepath) then
    findings ++ [ finding "V-72011" ("Missing Critical File: " +:+ filepath)
                    "failed" "high"
                    ("Critical system file " +:+ filepath +:+ " is missing")
                    ("Restore " +:+ filepath
                     +:+ " from system backup or reinstall package") ]
  else
    match inspect filepath required with
    | Ok found => findings ++ found
    | Raise e =>
        findings ++ [ finding "CHECK-ERROR"
                        ("File Permission Check Error: " +:+ filepath)
                        "error" "info"
                        ("Error checking file permissions: " +:+ str_exn e)
                        "Ensure proper permissions to read file attributes" ]
    end.

Definition _check_critical_files : list Finding :=
  fold_left critical_file_step critical_files [].

(** One turn of [for name in files + dirs], under one [directory] and
    one [root] of the walk. *)
Definition world_writable_step (directory root : string)
    (findings : list Finding) (name : string) : list Finding :=
  let filepath := os_path_join root name in
  match os_stat filepath with
  | Raise _ => findings
  | Ok stat_info =>
      let mode := S_IMODE (st_mode stat_info) in
      if negb (N.eqb (N.land mode S_IWOTH) 0) then
        if bool_decide (directory ∈ ["/tmp"; "/var/tmp"])
           && isdir filepath
           && negb (N.eqb (N.land mode S_ISVTX) 0)
        then findings
        else
          findings ++ [ finding "V-72017" ("World-Writable File: " +:+ filepath)
                          "failed" "medium"
                          ("File " +:+ filepath +:+ " is world-writable (mode: "
                           +:+ oct mode +:+ ")")
                          ("chmod o-w " +:+ filepath) ]
      else findings
  end.

(** One turn of [for root, dirs, files in os.walk(directory)]. *)
Definition walk_step (directory : string) (findings : list Finding)
    (yielded : string * list string * list string) : list Finding :=
  let '(root, dirs, files) := yielded in
  fold_left (world_writable_step directory root) (files ++ dirs) findings.

(** One turn of [for directory in self.check_world_writable]: what the
    walk raises in the end is logged and leaves the findings as they
    are. *)
Definition directory_step (findings : list Finding) (directory : string)
    : list Finding :=
  fold_left (walk_step directory) (fst (os_walk directory)) findings.

Definition _check_world_writable_files : list Finding :=
  fold_left directory_step check_world_writable [].

(** The inner [try] block of [_check_home_directories]. *)
Definition home_directory (findings : list Finding) (username home_dir : string)
    : list Finding :=
  if exists_ home_dir then
    match os_stat home_dir with
    | Raise _ => findings
    | Ok stat_info =>
        let mode := S_IMODE (st_mode stat_info) in
        let findings :=
          if negb (N.eqb (N.land mode (N.lor S_IROTH S_IWOTH)) 0) then
            findings ++ [ finding "V-72019" ("Insecure Home Directory: " +:+ home_dir)
                            "failed" "medium"
                            ("Home directory " +:+ home_dir +:+ " for user "
                             +:+ username +:+ " has incorrect permissions: "
                             +:+ oct mode)
                            ("chmod o-rw " +:+ home_dir) ]
          else findings in
        match getpwuid (st_uid stat_info) with
        | Raise _ => findings
        | Ok owner =>
            if negb (String.eqb owner username) && negb (String.eqb owner "root") then
              findings ++ [ finding "V-72021"
                              ("Incorrect Home Directory Ownership: " +:+ home_dir)
                              "failed" "medium"
                              ("Home directory " +:+ home_dir +:+ " is owned by "
                               +:+ owner +:+ " instead of " +:+ username)
                              ("chown " +:+ username +:+ " " +:+ home_dir) ]
            else findings
        end
    end
  else findings.

(** One turn of [for line in f]. *)
Definition passwd_line_step (findings : list Finding) (line : string)
    : list Finding :=
  if String.eqb (PyStr.strip line) "" || String.prefix "#" line then findings
  else
    let fields := PyStr.split ":"%char (PyStr.strip line) in
    if Nat.leb 6 (length fields) then
      let username := nth 0 fields "" in
      let home_dir := nth 5 fields "" in
      if negb (String.eqb home_dir "") && negb (String.eqb home_dir "/") then
        home_directory findings username home_dir
      else findings
    else findings.

Definition home_directory_error (e : PyExn) : Finding :=
  finding "CHECK-ERROR" "Home Directory Check Error" "error" "info"
    ("Error checking home directories: " +:+ str_exn e)
    "Ensure proper permissions to read passwd file".

Definition _check_home_directories : list Finding :=
  match open_text "/etc/passwd" with
  | Raise e => [home_directory_error e]
  | Ok (content, ending) =>
      let findings := fold_left passwd_line_step (PyStr.readlines content) [] in
      match ending with
      | Some e => findings ++ [home_directory_error e]
      | None => findings
      end
  end.

Definition scan : list Finding :=
  let findings := [] in
  let findings := findings ++ _check_critical_files in
  let findings := findings ++ _check_world_writable_files in
  let findings := findings ++ _check_home_directories in
  findings.

End Scanner.
End FilePermissionScanner.


(** ** A clean report on the critical files *)

Lemma oct_of_file_modes :
  FilePermissionScanner.oct (FilePermissionScanner.octal [6; 4; 4]%N) = "0o644"
  ∧ FilePermissionScanner.oct (FilePermissionScanner.octal [1; 0; 0; 6; 4; 4]%N)
    = "0o100644"
  ∧ FilePermissionScanner.oct 0 = "0o0"
  ∧ FilePermissionScanner.oct 8 = "0o10".
Proof. by vm_compute. Qed.

Section CriticalFiles.
Variable exists_ : string → bool.
Variable os_stat : string → Res FilePermissionScanner.Stat.
Variable getpwuid : N → Res string.
Variable getgrgid : N → Res string.

(** A critical file as its entry of the table requires it: it exists,
    its attributes and the names of its owner and group can be read,
    its permission bits are the required ones and so are the names. *)
Definition file_in_order (entry : string * FilePermissionScanner.Required) : Prop :=
  exists_ entry.1 = true
  ∧ ∃ stat_info,
      os_stat entry.1 = Ok stat_info
      ∧ FilePermissionScanner.S_IMODE (FilePermissionScanner.st_mode stat_info)
        = FilePermissionScanner.mode entry.2
      ∧ getpwuid (FilePermissionScanner.st_uid stat_info)
        = Ok (FilePermissionScanner.owner entry.2)
      ∧ getgrgid (FilePermissionScanner.st_gid stat_info)
        = Ok (FilePermissionScanner.group entry.2).

Lemma critical_file_step_appends findings entry :
  FilePermissionScanner.critical_file_step exists_ os_stat getpwuid getgrgid
    findings entry
  = findings
    ++ FilePermissionScanner.critical_file_step exists_ os_stat getpwuid getgrgid
         [] entry.
Proof.
  destruct entry as [filepath required].
  unfold FilePermissionScanner.critical_file_step.
  destruct (negb (exists_ filepath)); [done |].
  by destruct (FilePermissionScanner.inspect _ _ _ _ _).
Qed.

Lemma critical_file_step_nil entry :
  FilePermissionScanner.critical_file_step exists_ os_stat getpwuid getgrgid [] entry
  = []
  ↔ file_in_order entry.
Proof.
  destruct entry as [filepath required].
  unfold FilePermissionScanner.critical_file_step, FilePermissionScanner.inspect,
    file_in_order.
  cbn [fst snd].
  destruct (exists_ filepath); cbn [negb];
    [| split; [discriminate | intros [? _]; discriminate]].
  destruct (os_stat filepath) as [stat_info | e];
    [| split; [discriminate | intros [_ (? & ? & _)]; discriminate]].
  destruct (getpwuid (FilePermissionScanner.st_uid stat_info))
    as [current_owner | e] eqn:Howner;
    [| split; [discriminate | intros [_ (? & [= <-] & _ & ? & _)]; congruence]].
  destruct (getgrgid (FilePermissionScanner.st_gid stat_info))
    as [current_group | e] eqn:Hgroup;
    [| split; [discriminate | intros [_ (? & [= <-] & _ & _ & ?)]; congruence]].
  destruct (N.eqb_spec
              (FilePermissionScanner.S_IMODE (FilePermissionScanner.st_mode stat_info))
              (FilePermissionScanner.mode required)) as [Hmode | Hmode];
    cbn [negb];
    [| split; [discriminate | intros [_ (? & [= <-] & ? & _)]; done]].
  destruct (String.eqb_spec current_owner (FilePermissionScanner.owner required))
    as [-> | Hname]; cbn [negb orb];
    [| split; [discriminate | intros [_ (? & [= <-] & _ & ? & _)]; congruence]].
  destruct (String.eqb_spec current_group (FilePermissionScanner.group required))
    as [-> | Hname]; cbn [negb];
    [| split; [discriminate | intros [_ (? & [= <-] & _ & _ & ?)]; congruence]].
  split; [| done]. intros _. split; [done |]. by exists stat_info.
Qed.

(** X25. [_check_critical_files] returns no finding exactly when each
    of the six critical files exists, [os.stat] and the look-ups of
    its owner's and group's names succeed, the mode masked by
    [stat.S_IMODE] equals the required mode, and owner and group bear
    the required names. A file whose attributes cannot be read is
    therefore never passed over in silence, and the bits of the file
    type above the twelve permission bits play no part. *)
Theorem critical_files_are_clean_exactly_when_in_order :
  FilePermissionScanner._check_critical_files exists_ os_stat getpwuid getgrgid = []
  ↔ Forall file_in_order FilePermissionScanner.critical_files.
Proof.
  unfold FilePermissionScanner._check_critical_files.
  rewrite (fold_left_appends
             (FilePermissionScanner.critical_file_step exists_ os_stat getpwuid getgrgid)
             (FilePermissionScanner.critical_file_step exists_ os_stat getpwuid getgrgid
                []))
    by apply critical_file_step_appends.
  rewrite appended_nil.
  rewrite (Forall_iff_nil
             (FilePermissionScanner.critical_file_step exists_ os_stat getpwuid getgrgid
                [])
             file_in_order)
    by apply critical_file_step_nil.
  tauto.
Qed.

End CriticalFiles.

(** ** Which failures a scan reports *)

Lemma concat_Forall_in {A B} (P : A → Prop) (g : B → list A) (l : list B) :
  (∀ x, x ∈ l → Forall P (g x)) → Forall P (concat (g <$> l)).
Proof.
  induction l as [| x l IH]; intros Hg; [constructor |].
  rewrite fmap_cons. cbn [concat]. apply Forall_app. split.
  - apply Hg. apply list_elem_of_here.
  - apply IH. intros y Hy. apply Hg. by apply list_elem_of_further.
Qed.

Section ScanErrors.
Variable exists_ : string → bool.
Variable os_stat : string → Res FilePermissionScanner.Stat.
Variable getpwuid : N → Res string.
Variable getgrgid : N → Res string.
Variable isdir : string → bool.
Variable os_walk : string → list (string * list string * list string) * option PyExn.
Variable open_text : string → Res (string * option PyExn).

(** The entry for a critical file that exists and whose attributes,
    or the name of whose owner or group, could not be read. *)
Definition unreadable_critical_file (f : Finding) : Prop :=
  ∃ filepath required e,
    (filepath, required) ∈ FilePermissionScanner.critical_files
    ∧ exists_ filepath = true
    ∧ FilePermissionScanner.inspect os_stat getpwuid getgrgid filepath required
      = Raise e
    ∧ f_title f = "File Permission Check Error: " +:+ filepath.

(** The entry for [/etc/passwd] when it could not be opened, or not be
    read to its end. *)
Definition unreadable_passwd (f : Finding) : Prop :=
  f_title f = "Home Directory Check Error"
  ∧ ∃ e, open_text "/etc/passwd" = Raise e
         ∨ ∃ content, open_text "/etc/passwd" = Ok (content, Some e).

Definition accounted_for (f : Finding) : Prop :=
  f_status f = "failed" ∨ unreadable_critical_file f ∨ unreadable_passwd f.

Lemma _check_critical_files_accounted_for :
  Forall accounted_for
    (FilePermissionScanner._check_critical_files exists_ os_stat getpwuid getgrgid).
Proof.
  unfold FilePermissionScanner._check_critical_files.
  rewrite (fold_left_appends
             (FilePermissionScanner.critical_file_step exists_ os_stat getpwuid getgrgid)
             (FilePermissionScanner.critical_file_step exists_ os_stat getpwuid getgrgid
                []))
    by apply critical_file_step_appends.
  rewrite app_nil_l. apply concat_Forall_in.
  intros [filepath required] Hin.
  unfold FilePermissionScanner.critical_file_step.
  destruct (exists_ filepath) eqn:Hexists; cbn [negb].
  - destruct (FilePermissionScanner.inspect os_stat getpwuid getgrgid filepath required)
      as [found | e] eqn:Hinspect.
    + rewrite app_nil_l.
      unfold FilePermissionScanner.inspect in Hinspect.
      destruct (os_stat filepath); [| discriminate].
      destruct (getpwuid _); [| discriminate].
      destruct (getgrgid _); [| discriminate].
      apply Ok_inj in Hinspect. subst found.
      apply Forall_app. split.
      * destruct (negb _); repeat constructor.
      * destruct (_ || _); repeat constructor.
    + rewrite app_nil_l. constructor; [| constructor].
      right. left. by exists filepath, required, e.
  - rewrite app_nil_l. repeat constructor.
Qed.

Lemma world_writable_step_accounted_for directory root findings name :
  Forall accounted_for findings →
  Forall accounted_for
    (FilePermissionScanner.world_writable_step os_stat isdir directory root
       findings name).
Proof.
  intros Hfindings. unfold FilePermissionScanner.world_writable_step.
  destruct (os_stat _); [| done].
  destruct (negb _); [| done].
  destruct (_ && _); [done |].
  apply Forall_app. split; [done |]. repeat constructor.
Qed.

Lemma _check_world_writable_files_accounted_for :
  Forall accounted_for
    (FilePermissionScanner._check_world_writable_files os_stat isdir os_walk).
Proof.
  unfold FilePermissionScanner._check_world_writable_files.
  apply (fold_left_invariant (Forall accounted_for)); [| constructor].
  intros findings directory Hfindings.
  unfold FilePermissionScanner.directory_step.
  apply (fold_left_invariant (Forall accounted_for)); [| done].
  clear findings Hfindings. intros findings [[root dirs] files] Hfindings.
  unfold FilePermissionScanner.walk_step.
  apply (fold_left_invariant (Forall accounted_for)); [| done].
  intros ? ?. apply world_writable_step_accounted_for.
Qed.

Lemma passwd_line_step_accounted_for findings line :
  Forall accounted_for findings →
  Forall accounted_for
    (FilePermissionScanner.passwd_line_step exists_ os_stat getpwuid findings line).
Proof.
  intros Hfindings. unfold FilePermissionScanner.passwd_line_step.
  destruct (_ || _); [done |].
  destruct (Nat.leb _ _); [| done].
  destruct (_ && _); [| done].
  unfold FilePermissionScanner.home_directory.
  destruct (exists_ _); [| done].
  destruct (os_stat _); [| done].
  set (reported := if negb _ then _ else _).
  assert (Forall accounted_for reported) as Hreported.
  { subst reported. destruct (negb _); [| done].
    apply Forall_app. split; [done |]. repeat constructor. }
  destruct (getpwuid _); [| done].
  destruct (_ && _); [| done].
  apply Forall_app. split; [done |]. repeat constructor.
Qed.

Lemma _check_home_directories_accounted_for :
  Forall accounted_for
    (FilePermissionScanner._check_home_directories exists_ os_stat getpwuid open_text).
Proof.
  unfold FilePermissionScanner._check_home_directories.
  destruct (open_text "/etc/passwd") as [[content ending] | e] eqn:Hopen.
  - assert (Forall accounted_for
              (fold_left
                 (FilePermissionScanner.passwd_line_step exists_ os_stat getpwuid)
                 (PyStr.readlines content) [])) as Hlines.
    { apply (fold_left_invariant (Forall accounted_for)); [| constructor].
      intros ? ?. apply passwd_line_step_accounted_for. }
    destruct ending as [e |]; [| done].
    apply Forall_app. split; [done |]. constructor; [| constructor].
    right. right. split; [done |]. exists e. right. by exists content.
  - constructor; [| constructor].
    right. right. split; [done |]. exists e. by left.
Qed.

(** X26. Every finding of [FilePermissionScanner.scan] either has
    status ["failed"], or is the entry for a critical file that
    exists and whose [os.stat], owner name or group name could not be
    read, or is the entry for [/etc/passwd] that could not be opened
    or read to its end. What [os.walk] raises, what [os.stat] raises
    on a walked path or on a home directory, and what [pwd.getpwuid]
    raises for the owner of a home directory leave no entry: those
    paths are passed over. *)
Theorem file_permission_scan_passes_over_unreadable_paths :
  Forall accounted_for
    (FilePermissionScanner.scan exists_ os_stat getpwuid getgrgid isdir os_walk
       open_text).
Proof.
  unfold FilePermissionScanner.scan. rewrite app_nil_l.
  repeat (apply Forall_app; split).
  - apply _check_critical_files_accounted_for.
  - apply _check_world_writable_files_accounted_for.
  - apply _check_home_directories_accounted_for.
Qed.

End ScanErrors.

(** * The Windows scanner: [STIGScanner] *)

Module STIGScanner.

(** A finding of the Windows scanner: six keys, no ["check_type"]. *)
Record Finding : Type := mkFinding {
  severity : string;
  rule_id : string;
  title : string;
  status : string;
  description : string;
  fix_text : string
}.

(** What [winreg.QueryValueEx] gives for a value, by registry type:
    an [int] for a DWORD or QWORD, a [str], a list of [str], [bytes],
    or [None]. *)
Inductive RegValue : Type :=
  | RegInt (n : Z)
  | RegStr (s : string)
  | RegMulti (l : list string)
  | RegBytes (b : list N)
  | RegNone.

(** [value != expected] for an [int] on the right *)
Definition differs (value : RegValue) (expected : Z) : bool :=
  match value with
  | RegInt n => negb (Z.eqb n expected)
  | _ => true
  end.

(** An entry of [registry_checks]. *)
Record RegistryCheck : Type := mkRegistryCheck {
  rc_path : string;
  rc_name : string;
  rc_expected_value : Z;
  rc_rule_id : string;
  rc_title : string;
  rc_description : string;
  rc_severity : string
}.

Definition registry_checks : list RegistryCheck :=
  [ mkRegistryCheck "SOFTWARE\Microsoft\Windows\CurrentVersion\Policies\System"
      "NoConnectedUser" 1 "V-63447" "Microsoft Accounts"
      "Microsoft accounts must not be used for local account authentication."
      "medium";
    mkRegistryCheck "SOFTWARE\Microsoft\Windows\CurrentVersion\Policies\System"
      "EnableLUA" 1 "V-63449" "User Account Control"
      "User Account Control must be enabled."
      "high" ].

(** An entry of [services_to_check]. *)
Record ServiceCheck : Type := mkServiceCheck {
  sv_name : string;
  sv_expected_state : string;
  sv_rule_id : string;
  sv_title : string;
  sv_description : string;
  sv_severity : string
}.

Definition services_to_check : list ServiceCheck :=
  [ mkServiceCheck "RemoteRegistry" "stopped" "V-63545" "Remote Registry Service"
      "Remote Registry service must be disabled." "medium";
    mkServiceCheck "Telnet" "stopped" "V-63547" "Telnet Service"
      "Telnet service must be disabled." "high" ].

(** The ["summary"] of a report. *)
Record Summary : Type := mkSummary {
  total_findings : nat;
  high_severity : nat;
  medium_severity : nat;
  low_severity : nat
}.

Record Report : Type := mkReport {
  timestamp : string;
  hostname : string;
  os_info : string;
  findings : list Finding;
  summary : Summary
}.

Section Scanner.

(** The host as the scanner sees it: for [subprocess.run(argv, ...)]
    the [stdout] of the finished process as the scanner reads it, or
    the exception raised; for [open('secpol.cfg', 'r')] and [read] the
    text; for [os.remove('secpol.cfg')] its return; for the registry
    the value that [OpenKey], [QueryValueEx] and [CloseKey] in a row
    give for a path and a name, or the exception the first of them to
    fail raises. *)
Variable run : list string -> Res string.
Variable read_policy : Res string.
Variable remove_policy : Res unit.
Variable registry_value : string -> string -> Res RegValue.

Definition check_password_policy (findings : list Finding) : list Finding :=
  let failed e :=
    [ mkFinding "info" "CHECK-ERROR" "Password Policy Check Error" "Error"
        ("Error checking password policy: " +:+ str_exn e)
        "Ensure you have appropriate permissions to check security policy." ] in
  match run ["secedit"; "/export"; "/cfg"; "secpol.cfg"] with
  | Raise e => findings ++ failed e
  | Ok _ =>
      match read_policy with
      | Raise e => findings ++ failed e
      | Ok policy_data =>
          let findings :=
            if negb (PyStr.contains "MinimumPasswordLength = 14" policy_data) then
              findings ++
              [ mkFinding "high" "V-63405" "Minimum Password Length" "Open"
                  "Minimum password length must be configured to 14 characters."
                  "Configure minimum password length to 14 characters in Security Policy." ]
            else findings in
          let findings :=
            if negb (PyStr.contains "PasswordComplexity = 1" policy_data) then
              findings ++
              [ mkFinding "high" "V-63407" "Password Complexity" "Open"
                  "Password complexity requirements must be enabled."
                  "Enable password complexity requirements in Security Policy." ]
            else findings in
          match remove_policy with
          | Raise e => findings ++ failed e
          | Ok _ => findings
          end
      end
  end.

Definition check_audit_policy (findings : list Finding) : list Finding :=
  match run ["auditpol"; "/get"; "/category:*"] with
  | Raise e =>
      findings ++
      [ mkFinding "info" "CHECK-ERROR" "Audit Policy Check Error" "Error"
          ("Error checking audit policy: " +:+ str_exn e)
          "Ensure you have appropriate permissions to check audit policy." ]
  | Ok audit_data =>
      if PyStr.contains "Account Logon" audit_data
         && negb (PyStr.contains "Success and Failure" audit_data) then
        findings ++
        [ mkFinding "medium" "V-63463" "Audit Account Logon" "Open"
            "Account logon events must be audited."
            "Configure audit policy to audit Account Logon events for Success and Failure." ]
      else findings
  end.

(** One turn of [for check in registry_checks]. *)
Definition registry_step (findings : list Finding) (check : RegistryCheck)
    : list Finding :=
  match registry_value (rc_path check) (rc_name check) with
  | Raise e =>
      findings ++
      [ mkFinding "info" "CHECK-ERROR"
          ("Registry Check Error - " +:+ rc_title check) "Error"
          ("Error checking registry setting: " +:+ str_exn e)
          "Ensure you have appropriate permissions to read registry settings." ]
  | Ok value =>
      if differs value (rc_expected_value check) then
        findings ++
        [ mkFinding (rc_severity check) (rc_rule_id check) (rc_title check) "Open"
            (rc_description check)
            ("Set registry value " +:+ rc_path check +:+ "\" +:+ rc_name check
             +:+ " to " +:+ pretty (rc_expected_value check)) ]
      else findings
  end.

Definition check_registry_settings (findings : list Finding) : list Finding :=
  fold_left registry_step registry_checks findings.

(** One turn of [for service in services_to_check]. *)
Definition service_step (findings : list Finding) (service : ServiceCheck)
    : list Finding :=
  match run ["sc"; "query"; sv_name service] with
  | Raise e =>
      findings ++
      [ mkFinding "info" "CHECK-ERROR"
          ("Service Check Error - " +:+ sv_title service) "Error"
          ("Error checking service: " +:+ str_exn e)
          "Ensure you have appropriate permissions to query services." ]
  | Ok stdout =>
      if PyStr.contains "RUNNING" stdout
         && String.eqb (sv_expected_state service) "stopped" then
        findings ++
        [ mkFinding (sv_severity service) (sv_rule_id service) (sv_title service)
            "Open" (sv_description service)
            ("Stop and disable the " +:+ sv_name service +:+ " service.") ]
      else findings
  end.

Definition check_service_settings (findings : list Finding) : list Finding :=
  fold_left service_step services_to_check findings.

(** [run_scan] on a scanner whose [self.findings] is [findings]. *)
Definition run_scan (findings : list Finding) : list Finding :=
  let findings := check_password_policy findings in
  let findings := check_audit_policy findings in
  let findings := check_registry_settings findings in
  check_service_settings findings.

End Scanner.

(** [len([f for f in findings if f['severity'] == level])] *)
Definition count_severity (level : string) (findings : list Finding) : nat :=
  length (List.filter (fun f => String.eqb (severity f) level) findings).

(** The [report] that [generate_report] dumps and whose summary it
    prints, with [datetime.now().isoformat()] given. *)
Definition generate_report (now hostname os_info : string)
    (findings : list Finding) : Report :=
  {| timestamp := now;
     hostname := hostname;
     os_info := os_info;
     findings := findings;
     summary :=
       {| total_findings := length findings;
          high_severity := count_severity "high" findings;
          medium_severity := count_severity "medium" findings;
          low_severity := count_severity "low" findings |} |}.

End STIGScanner.

(** ** The summary of a report *)

(** What the checks append: an open finding of high or medium
    severity, or the entry for a check that raised. *)
Definition open_or_error (f : STIGScanner.Finding) : Prop :=
  (STIGScanner.status f = "Open"
   ∧ (STIGScanner.severity f = "high" ∨ STIGScanner.severity f = "medium"))
  ∨ (STIGScanner.status f = "Error" ∧ STIGScanner.severity f = "info").

Lemma count_severity_cons level f findings :
  STIGScanner.count_severity level (f :: findings)
  = ((if String.eqb (STIGScanner.severity f) level then 1 else 0)
     + STIGScanner.count_severity level findings)%nat.
Proof.
  unfold STIGScanner.count_severity. cbn [List.filter].
  by destruct (String.eqb _ _).
Qed.

Lemma open_or_error_counts findings :
  Forall open_or_error findings →
  STIGScanner.count_severity "low" findings = 0%nat
  ∧ length findings
    = (STIGScanner.count_severity "high" findings
       + STIGScanner.count_severity "medium" findings
       + length (List.filter
                   (fun f => String.eqb (STIGScanner.status f) "Error") findings))%nat.
Proof.
  induction 1 as [| f findings Hf _ [IHlow IHtotal]]; [done |].
  rewrite !count_severity_cons. cbn [List.filter length].
  destruct Hf as [[-> [-> | ->]] | [-> ->]]; cbn; lia.
Qed.

Section SummaryFacts.
Variable run : list string → Res string.
Variable read_policy : Res string.
Variable remove_policy : Res unit.
Variable registry_value : string → string → Res STIGScanner.RegValue.

Lemma check_password_policy_appends findings :
  Forall open_or_error findings →
  Forall open_or_error
    (STIGScanner.check_password_policy run read_policy remove_policy findings).
Proof.
  intros Hfindings. unfold STIGScanner.check_password_policy.
  assert (∀ l f, Forall open_or_error l → open_or_error f →
                 Forall open_or_error (l ++ [f])) as Happend.
  { intros l f Hl Hf. apply Forall_app. split; [done |]. by constructor. }
  destruct (run _); [| apply Happend; [done | by right]].
  destruct read_policy; [| apply Happend; [done | by right]].
  set (first := if negb (PyStr.contains "MinimumPasswordLength = 14" _)
                then _ else _).
  assert (Forall open_or_error first) as Hfirst.
  { subst first. destruct (negb _); [| done].
    apply Happend; [done |]. left. split; [done | by left]. }
  set (second := if negb (PyStr.contains "PasswordComplexity = 1" _)
                 then _ else _).
  assert (Forall open_or_error second) as Hsecond.
  { subst second.
    destruct (negb (PyStr.contains "PasswordComplexity = 1" _)); [| done].
    apply Happend; [done |]. left. split; [done | by left]. }
  destruct remove_policy; [done |]. apply Happend; [done | by right].
Qed.

Lemma check_audit_policy_appends findings :
  Forall open_or_error findings →
  Forall open_or_error (STIGScanner.check_audit_policy run findings).
Proof.
  intros Hfindings. unfold STIGScanner.check_audit_policy.
  destruct (run _).
  - destruct (_ && _); [| done].
    apply Forall_app. split; [done |]. constructor; [| constructor].
    left. split; [done | by right].
  - apply Forall_app. split; [done |]. constructor; [| constructor]. by right.
Qed.

Lemma registry_step_appends findings check :
  STIGScanner.rc_severity check = "high" ∨ STIGScanner.rc_severity check = "medium" →
  Forall open_or_error findings →
  Forall open_or_error (STIGScanner.registry_step registry_value findings check).
Proof.
  intros Hseverity Hfindings. unfold STIGScanner.registry_step.
  destruct (registry_value _ _).
  - destruct (STIGScanner.differs _ _); [| done].
    apply Forall_app. split; [done |]. constructor; [| constructor]. by left.
  - apply Forall_app. split; [done |]. constructor; [| constructor]. by right.
Qed.

Lemma check_registry_settings_appends findings :
  Forall open_or_error findings →
  Forall open_or_error (STIGScanner.check_registry_settings registry_value findings).
Proof.
  intros Hfindings.
  unfold STIGScanner.check_registry_settings, STIGScanner.registry_checks.
  cbn [fold_left].
  apply registry_step_appends; [by left |].
  apply registry_step_appends; [by right | done].
Qed.

Lemma service_step_appends findings service :
  STIGScanner.sv_severity service = "high" ∨ STIGScanner.sv_severity service = "medium" →
  Forall open_or_error findings →
  Forall open_or_error (STIGScanner.service_step run findings service).
Proof.
  intros Hseverity Hfindings. unfold STIGScanner.service_step.
  destruct (run _).
  - destruct (_ && _); [| done].
    apply Forall_app. split; [done |]. constructor; [| constructor]. by left.
  - apply Forall_app. split; [done |]. constructor; [| constructor]. by right.
Qed.

Lemma check_service_settings_appends findings :
  Forall open_or_error findings →
  Forall open_or_error (STIGScanner.check_service_settings run findings).
Proof.
  intros Hfindings.
  unfold STIGScanner.check_service_settings, STIGScanner.services_to_check.
  cbn [fold_left].
  apply service_step_appends; [by left |].
  apply service_step_appends; [by right | done].
Qed.

(** X27. In the report of a scan by a fresh [STIGScanner], the
    summary's [low_severity] is 0, and [total_findings] is the sum of
    [high_severity], [medium_severity] and the number of checks that
    raised: the entries of status ["Error"] are counted in the total
    and in none of the three severities, so the three add up to the
    total exactly when no check raised. *)
Theorem summary_leaves_check_errors_out_of_the_severities now hostname os_info :
  let findings := STIGScanner.run_scan run read_policy remove_policy registry_value [] in
  let summary :=
    STIGScanner.summary (STIGScanner.generate_report now hostname os_info findings) in
  STIGScanner.low_severity summary = 0%nat
  ∧ STIGScanner.total_findings summary
    = (STIGScanner.high_severity summary + STIGScanner.medium_severity summary
       + length (List.filter
                   (fun f => String.eqb (STIGScanner.status f) "Error") findings))%nat.
Proof.
  cbn zeta. cbn [STIGScanner.generate_report STIGScanner.summary
                 STIGScanner.low_severity STIGScanner.total_findings
                 STIGScanner.high_severity STIGScanner.medium_severity].
  apply open_or_error_counts. unfold STIGScanner.run_scan.
  apply check_service_settings_appends, check_registry_settings_appends,
    check_audit_policy_appends, check_password_policy_appends.
  constructor.
Qed.

End SummaryFacts.
